(** * Bedtime story generator: the core of [main.py], embedded and verified

    The development follows the source file top to bottom:

    - [Py]: the Python string primitives the source relies on
      ([str.strip], [str.lower], [str.splitlines], [str.split],
      [str.replace], [int], truthiness of strings);
    - [Re]: the fragment of Python's [re] module used by the five
      extractors, as a backtracking matcher in continuation-passing style;
    - the records [Story], [JudgeFeedback], [StoryRequest];
    - the extractors [parse_analyzer_response], [parse_story_response],
      [parse_judge_response], [parse_choice_proposal],
      [parse_continuation_response];
    - the gateway [call_model] and the two control loops
      [generate_and_refine_story] and [run_interactive_choice_mode], in a
      state-and-exception monad over an explicit [world].

    Text.  A Python [str] is a Rocq [string]; the character numbered [n]
    stands for the code point U+00[n], so the model covers text over
    U+0000..U+00FF.  White space, digits, line boundaries and lower case
    are those of Python on that range.  [str.upper] leaves the range for
    two code points (U+00B5 and U+00FF); the model leaves them unchanged.

    Exceptions.  Operations that can raise in Python ([int], tuple
    unpacking, indexing, [Match.group]) return [exc]; a function that
    contains one is written in the exception monad, so "never raises" is a
    statement about the function and not a by-product of the encoding. *)

From Stdlib Require Import String Ascii List ZArith QArith Lia Bool DecimalString.
From stdpp Require Import gmap strings.
Import ListNotations.
Open Scope string_scope.
Open Scope list_scope.

(** ** Exceptions *)

Inductive exn : Type :=
| ValueError (msg : string)
| IndexError (msg : string)
| AttributeError (msg : string)
| EOFError
| ApiError (msg : string)        (* whatever the remote client raised, as [str(e)] *)
| RuntimeError (msg : string).

Inductive exc (A : Type) : Type :=
| Ok (a : A)
| Raise (e : exn).
Arguments Ok {A} a.
Arguments Raise {A} e.

Definition exc_bind {A B} (x : exc A) (f : A -> exc B) : exc B :=
  match x with
  | Ok a => f a
  | Raise e => Raise e
  end.

Notation "x <~ e ;; k" := (exc_bind e (fun x => k))
  (at level 60, e at next level, right associativity).

(** ** Python string primitives *)

Module Py.

Definition code (c : ascii) : nat := nat_of_ascii c.
Definition chr (n : nat) : ascii := ascii_of_nat n.

Definition LF : ascii := chr 10.
Definition CR : ascii := chr 13.
Definition nl : string := String LF "".
Definition dquote : string := String (chr 34) "".

Definition between (lo n hi : nat) : bool := Nat.leb lo n && Nat.leb n hi.

(** [str.isspace] and the class [\s] on U+0000..U+00FF. *)
Definition isspace (c : ascii) : bool :=
  let n := code c in
  between 9 n 13 || between 28 n 32 || Nat.eqb n 133 || Nat.eqb n 160.

(** Decimal digits ([\d], and what [int] accepts) on U+0000..U+00FF. *)
Definition isdigit (c : ascii) : bool := between 48 (code c) 57.

Definition digit_val (c : ascii) : Z := Z.of_nat (code c) - 48.

(** Line boundaries of [str.splitlines] on U+0000..U+00FF. *)
Definition islinebreak (c : ascii) : bool :=
  let n := code c in
  between 10 n 13 || between 28 n 30 || Nat.eqb n 133.

Definition lower_char (c : ascii) : ascii :=
  let n := code c in
  if between 65 n 90 || (between 192 n 222 && negb (Nat.eqb n 215))
  then chr (n + 32) else c.

Definition upper_char (c : ascii) : string :=
  let n := code c in
  if between 97 n 122 || (between 224 n 254 && negb (Nat.eqb n 247))
  then String (chr (n - 32)) ""
  else if Nat.eqb n 223 then "SS"
  else String c "".

Fixpoint lower (s : string) : string :=
  match s with
  | "" => ""
  | String c s' => String (lower_char c) (lower s')
  end.

Fixpoint upper (s : string) : string :=
  match s with
  | "" => ""
  | String c s' => upper_char c +:+ upper s'
  end.

(** Truthiness of a string, and [a or b] on strings. *)
Definition truthy (s : string) : bool :=
  match s with
  | "" => false
  | _ => true
  end.

Definition or_else (a b : string) : string := if truthy a then a else b.

Fixpoint lstrip (s : string) : string :=
  match s with
  | "" => ""
  | String c s' => if isspace c then lstrip s' else s
  end.

Fixpoint rstrip (s : string) : string :=
  match s with
  | "" => ""
  | String c s' =>
      match rstrip s' with
      | "" => if isspace c then "" else String c ""
      | r => String c r
      end
  end.

Definition strip (s : string) : string := rstrip (lstrip s).

(** [c in s] for a one-character needle. *)
Fixpoint contains_char (c : ascii) (s : string) : bool :=
  match s with
  | "" => false
  | String d s' => Ascii.eqb d c || contains_char c s'
  end.

(** [s.split(sep)] for a one-character separator. *)
Fixpoint split (sep : ascii) (s : string) : list string :=
  match s with
  | "" => [""]
  | String c s' =>
      if Ascii.eqb c sep then "" :: split sep s'
      else match split sep s' with
           | l :: ls => String c l :: ls
           | [] => [String c ""]
           end
  end.

(** The text before and after the first [sep], when there is one. *)
Fixpoint cut (sep : ascii) (s : string) : option (string * string) :=
  match s with
  | "" => None
  | String c s' =>
      if Ascii.eqb c sep then Some ("", s')
      else match cut sep s' with
           | Some (a, b) => Some (String c a, b)
           | None => None
           end
  end.

(** [s.split(sep, 1)] for a one-character separator. *)
Definition split1 (sep : ascii) (s : string) : list string :=
  match cut sep s with
  | Some (a, b) => [a; b]
  | None => [s]
  end.

(** [a, b = l]. *)
Definition unpack2 (l : list string) : exc (string * string) :=
  match l with
  | [a; b] => Ok (a, b)
  | _ => Raise (ValueError "wrong number of values to unpack")
  end.

(** [l[i]]. *)
Definition index (l : list string) (i : nat) : exc string :=
  match nth_error l i with
  | Some x => Ok x
  | None => Raise (IndexError "list index out of range")
  end.

(** [s.splitlines()].  [after_cr] is set just after a carriage return, so
    that the line feed of a CR LF pair does not open a second line. *)
Fixpoint splitlines_from (after_cr : bool) (s : string) : list string :=
  match s with
  | "" => []
  | String c s' =>
      if after_cr && Ascii.eqb c LF then splitlines_from false s'
      else if islinebreak c then "" :: splitlines_from (Ascii.eqb c CR) s'
      else match splitlines_from false s' with
           | [] => [String c ""]
           | l :: ls => String c l :: ls
           end
  end.

Definition splitlines (s : string) : list string := splitlines_from false s.

(** [s.replace(old, new)]: all occurrences, left to right, not
    overlapping.  [skip] counts the characters of an occurrence that are
    still to be dropped. *)
Fixpoint replace_from (old new : string) (skip : nat) (s : string) : string :=
  match s with
  | "" => ""
  | String c s' =>
      match skip with
      | S n => replace_from old new n s'
      | O =>
          if String.prefix old s
          then new +:+ replace_from old new (String.length old - 1) s'
          else String c (replace_from old new 0 s')
      end
  end.

Fixpoint intersperse (new : string) (s : string) : string :=
  match s with
  | "" => new
  | String c s' => new +:+ String c (intersperse new s')
  end.

Definition replace (old new s : string) : string :=
  match old with
  | "" => intersperse new s
  | _ => replace_from old new 0 s
  end.

(** [sep.join(l)]. *)
Fixpoint join (sep : string) (l : list string) : string :=
  match l with
  | [] => ""
  | [x] => x
  | x :: xs => x +:+ sep +:+ join sep xs
  end.

(** [str(n)] for an [int]. *)
Definition str_of_int (n : Z) : string := NilZero.string_of_int (Z.to_int n).

(** The digits of an [int] literal: decimal digits, single underscores
    allowed between two digits.  Returns the value and the digit count. *)
Fixpoint digits_from (s : string) (acc : Z) (cnt : nat) (after_digit : bool)
  : option (Z * nat) :=
  match s with
  | "" => if after_digit then Some (acc, cnt) else None
  | String c s' =>
      if isdigit c then digits_from s' (10 * acc + digit_val c) (S cnt) true
      else if Ascii.eqb c "_" && after_digit then digits_from s' acc cnt false
      else None
  end.

(** CPython's default limit on the length of a decimal string. *)
Definition int_max_str_digits : nat := 4300.

(** The white space [int] skips around a literal on U+0000..U+00FF: the
    class of [str.isspace] without the separators U+001C..U+001F, which
    [int] rejects. *)
Definition isspace_int (c : ascii) : bool :=
  let n := code c in
  between 9 n 13 || Nat.eqb n 32 || Nat.eqb n 133 || Nat.eqb n 160.

Fixpoint lstrip_int (s : string) : string :=
  match s with
  | "" => ""
  | String c s' => if isspace_int c then lstrip_int s' else s
  end.

Fixpoint rstrip_int (s : string) : string :=
  match s with
  | "" => ""
  | String c s' =>
      match rstrip_int s' with
      | "" => if isspace_int c then "" else String c ""
      | r => String c r
      end
  end.

(** [int(s)] for a string [s]. *)
Definition int (s : string) : exc Z :=
  let t := rstrip_int (lstrip_int s) in
  let '(neg, body) :=
    match t with
    | String "-" r => (true, r)
    | String "+" r => (false, r)
    | _ => (false, t)
    end in
  match digits_from body 0 0 false with
  | Some (v, cnt) =>
      if Nat.ltb int_max_str_digits cnt
      then Raise (ValueError "Exceeds the limit for integer string conversion")
      else Ok (if neg then (- v)%Z else v)
  | None => Raise (ValueError "invalid literal for int() with base 10")
  end.

End Py.

(** ** The fragment of Python's [re] used by the extractors

    Every quantifier of the source's patterns applies to a one-character
    atom ([\s*], [:?], [.*?], [[\s\S]*?], [\d+], [.+], [[_\s]?]), so
    [RRep] quantifies a character class.  The matcher backtracks in the
    order of Python's engine: alternatives left to right, a greedy
    quantifier longest first, a lazy one shortest first, and [search]
    tries the start positions from the left. *)

Module Re.

Inductive atom : Type :=
| AChar (c : ascii)     (* a literal character *)
| ASpace                (* \s *)
| ANotSpace             (* \S *)
| ADigit                (* \d *)
| ADot.                 (* .   *)

(** A bracket class: the union of its atoms. *)
Definition cclass : Type := list atom.

Record flags : Type := { ignorecase : bool; dotall : bool }.

Definition atom_matches (fl : flags) (a : atom) (c : ascii) : bool :=
  match a with
  | AChar d =>
      if ignorecase fl
      then Ascii.eqb (Py.lower_char c) (Py.lower_char d)
      else Ascii.eqb c d
  | ASpace => Py.isspace c
  | ANotSpace => negb (Py.isspace c)
  | ADigit => Py.isdigit c
  | ADot => dotall fl || negb (Ascii.eqb c Py.LF)
  end.

Definition in_class (fl : flags) (cl : cclass) (c : ascii) : bool :=
  existsb (fun a => atom_matches fl a c) cl.

Inductive regex : Type :=
| RStr (lit : string)                                   (* literal text *)
| RCls (cl : cclass)                                    (* one character *)
| RRep (greedy : bool) (lo : nat) (hi : option nat) (cl : cclass)
| RCat (r1 r2 : regex)
| RAlt (r1 r2 : regex)
| RGroup (n : nat) (r : regex)                          (* capturing group n *)
| RAhead (r : regex)                                    (* (?=...) *)
| RBos                                                  (* ^ without MULTILINE *)
| REos.                                                 (* $ without MULTILINE *)

Definition captures : Type := list (nat * string).

Fixpoint cap_lookup (n : nat) (cs : captures) : option string :=
  match cs with
  | [] => None
  | (k, v) :: cs' => if Nat.eqb k n then Some v else cap_lookup n cs'
  end.

(** What a successful match leaves: end position, text after the match,
    groups. *)
Definition result : Type := (nat * string * captures)%type.
Definition cont : Type := nat -> string -> captures -> option result.

(** The text consumed between the suffix [s] and its suffix [s']. *)
Definition consumed (s s' : string) : string :=
  substring 0 (String.length s - String.length s') s.

Fixpoint eat (fl : flags) (lit s : string) : option string :=
  match lit with
  | "" => Some s
  | String d lit' =>
      match s with
      | "" => None
      | String c s' => if atom_matches fl (AChar d) c then eat fl lit' s' else None
      end
  end.

(** [$]: at the end of the text, or just before a line feed that ends it. *)
Definition at_eos (s : string) : bool :=
  match s with
  | "" => true
  | String c "" => Ascii.eqb c Py.LF
  | _ => false
  end.

Definition first_of {A} (a b : option A) : option A :=
  match a with
  | Some x => Some x
  | None => b
  end.

Definition may_repeat (hi : option nat) : bool :=
  match hi with
  | Some O => false
  | _ => true
  end.

Definition dec_hi (hi : option nat) : option nat :=
  match hi with
  | Some n => Some (Nat.pred n)
  | None => None
  end.

(** A quantified class: [lo] repetitions are still owed, [hi] bounds the
    ones still allowed. *)
Fixpoint rep (fl : flags) (greedy : bool) (lo : nat) (hi : option nat)
    (cl : cclass) (pos : nat) (s : string) (cs : captures) (k : cont)
  : option result :=
  let stop := if Nat.eqb lo 0 then k pos s cs else None in
  let more :=
    match s with
    | "" => None
    | String c s' =>
        if may_repeat hi && in_class fl cl c
        then rep fl greedy (Nat.pred lo) (dec_hi hi) cl (S pos) s' cs k
        else None
    end in
  if greedy then first_of more stop else first_of stop more.

Fixpoint run (fl : flags) (r : regex) (pos : nat) (s : string) (cs : captures)
    (k : cont) : option result :=
  match r with
  | RStr lit =>
      match eat fl lit s with
      | Some s' => k (pos + String.length lit) s' cs
      | None => None
      end
  | RCls cl =>
      match s with
      | "" => None
      | String c s' => if in_class fl cl c then k (S pos) s' cs else None
      end
  | RRep greedy lo hi cl => rep fl greedy lo hi cl pos s cs k
  | RCat r1 r2 => run fl r1 pos s cs (fun p' s' cs' => run fl r2 p' s' cs' k)
  | RAlt r1 r2 => first_of (run fl r1 pos s cs k) (run fl r2 pos s cs k)
  | RGroup n r =>
      run fl r pos s cs (fun p' s' cs' => k p' s' ((n, consumed s s') :: cs'))
  | RAhead r =>
      match run fl r pos s cs (fun p' s' cs' => Some (p', s', cs')) with
      | Some (_, _, cs') => k pos s cs'
      | None => None
      end
  | RBos => if Nat.eqb pos 0 then k pos s cs else None
  | REos => if at_eos s then k pos s cs else None
  end.

Definition accept : cont := fun p s cs => Some (p, s, cs).

(** A match object. *)
Record rmatch : Type := {
  m_start : nat;
  m_end : nat;
  m_text : string;         (* group 0 *)
  m_caps : captures
}.

(** An anchored attempt at position [pos], where [s] is the text from
    [pos] on. *)
Definition match_at (fl : flags) (r : regex) (pos : nat) (s : string) : option rmatch :=
  match run fl r pos s [] accept with
  | Some (e, s', cs) =>
      Some {| m_start := pos; m_end := e; m_text := consumed s s'; m_caps := cs |}
  | None => None
  end.

Fixpoint search_from (fl : flags) (r : regex) (pos : nat) (s : string) : option rmatch :=
  match match_at fl r pos s with
  | Some m => Some m
  | None =>
      match s with
      | "" => None
      | String _ s' => search_from fl r (S pos) s'
      end
  end.

(** [re.search(r, s, flags)] and [re.match(r, s, flags)]. *)
Definition search (fl : flags) (r : regex) (s : string) : option rmatch :=
  search_from fl r 0 s.

Definition match_ (fl : flags) (r : regex) (s : string) : option rmatch :=
  match_at fl r 0 s.

(** [m.group(n)] used as a string.  Python raises [IndexError] when the
    pattern has no group [n], and yields [None] (which the callers go on to
    dereference) when the group took no part in the match; both are the
    exceptional outcome here. *)
Definition group (m : rmatch) (n : nat) : exc string :=
  match n with
  | O => Ok (m_text m)
  | _ =>
      match cap_lookup n (m_caps m) with
      | Some g => Ok g
      | None => Raise (IndexError "no such group")
      end
  end.

(** [re.sub(r, repl, s, flags)] for a literal replacement.  [skip] counts
    the characters of the last match still to be dropped.  None of the
    source's patterns can match the empty string; an empty match inserts
    the replacement and keeps the character. *)
Fixpoint sub_from (fl : flags) (r : regex) (repl : string) (skip pos : nat)
    (s : string) : string :=
  match s with
  | "" =>
      match skip, match_at fl r pos "" with
      | O, Some _ => repl
      | _, _ => ""
      end
  | String c s' =>
      match skip with
      | S n => sub_from fl r repl n (S pos) s'
      | O =>
          match match_at fl r pos s with
          | Some m =>
              match m_end m - pos with
              | O => repl +:+ String c (sub_from fl r repl 0 (S pos) s')
              | S n => repl +:+ sub_from fl r repl n (S pos) s'
              end
          | None => String c (sub_from fl r repl 0 (S pos) s')
          end
      end
  end.

Definition sub (fl : flags) (r : regex) (repl s : string) : string :=
  sub_from fl r repl 0 0 s.

(** [re.findall(r, s)] for a pattern with one group: the text of group 1
    of every match, left to right, matches not overlapping. *)
Fixpoint findall_from (fl : flags) (r : regex) (skip pos : nat) (s : string)
  : list string :=
  let here :=
    match skip with
    | O => match_at fl r pos s
    | S _ => None
    end in
  let found (m : rmatch) : string :=
    match cap_lookup 1 (m_caps m) with
    | Some g => g
    | None => ""
    end in
  match s with
  | "" =>
      match here with
      | Some m => [found m]
      | None => []
      end
  | String c s' =>
      match here with
      | Some m => found m :: findall_from fl r (Nat.pred (m_end m - pos)) (S pos) s'
      | None => findall_from fl r (Nat.pred skip) (S pos) s'
      end
  end.

Definition findall (fl : flags) (r : regex) (s : string) : list string :=
  findall_from fl r 0 0 s.

(** Pattern-building shorthands. *)
Fixpoint cat (rs : list regex) : regex :=
  match rs with
  | [] => RStr ""
  | [r] => r
  | r :: rs' => RCat r (cat rs')
  end.

Definition star (cl : cclass) : regex := RRep true 0 None cl.
Definition plus (cl : cclass) : regex := RRep true 1 None cl.
Definition opt (cl : cclass) : regex := RRep true 0 (Some 1) cl.
Definition lazy_star (cl : cclass) : regex := RRep false 0 None cl.

Definition ws : cclass := [ASpace].
Definition colon : cclass := [AChar ":"].
Definition dot : cclass := [ADot].
Definition any : cclass := [ASpace; ANotSpace].       (* [\s\S] *)

Definition no_flags : flags := {| ignorecase := false; dotall := false |}.
Definition I : flags := {| ignorecase := true; dotall := false |}.
Definition IS : flags := {| ignorecase := true; dotall := true |}.

End Re.

(** ** Constants and records *)

Definition MAX_REFINEMENT_ITERATIONS : nat := 5.
Definition JUDGE_THRESHOLD : Z := 7.
Definition API_MAX_RETRIES : nat := 3.
Definition API_RETRY_BACKOFF_SECONDS : Q := 3 # 2.
Definition STORY_MAX_TOKENS : Z := 2000.
Definition JUDGE_MAX_TOKENS : Z := 900.
Definition CHOICE_MODE_MAX_STEPS : nat := 3.
Definition CHOICE_PROPOSAL_MAX_TOKENS : Z := 250.
Definition CHOICE_CONTINUATION_MAX_TOKENS : Z := 900.

Inductive StoryCategory : Type :=
| ADVENTURE | FANTASY | ANIMAL | FRIENDSHIP | BEDTIME | EDUCATIONAL | FUNNY.

Definition category_value (c : StoryCategory) : string :=
  match c with
  | ADVENTURE => "adventure"
  | FANTASY => "fantasy"
  | ANIMAL => "animal"
  | FRIENDSHIP => "friendship"
  | BEDTIME => "bedtime"
  | EDUCATIONAL => "educational"
  | FUNNY => "funny"
  end.

Record StoryRequest : Type := {
  raw_input : string;
  category : StoryCategory;
  characters : list string;
  themes : list string;
  setting : string;
  tone : string
}.

Record JudgeFeedback : Type := {
  overall_score : Z;
  age_appropriateness : Z;
  engagement : Z;
  moral_clarity : Z;
  story_structure : Z;
  language_quality : Z;
  feedback : string;
  suggestions : list string
}.

Record Story : Type := {
  title : string;
  content : string;
  moral : string;
  version : Z
}.

(** ** Small helpers of the source *)

Definition clamp_int (value : string) (lo hi default : Z) : Z :=
  match Py.int value with
  | Ok v => Z.max lo (Z.min hi v)
  | Raise _ => default
  end.

Definition allowed_tones : list string :=
  ["whimsical"; "exciting"; "calming"; "humorous"; "heartwarming"; "inspiring"].

Definition mem (x : string) (l : list string) : bool := existsb (String.eqb x) l.

Definition normalize_tone (tone : string) : string :=
  let t := Py.lower (Py.strip (Py.or_else tone "")) in
  if mem t allowed_tones then t else "whimsical".

Definition format_story_for_context (story : Story) : string :=
  "TITLE: " +:+ title story +:+ Py.nl +:+
  "STORY:" +:+ Py.nl +:+
  content story +:+ Py.nl +:+
  "MORAL: " +:+ moral story +:+ Py.nl +:+
  "VERSION: " +:+ Py.str_of_int (version story).

(** ** The patterns of the extractors *)

Module Pat.
Import Re.

Definition label (upper_form title_form : string) : regex :=
  RAlt (RStr upper_form) (RStr title_form).

(* (?:TITLE|Title)\s*:?\s*(.*?)(?=\n|$) *)
Definition title : regex :=
  cat [label "TITLE" "Title"; star ws; opt colon; star ws;
       RGroup 1 (lazy_star dot);
       RAhead (RAlt (RCls [AChar Py.LF]) REos)].

(* (?:MORAL|Moral)\s*:?\s*(.*?)$ *)
Definition moral : regex :=
  cat [label "MORAL" "Moral"; star ws; opt colon; star ws;
       RGroup 1 (lazy_star dot); REos].

(* (?:MORAL|Moral)\s*: *)
Definition moral_marker : regex :=
  cat [label "MORAL" "Moral"; star ws; RCls colon].

(* (?:STORY|Story)\s*:?\s*([\s\S]*?)(?=(?:MORAL|Moral)\s*:|$) *)
Definition story : regex :=
  cat [label "STORY" "Story"; star ws; opt colon; star ws;
       RGroup 1 (lazy_star any);
       RAhead (RAlt moral_marker REos)].

(* ^(?:STORY|Story)\s*:?\s* *)
Definition story_prefix : regex :=
  cat [RBos; label "STORY" "Story"; star ws; opt colon; star ws].

(* (?:W1[_\s]?W2|W1' W2')\s*:?\s*(\d+) *)
Definition score (w1 w2 title_form : string) : regex :=
  cat [RAlt (cat [RStr w1; opt [AChar "_"; ASpace]; RStr w2]) (RStr title_form);
       star ws; opt colon; star ws;
       RGroup 1 (plus [ADigit])].

Definition overall : regex := score "OVERALL" "SCORE" "Overall Score".
Definition age : regex := score "AGE" "APPROPRIATENESS" "Age Appropriateness".
(* (?:ENGAGEMENT|Engagement)\s*:?\s*(\d+) *)
Definition engagement : regex :=
  cat [label "ENGAGEMENT" "Engagement"; star ws; opt colon; star ws;
       RGroup 1 (plus [ADigit])].
Definition moral_clarity : regex := score "MORAL" "CLARITY" "Moral Clarity".
Definition story_structure : regex := score "STORY" "STRUCTURE" "Story Structure".
Definition language_quality : regex := score "LANGUAGE" "QUALITY" "Language Quality".

(* (?:SUGGESTIONS|Suggestions)\s*: *)
Definition suggestions_marker : regex :=
  cat [label "SUGGESTIONS" "Suggestions"; star ws; RCls colon].

(* (?:FEEDBACK|Feedback)\s*:?\s*(.*?)(?=(?:SUGGESTIONS|Suggestions)\s*:|$) *)
Definition feedback : regex :=
  cat [label "FEEDBACK" "Feedback"; star ws; opt colon; star ws;
       RGroup 1 (lazy_star dot);
       RAhead (RAlt suggestions_marker REos)].

(* (?:SUGGESTIONS|Suggestions)\s*:?\s*(.*?)$ *)
Definition suggestions : regex :=
  cat [label "SUGGESTIONS" "Suggestions"; star ws; opt colon; star ws;
       RGroup 1 (lazy_star dot); REos].

(* [-...*]\s*(.+) : the bullet class of the source lists the hyphen, the
   asterisk and the three characters U+00E2, U+20AC, U+00A2; the second of
   these lies outside the modelled range. *)
Definition bullet : regex :=
  cat [RCls [AChar "-"; AChar (Py.chr 226); AChar (Py.chr 162); AChar "*"];
       star ws; RGroup 1 (plus dot)].

(* CHOICE_n\s*:\s*(.+) *)
Definition choice (lbl : string) : regex :=
  cat [RStr lbl; star ws; RCls colon; star ws; RGroup 1 (plus dot)].

(* ^\s*[12][\)\.]\s* *)
Definition numbered : regex :=
  cat [RBos; star ws; RCls [AChar "1"; AChar "2"]; RCls [AChar ")"; AChar "."];
       star ws].

(* (?:CONTINUATION)\s*:?(.*?)(?=(?:MORAL)\s*:|$) *)
Definition continuation : regex :=
  cat [RStr "CONTINUATION"; star ws; opt colon;
       RGroup 1 (lazy_star dot);
       RAhead (RAlt (cat [RStr "MORAL"; star ws; RCls colon]) REos)].

(* (?:MORAL)\s*:? then the greedy group ( .* ) and $ *)
Definition closing_moral : regex :=
  cat [RStr "MORAL"; star ws; opt colon; RGroup 1 (star dot); REos].

(* ^CONTINUATION\s*:? *)
Definition continuation_prefix : regex :=
  cat [RBos; RStr "CONTINUATION"; star ws; opt colon].

End Pat.

(** ** The extractors *)

Fixpoint parse_analyzer_lines (lines : list string) (parsed : gmap string string)
  : exc (gmap string string) :=
  match lines with
  | [] => Ok parsed
  | line :: rest =>
      if negb (Py.contains_char ":" line) then parse_analyzer_lines rest parsed
      else
        kv <~ Py.unpack2 (Py.split1 ":" line) ;;
        parse_analyzer_lines rest
          (<[Py.upper (Py.strip (fst kv)) := Py.strip (snd kv)]> parsed)
  end.

Definition parse_analyzer_response (response : string) : exc (gmap string string) :=
  parse_analyzer_lines (Py.splitlines (Py.strip (Py.or_else response ""))) ∅.

(** [m.group(1).strip()]. *)
Definition group1_stripped (m : Re.rmatch) : exc string :=
  g <~ Re.group m 1 ;; Ok (Py.strip g).

Definition parse_story_response (response fallback_title : string)
  : exc (string * string * string) :=
  let text := Py.or_else response "" in
  let title_match := Re.search Re.I Pat.title text in
  let moral_match := Re.search Re.IS Pat.moral text in
  let story_match := Re.search Re.I Pat.story text in
  title <~ match title_match with
           | Some m =>
               t <~ group1_stripped m ;;
               Ok (if Py.truthy t then t else fallback_title)
           | None => Ok fallback_title
           end ;;
  moral <~ match moral_match with
           | Some m => group1_stripped m
           | None => Ok ""
           end ;;
  body <~ match story_match with
          | Some m => group1_stripped m
          | None => Ok ""
          end ;;
  content <~ (if Py.truthy body then Ok body
              else
                c1 <~ match title_match with
                      | Some m => g <~ Re.group m 0 ;; Ok (Py.replace g "" text)
                      | None => Ok text
                      end ;;
                c2 <~ match moral_match with
                      | Some m => g <~ Re.group m 0 ;; Ok (Py.replace g "" c1)
                      | None => Ok c1
                      end ;;
                Ok (Py.strip c2)) ;;
  Ok (title, Py.strip (Re.sub Re.I Pat.story_prefix "" content), moral).

Definition find_score (text : string) (pattern : Re.regex) (default : Z) : exc Z :=
  match Re.search Re.I pattern text with
  | None => Ok default
  | Some m => g <~ Re.group m 1 ;; Ok (clamp_int g 1 10 default)
  end.

Definition parse_judge_response (response : string) : exc JudgeFeedback :=
  let text := Py.or_else response "" in
  overall <~ find_score text Pat.overall 5 ;;
  age <~ find_score text Pat.age 5 ;;
  eng <~ find_score text Pat.engagement 5 ;;
  moral <~ find_score text Pat.moral_clarity 5 ;;
  struct <~ find_score text Pat.story_structure 5 ;;
  lang <~ find_score text Pat.language_quality 5 ;;
  fb <~ match Re.search Re.IS Pat.feedback text with
        | Some m => group1_stripped m
        | None => Ok ""
        end ;;
  sugg <~ match Re.search Re.IS Pat.suggestions text with
          | Some m =>
              suggestions_text <~ group1_stripped m ;;
              let bullet_lines := Re.findall Re.no_flags Pat.bullet suggestions_text in
              let found :=
                map Py.strip (filter (fun s => Py.truthy (Py.strip s)) bullet_lines) in
              Ok (match found with
                  | [] => if Py.truthy suggestions_text then [suggestions_text] else []
                  | _ => found
                  end)
          | None => Ok []
          end ;;
  Ok {| overall_score := overall;
        age_appropriateness := age;
        engagement := eng;
        moral_clarity := moral;
        story_structure := struct;
        language_quality := lang;
        feedback := fb;
        suggestions := sugg |}.

Definition DEFAULT_CHOICE_1 : string :=
  "Follow a trail of twinkling lights to see where it leads.".
Definition DEFAULT_CHOICE_2 : string :=
  "Ask a friendly neighbor for help and a cozy hint.".

Definition is_some {A} (o : option A) : bool :=
  match o with
  | Some _ => true
  | None => false
  end.

(** The numbered-line fallback of [parse_choice_proposal]. *)
Definition numbered_lines (text : string) : list string :=
  let lines := map Py.strip (filter (fun ln => Py.truthy (Py.strip ln)) (Py.splitlines text)) in
  map (fun ln => Py.strip (Re.sub Re.no_flags Pat.numbered "" ln))
      (filter (fun ln => is_some (Re.match_ Re.no_flags Pat.numbered ln)) lines).

Definition parse_choice_proposal (text : string) : exc (string * string) :=
  let text := Py.or_else text "" in
  c1 <~ match Re.search Re.I (Pat.choice "CHOICE_1") text with
        | Some m => group1_stripped m
        | None => Ok ""
        end ;;
  c2 <~ match Re.search Re.I (Pat.choice "CHOICE_2") text with
        | Some m => group1_stripped m
        | None => Ok ""
        end ;;
  cs <~ (if negb (Py.truthy c1) || negb (Py.truthy c2) then
           let numbered := numbered_lines text in
           if Nat.leb 2 (length numbered) then
             a <~ Py.index numbered 0 ;;
             b <~ Py.index numbered 1 ;;
             Ok (a, b)
           else Ok (c1, c2)
         else Ok (c1, c2)) ;;
  let c1 := if Py.truthy (fst cs) then fst cs else DEFAULT_CHOICE_1 in
  let c2 := if Py.truthy (snd cs) then snd cs else DEFAULT_CHOICE_2 in
  Ok (c1, c2).

Definition parse_continuation_response (text : string) : exc (string * string) :=
  let t := Py.or_else text "" in
  let cont_match := Re.search Re.IS Pat.continuation t in
  let moral_match := Re.search Re.IS Pat.closing_moral t in
  body <~ match cont_match with
          | Some m => group1_stripped m
          | None => Ok ""
          end ;;
  let continuation := if Py.truthy body then body else Py.strip t in
  let continuation := Py.strip (Re.sub Re.I Pat.continuation_prefix "" continuation) in
  moral <~ match moral_match with
           | Some m => group1_stripped m
           | None => Ok ""
           end ;;
  Ok (continuation, moral).

(** ** The world the program runs in

    The remote service is an oracle: [service w n] is what the [n]-th
    request sent in this run does, a reply (whose content may be absent)
    or an exception.  Every theorem quantifies over the oracle, so no
    assumption is made on what the service answers.  Console input is a
    finite list of lines; reading past its end raises [EOFError], as
    [input()] does.  Printing is not modelled.

    [trace] is ghost state: it records the Story values the program
    constructs and the outcome of each judging, proposal and continuation,
    in order.  Nothing in the program reads it. *)

Inductive outcome : Type :=
| Replied (content : option string)
| Failed (err : string).

Record request : Type := {
  req_messages : list (string * string);       (* (role, content) *)
  req_max_tokens : Z;
  req_temperature : Q
}.

Inductive event : Type :=
| EvDraft (s : Story)                                     (* generate_story returned s *)
| EvJudged (round_num : Z) (s : Story) (fb : JudgeFeedback)   (* judge_story returned fb for s *)
| EvRefined (s : Story)                                   (* refine_story returned s *)
| EvProposed (step : nat) (c1 c2 : string)
| EvContinuation (step : nat) (continuation maybe_moral : string)
| EvCommitted (step : nat) (s : Story).

Record world : Type := {
  service : nat -> outcome;
  requests : list request;          (* oldest first *)
  sleeps : list Q;                  (* oldest first *)
  stdin : list string;
  trace : list event                (* oldest first *)
}.

Definition M (A : Type) : Type := world -> exc A * world.

Definition ret {A} (a : A) : M A := fun w => (Ok a, w).

Definition bind {A B} (m : M A) (f : A -> M B) : M B :=
  fun w =>
    match m w with
    | (Ok a, w') => f a w'
    | (Raise e, w') => (Raise e, w')
    end.

Definition raise {A} (e : exn) : M A := fun w => (Raise e, w).

Definition lift {A} (x : exc A) : M A := fun w => (x, w).

Notation "x <- e ;; k" := (bind e (fun x => k))
  (at level 60, e at next level, right associativity).
Notation "e ;;; k" := (bind e (fun _ => k))
  (at level 60, right associativity).

(** [client.chat.completions.create(...)] followed by
    [response.choices[0].message.content]: the body of the [try]. *)
Definition create (req : request) : M outcome :=
  fun w =>
    (Ok (service w (length (requests w))),
     {| service := service w;
        requests := requests w ++ [req];
        sleeps := sleeps w;
        stdin := stdin w;
        trace := trace w |}).

Definition sleep (seconds : Q) : M unit :=
  fun w =>
    (Ok tt,
     {| service := service w;
        requests := requests w;
        sleeps := sleeps w ++ [seconds];
        stdin := stdin w;
        trace := trace w |}).

Definition emit (e : event) : M unit :=
  fun w =>
    (Ok tt,
     {| service := service w;
        requests := requests w;
        sleeps := sleeps w;
        stdin := stdin w;
        trace := trace w ++ [e] |}).

(** ** The gateway *)

Definition backoff (attempt : nat) : Q :=
  Qred (API_RETRY_BACKOFF_SECONDS * inject_Z (Z.of_nat attempt)).

(** [str(last_err)]. *)
Definition str_of_err (last_err : option string) : string :=
  match last_err with
  | Some e => e
  | None => "None"
  end.

(** [content or ""], where [content] may be [None]. *)
Definition reply_text (content : option string) : string :=
  match content with
  | Some c => Py.or_else c ""
  | None => ""
  end.

(** The [for attempt in range(1, API_MAX_RETRIES + 1)] loop.  [inl] is a
    [return] from inside the loop; [inr] is the loop left by [break] or by
    running out of attempts, with [last_err]. *)
Fixpoint call_model_loop (attempts : list nat) (req : request)
    (last_err : option string) : M (string + option string) :=
  match attempts with
  | [] => ret (inr last_err)
  | attempt :: rest =>
      r <- create req ;;
      match r with
      | Replied content => ret (inl (reply_text content))
      | Failed e =>
          if Nat.ltb attempt API_MAX_RETRIES
          then sleep (backoff attempt) ;;; call_model_loop rest req (Some e)
          else ret (inr (Some e))
      end
  end.

(** The arguments of [client.chat.completions.create]. *)
Definition chat_request (prompt system_prompt : string) (max_tokens : Z)
    (temperature : Q) : request :=
  let messages :=
    (if Py.truthy system_prompt then [("system", system_prompt)] else [])
    ++ [("user", prompt)] in
  {| req_messages := messages;
     req_max_tokens := max_tokens;
     req_temperature := temperature |}.

Definition exhausted_message (last_err : option string) : string :=
  "OpenAI API call failed after " +:+ Py.str_of_int (Z.of_nat API_MAX_RETRIES)
  +:+ " attempts: " +:+ str_of_err last_err.

Definition call_model (prompt system_prompt : string) (max_tokens : Z)
    (temperature : Q) : M string :=
  let req := chat_request prompt system_prompt max_tokens temperature in
  r <- call_model_loop (seq 1 API_MAX_RETRIES) req None ;;
  match r with
  | inl content => ret content
  | inr last_err => raise (RuntimeError (exhausted_message last_err))
  end.

(** ** Prompts

    The instruction texts are those of the source, character for
    character. *)

Definition STORYTELLER_BASE_PROMPT : string :=
  "You are a master children's storyteller creating bedtime stories for ages 5-10.

STORY STRUCTURE (Follow the classic story arc):
1. OPENING: Introduce the main character and their world in a cozy, inviting way
2. INCITING INCIDENT: Something happens that starts the adventure
3. RISING ACTION: The character faces challenges and meets helpers
4. CLIMAX: The most exciting moment where the character must be brave/clever/kind
5. FALLING ACTION: The problem begins to resolve
6. RESOLUTION: A satisfying, peaceful ending perfect for bedtime

GUIDELINES:
- Use simple, vivid language that children can understand
- Include sensory details (colors, sounds, textures)
- Add gentle repetition and rhythm where appropriate
- Include dialogue to bring characters to life
- Ensure a clear, positive moral lesson
- End with a calming, sleep-inducing conclusion
- Story length: 400-600 words
- Avoid scary elements, violence, or anything inappropriate for young children

FORMAT YOUR RESPONSE AS:
TITLE: [Story Title]
STORY:
[The full story text]
MORAL: [The lesson of the story in one sentence]".

Definition category_addition (c : StoryCategory) : string :=
  match c with
  | ADVENTURE =>
      Py.nl +:+ Py.nl +:+ "ADVENTURE FOCUS: Include exciting discoveries, brave choices, and exploration. The character should show courage but always stay safe."
  | FANTASY =>
      Py.nl +:+ Py.nl +:+ "FANTASY FOCUS: Include magical elements like talking animals, enchanted objects, or gentle magic. Keep magic whimsical and wonder-inducing."
  | ANIMAL =>
      Py.nl +:+ Py.nl +:+ "ANIMAL FOCUS: Feature animals with relatable personalities. Show their natural behaviors mixed with child-like emotions and adventures."
  | FRIENDSHIP =>
      Py.nl +:+ Py.nl +:+ "FRIENDSHIP FOCUS: Emphasize cooperation, sharing, understanding differences, and the joy of having friends."
  | BEDTIME =>
      Py.nl +:+ Py.nl +:+ "BEDTIME FOCUS: Create a soothing atmosphere. Include cozy imagery like warm blankets, twinkling stars, and peaceful nights."
  | EDUCATIONAL =>
      Py.nl +:+ Py.nl +:+ "EDUCATIONAL FOCUS: Weave in a learning element naturally (counting, colors, nature facts, kindness lessons)."
  | FUNNY =>
      Py.nl +:+ Py.nl +:+ "HUMOR FOCUS: Include silly situations, playful wordplay, and gentle humor that makes children giggle."
  end.

Definition get_storyteller_system_prompt (c : StoryCategory) : string :=
  STORYTELLER_BASE_PROMPT +:+ category_addition c.

Definition JUDGE_SYSTEM_PROMPT : string :=
  "You are a careful children's literature critic.

SCORING RULES:
- Round 1: Be critical. Cap scores at 6/10 unless perfection.
- Round 2+: REWARD IMPROVEMENT. If the story fixed previous issues, the score MUST go up.
- Be honest. If it got worse, lower the score.

EVALUATION CRITERIA (1-10):
1. AGE_APPROPRIATENESS (Vocabulary suitable for 5-10?)
2. ENGAGEMENT (Is it boring?)
3. MORAL_CLARITY (Is the lesson clear?)
4. STORY_STRUCTURE (Beginning, Middle, End?)
5. LANGUAGE_QUALITY (Vivid descriptions?)

IMPORTANT FORMATTING:
- Your FEEDBACK section must be a single paragraph summary.
- Do NOT list the scores again inside the FEEDBACK section.
- Put detailed bullet points ONLY in the SUGGESTIONS section.

Respond in this exact format:
OVERALL_SCORE: [1-10]
AGE_APPROPRIATENESS: [1-10]
ENGAGEMENT: [1-10]
MORAL_CLARITY: [1-10]
STORY_STRUCTURE: [1-10]
LANGUAGE_QUALITY: [1-10]
FEEDBACK: [2-3 sentences summarizing the critique. Do not repeat scores here.]
SUGGESTIONS:
- [bullet 1]
- [bullet 2]
".

Definition CHOICE_PROPOSER_SYSTEM_PROMPT : string :=
  "You help create interactive bedtime stories for children ages 5-10.
Given the story so far, propose EXACTLY two safe, child-friendly options for what could happen next.

RULES:
- No violence, gore, self-harm, abuse, hate, or sexual content
- Avoid scary elements (no monsters that harm, no kidnapping, no realistic danger)
- Keep each option to ONE short sentence
- Options should be meaningfully different

OUTPUT FORMAT (exactly two lines):
CHOICE_1: ...
CHOICE_2: ...
".

Definition format_feedback_for_context (fb : JudgeFeedback) (round_num : Z) : string :=
  let suggestions_text :=
    match suggestions fb with
    | [] => "- (no suggestions returned)"
    | l => Py.join Py.nl (map (fun s => "- " +:+ s) l)
    end in
  "ROUND " +:+ Py.str_of_int round_num +:+ " FEEDBACK" +:+ Py.nl +:+
  "OVERALL_SCORE: " +:+ Py.str_of_int (overall_score fb) +:+ Py.nl +:+
  "AGE_APPROPRIATENESS: " +:+ Py.str_of_int (age_appropriateness fb) +:+ Py.nl +:+
  "ENGAGEMENT: " +:+ Py.str_of_int (engagement fb) +:+ Py.nl +:+
  "MORAL_CLARITY: " +:+ Py.str_of_int (moral_clarity fb) +:+ Py.nl +:+
  "STORY_STRUCTURE: " +:+ Py.str_of_int (story_structure fb) +:+ Py.nl +:+
  "LANGUAGE_QUALITY: " +:+ Py.str_of_int (language_quality fb) +:+ Py.nl +:+
  "FEEDBACK: " +:+ feedback fb +:+ Py.nl +:+
  "SUGGESTIONS:" +:+ Py.nl +:+ suggestions_text +:+ Py.nl.

Definition generate_story_prompt (request : StoryRequest)
    (improvement_context : option string) : string :=
  let chars :=
    match characters request with
    | [] => "Create appropriate characters"
    | l => Py.join ", " l
    end in
  let thms :=
    match themes request with
    | [] => "friendship and kindness"
    | l => Py.join ", " l
    end in
  let prompt :=
    "Create a bedtime story with these elements:
- Characters: " +:+ chars +:+ "
- Themes: " +:+ thms +:+ "
- Setting: " +:+ setting request +:+ "
- Tone: " +:+ tone request +:+ "
- Original request: " +:+ Py.dquote +:+ raw_input request +:+ Py.dquote +:+ Py.nl in
  match improvement_context with
  | Some ctx =>
      if Py.truthy ctx
      then prompt +:+ Py.nl +:+ Py.nl
           +:+ "Incorporate these improvement notes from prior judging:" +:+ Py.nl
           +:+ ctx +:+ Py.nl
      else prompt
  | None => prompt
  end.

Definition judge_prompt (story : Story) (request : StoryRequest) (round_num : Z)
    (history : list JudgeFeedback) : string :=
  let round_context :=
    if Z.eqb round_num 1 then
      "This is a first draft. Be extremely critical. Do not give a score higher than 6 unless it is a masterpiece."
    else if Z.ltb 1 round_num then
      "This is revision #" +:+ Py.str_of_int round_num
      +:+ ". Check if they fixed the previous issues. You can raise the score if they did."
    else "" in
  let previous_context :=
    match history with
    | [] => ""
    | _ =>
        "PRIOR FEEDBACK:" +:+ Py.nl
        +:+ Py.join Py.nl
              (map (fun ifb => format_feedback_for_context (snd ifb) (Z.of_nat (fst ifb) + 1))
                   (combine (seq 0 (length history)) history))
        +:+ Py.nl
    end in
  "Evaluate this draft (Round " +:+ Py.str_of_int round_num +:+ "):

REQUEST: " +:+ Py.dquote +:+ raw_input request +:+ Py.dquote +:+ "
CATEGORY: " +:+ category_value (category request) +:+ "
TONE: " +:+ tone request +:+ "

STORY:
" +:+ format_story_for_context story +:+ "

CONTEXT:
" +:+ round_context +:+ Py.nl +:+ previous_context +:+ Py.nl.

Definition build_improvement_context (history : list JudgeFeedback) : string :=
  match last history with
  | None => ""
  | Some latest =>
      let suggestions_text :=
        match suggestions latest with
        | [] => "- Improve overall clarity and engagement."
        | l => Py.join Py.nl (map (fun s => "- " +:+ s) l)
        end in
      "Latest judge scores: overall " +:+ Py.str_of_int (overall_score latest) +:+ "/10 "
      +:+ "(age " +:+ Py.str_of_int (age_appropriateness latest)
      +:+ ", engagement " +:+ Py.str_of_int (engagement latest)
      +:+ ", moral " +:+ Py.str_of_int (moral_clarity latest) +:+ ", "
      +:+ "structure " +:+ Py.str_of_int (story_structure latest)
      +:+ ", language " +:+ Py.str_of_int (language_quality latest) +:+ ")." +:+ Py.nl
      +:+ "Latest feedback: " +:+ feedback latest +:+ Py.nl
      +:+ "Concrete suggestions:" +:+ Py.nl +:+ suggestions_text
  end.

Definition refine_prompt (story : Story) (request : StoryRequest)
    (history : list JudgeFeedback) : string :=
  "Revise this children's story using the judge's critique.

GOALS:
- Keep it suitable for ages 5-10
- Match the requested category, tone, and setting
- Keep the moral positive and not preachy
- Improve weak areas called out by the judge

REQUEST DETAILS:
- Category: " +:+ category_value (category request) +:+ "
- Tone: " +:+ tone request +:+ "
- Setting: " +:+ setting request +:+ "

CURRENT STORY:
" +:+ format_story_for_context story +:+ "

IMPROVEMENT NOTES:
" +:+ build_improvement_context history +:+ "

Return the full revised story in this format:
TITLE: [Title]
STORY:
[Full story]
MORAL: [Moral]
".

Definition propose_prompt (story : Story) (request : StoryRequest)
    (step_num total_steps : nat) : string :=
  "Propose two next-step options.

CONTEXT:
- Interactive step: " +:+ Py.str_of_int (Z.of_nat step_num) +:+ " of "
  +:+ Py.str_of_int (Z.of_nat total_steps) +:+ "
- Requested category: " +:+ category_value (category request) +:+ "
- Tone: " +:+ tone request +:+ "
- Setting: " +:+ setting request +:+ "

STORY SO FAR:
" +:+ format_story_for_context story +:+ Py.nl.

Definition continuation_prompt (story : Story) (chosen_option : string)
    (is_final : bool) : string :=
  "Continue the bedtime story in an interactive way.

STORY SO FAR:
" +:+ format_story_for_context story +:+ "

USER CHOSEN OPTION:
" +:+ chosen_option +:+ "

CONSTRAINTS:
- Ages 5-10, safe and not scary
- Keep it consistent with the setting and tone
- Write 120-200 words
- Continue smoothly from the last sentence
" +:+
  (if is_final then "
FINAL STEP:
- Resolve the story with a satisfying, cozy ending
- Include a short calming closing that feels bedtime-ready
- Output a MORAL in one sentence

OUTPUT FORMAT:
CONTINUATION:
[continuation text]
MORAL: [one sentence]
" else "
NOT FINAL YET:
- End with a gentle, curious moment (not scary) that invites the next choice
- Do NOT include a moral yet

OUTPUT FORMAT:
CONTINUATION:
[continuation text]
").

(** ** Drafting, judging, refining *)

Definition generate_story (request : StoryRequest) (improvement_context : option string)
  : M Story :=
  let system_prompt := get_storyteller_system_prompt (category request) in
  let prompt := generate_story_prompt request improvement_context in
  response <- call_model prompt system_prompt STORY_MAX_TOKENS (4 # 5) ;;
  parsed <- lift (parse_story_response response "Untitled Story") ;;
  let '(title, content, moral) := parsed in
  let story := {| title := title; content := content; moral := moral; version := 1 |} in
  emit (EvDraft story) ;;;
  ret story.

Definition judge_story (story : Story) (request : StoryRequest) (round_num : Z)
    (history : list JudgeFeedback) : M JudgeFeedback :=
  let prompt := judge_prompt story request round_num history in
  response <- call_model prompt JUDGE_SYSTEM_PROMPT JUDGE_MAX_TOKENS (2 # 5) ;;
  fb <- lift (parse_judge_response response) ;;
  emit (EvJudged round_num story fb) ;;;
  ret fb.

Definition refine_story (story : Story) (request : StoryRequest)
    (history : list JudgeFeedback) : M Story :=
  let system_prompt := get_storyteller_system_prompt (category request) in
  let prompt := refine_prompt story request history in
  response <- call_model prompt system_prompt STORY_MAX_TOKENS (7 # 10) ;;
  parsed <- lift (parse_story_response response (title story)) ;;
  let '(title, content, moral) := parsed in
  let story' := {| title := title; content := content; moral := moral;
                   version := version story + 1 |} in
  emit (EvRefined story') ;;;
  ret story'.

(** The [for iteration in range(MAX_REFINEMENT_ITERATIONS)] loop of
    [generate_and_refine_story], over the iterations still to run. *)
Fixpoint refine_loop (iterations : list nat) (request : StoryRequest)
    (story : Story) (history : list JudgeFeedback)
  : M (Story * list JudgeFeedback) :=
  match iterations with
  | [] => ret (story, history)
  | iteration :: rest =>
      let round_num := (Z.of_nat iteration + 1)%Z in
      fb <- judge_story story request round_num history ;;
      let history := history ++ [fb] in
      if Z.leb JUDGE_THRESHOLD (overall_score fb) then ret (story, history)
      else if Nat.ltb iteration (MAX_REFINEMENT_ITERATIONS - 1) then
        story' <- refine_story story request history ;;
        refine_loop rest request story' history
      else refine_loop rest request story history
  end.

Definition generate_and_refine_story (request : StoryRequest)
  : M (Story * list JudgeFeedback) :=
  story <- generate_story request None ;;
  refine_loop (seq 0 MAX_REFINEMENT_ITERATIONS) request story [].

(** ** Interactive choice mode *)

Definition propose_next_choices (story : Story) (request : StoryRequest)
    (step_num total_steps : nat) : M (string * string) :=
  let prompt := propose_prompt story request step_num total_steps in
  resp <- call_model prompt CHOICE_PROPOSER_SYSTEM_PROMPT CHOICE_PROPOSAL_MAX_TOKENS (1 # 2) ;;
  cs <- lift (parse_choice_proposal resp) ;;
  emit (EvProposed step_num (fst cs) (snd cs)) ;;;
  ret cs.

Definition generate_continuation (story : Story) (request : StoryRequest)
    (chosen_option : string) (step_num total_steps : nat) : M (string * string) :=
  let is_final := Nat.leb total_steps step_num in
  let system_prompt := get_storyteller_system_prompt (category request) in
  let prompt := continuation_prompt story chosen_option is_final in
  resp <- call_model prompt system_prompt CHOICE_CONTINUATION_MAX_TOKENS (4 # 5) ;;
  r <- lift (parse_continuation_response resp) ;;
  emit (EvContinuation step_num (fst r) (snd r)) ;;;
  ret r.

Inductive pick : Type :=
| Quit
| Picked (choice : string).

(** The [while True] loop around [input()]: lines are read until one is
    a quit word or a choice. *)
Fixpoint read_pick (lines : list string) : exc pick * list string :=
  match lines with
  | [] => (Raise EOFError, [])
  | line :: rest =>
      let p := Py.lower (Py.strip line) in
      if mem p ["quit"; "q"; "exit"] then (Ok Quit, rest)
      else if mem p ["1"; "2"] then (Ok (Picked p), rest)
      else read_pick rest
  end.

Definition ask_pick : M pick :=
  fun w =>
    let '(r, rest) := read_pick (stdin w) in
    (r, {| service := service w;
           requests := requests w;
           sleeps := sleeps w;
           stdin := rest;
           trace := trace w |}).

(** The Story built from [current] and one continuation. *)
Definition commit (current : Story) (continuation maybe_moral : string) : Story :=
  let new_content :=
    Py.strip (Py.rstrip (content current) +:+ Py.nl +:+ Py.nl +:+ Py.strip continuation) in
  let new_moral := Py.or_else (Py.strip maybe_moral) (moral current) in
  {| title := title current;
     content := new_content;
     moral := new_moral;
     version := version current + 1 |}.

(** The [for step in range(1, total_steps + 1)] loop, over the steps
    still to run. *)
Fixpoint choice_loop (steps : list nat) (total_steps : nat) (request : StoryRequest)
    (current : Story) : M Story :=
  match steps with
  | [] => ret current
  | step :: rest =>
      cs <- propose_next_choices current request step total_steps ;;
      p <- ask_pick ;;
      match p with
      | Quit => ret current
      | Picked choice =>
          let chosen := if String.eqb choice "1" then fst cs else snd cs in
          r <- generate_continuation current request chosen step total_steps ;;
          let current' := commit current (fst r) (snd r) in
          emit (EvCommitted step current') ;;;
          if Py.truthy (Py.strip (snd r)) then ret current'
          else choice_loop rest total_steps request current'
      end
  end.

Definition run_interactive_choice_mode (story : Story) (request : StoryRequest)
    (total_steps : nat) : M Story :=
  choice_loop (seq 1 total_steps) total_steps request story.

(** ** Notions used in the statements

    Readings of the trace, the runs of the two loops as relations on
    traces, and the predicates on text that the theorems about the
    extractors are stated with. *)

Fixpoint defines (n : nat) (r : Re.regex) : bool :=
  match r with
  | Re.RGroup m r' => Nat.eqb m n || defines n r'
  | Re.RCat r1 r2 => defines n r1 || defines n r2
  | Re.RAlt r1 r2 => defines n r1 && defines n r2
  | Re.RAhead r' => defines n r'
  | _ => false
  end.

Definition has_group (n : nat) (cs : Re.captures) : Prop :=
  exists g, Re.cap_lookup n cs = Some g.

Definition scores_in_range (fb : JudgeFeedback) : Prop :=
  (1 <= overall_score fb <= 10)%Z /\
  (1 <= age_appropriateness fb <= 10)%Z /\
  (1 <= engagement fb <= 10)%Z /\
  (1 <= moral_clarity fb <= 10)%Z /\
  (1 <= story_structure fb <= 10)%Z /\
  (1 <= language_quality fb <= 10)%Z.

(** The world after more requests and sleeps. *)
Definition advance (w : world) (reqs : list request) (naps : list Q) : world :=
  {| service := service w;
     requests := requests w ++ reqs;
     sleeps := sleeps w ++ naps;
     stdin := stdin w;
     trace := trace w |}.

Definition gateway_exhausted (e : exn) : Prop :=
  exists err, e = RuntimeError ("OpenAI API call failed after 3 attempts: " +:+ err).

(** The runs of the judging loop, read off the trace: the events a run
    over [iterations] adds, and what it returns. *)
Inductive loop_run : list nat -> Story -> list JudgeFeedback -> list event ->
                     exc (Story * list JudgeFeedback) -> Prop :=
| run_over s h :
    loop_run [] s h [] (Ok (s, h))
| run_judge_raises i rest s h e :
    gateway_exhausted e ->
    loop_run (i :: rest) s h [] (Raise e)
| run_threshold i rest s h fb :
    (JUDGE_THRESHOLD <= overall_score fb)%Z ->
    loop_run (i :: rest) s h [EvJudged (Z.of_nat i + 1) s fb] (Ok (s, h ++ [fb]))
| run_refine_raises i rest s h fb e :
    (overall_score fb < JUDGE_THRESHOLD)%Z ->
    i < MAX_REFINEMENT_ITERATIONS - 1 ->
    gateway_exhausted e ->
    loop_run (i :: rest) s h [EvJudged (Z.of_nat i + 1) s fb] (Raise e)
| run_refine i rest s h fb s' tr r :
    (overall_score fb < JUDGE_THRESHOLD)%Z ->
    i < MAX_REFINEMENT_ITERATIONS - 1 ->
    version s' = (version s + 1)%Z ->
    loop_run rest s' (h ++ [fb]) tr r ->
    loop_run (i :: rest) s h (EvJudged (Z.of_nat i + 1) s fb :: EvRefined s' :: tr) r
| run_keep i rest s h fb tr r :
    (overall_score fb < JUDGE_THRESHOLD)%Z ->
    MAX_REFINEMENT_ITERATIONS - 1 <= i ->
    loop_run rest s (h ++ [fb]) tr r ->
    loop_run (i :: rest) s h (EvJudged (Z.of_nat i + 1) s fb :: tr) r.

(** Reading a trace. *)
Definition stories_in (tr : list event) : list Story :=
  flat_map (fun e => match e with
                     | EvDraft s => [s]
                     | EvRefined s => [s]
                     | _ => []
                     end) tr.

Definition refined_in (tr : list event) : list Story :=
  flat_map (fun e => match e with
                     | EvRefined s => [s]
                     | _ => []
                     end) tr.

Definition judged_in (tr : list event) : list (Z * Story * JudgeFeedback) :=
  flat_map (fun e => match e with
                     | EvJudged n s fb => [(n, s, fb)]
                     | _ => []
                     end) tr.

Definition round_of (j : Z * Story * JudgeFeedback) : Z := fst (fst j).
Definition feedback_of (j : Z * Story * JudgeFeedback) : JudgeFeedback := snd j.

(** Rounds 1, 2, ..., n. *)
Definition rounds (n : nat) : list Z := map (fun i => (Z.of_nat i + 1)%Z) (seq 0 n).

(** The runs of the choice loop, read off the trace. *)
Inductive choice_run : list nat -> Story -> list event -> exc Story -> Prop :=
| choice_over cur :
    choice_run [] cur [] (Ok cur)
| choice_propose_raises step rest cur e :
    gateway_exhausted e ->
    choice_run (step :: rest) cur [] (Raise e)
| choice_quit step rest cur c1 c2 :
    choice_run (step :: rest) cur [EvProposed step c1 c2] (Ok cur)
| choice_eof step rest cur c1 c2 :
    choice_run (step :: rest) cur [EvProposed step c1 c2] (Raise EOFError)
| choice_continue_raises step rest cur c1 c2 e :
    gateway_exhausted e ->
    choice_run (step :: rest) cur [EvProposed step c1 c2] (Raise e)
| choice_closed step rest cur c1 c2 c m :
    Py.strip c = c -> Py.strip m = m -> m <> "" ->
    choice_run (step :: rest) cur
      [EvProposed step c1 c2; EvContinuation step c m; EvCommitted step (commit cur c m)]
      (Ok (commit cur c m))
| choice_next step rest cur c1 c2 c tr r :
    Py.strip c = c ->
    choice_run rest (commit cur c "") tr r ->
    choice_run (step :: rest) cur
      (EvProposed step c1 c2 :: EvContinuation step c ""
         :: EvCommitted step (commit cur c "") :: tr)
      r.

Definition committed_in (tr : list event) : list (nat * Story) :=
  flat_map (fun e => match e with
                     | EvCommitted step s => [(step, s)]
                     | _ => []
                     end) tr.

Definition continuations_in (tr : list event) : list (nat * string * string) :=
  flat_map (fun e => match e with
                     | EvContinuation step c m => [(step, c, m)]
                     | _ => []
                     end) tr.

(** The Stories obtained by committing the continuations one after the
    other, starting from [cur]. *)
Fixpoint commits (cur : Story) (ks : list (nat * string * string)) : list (nat * Story) :=
  match ks with
  | [] => []
  | (step, c, m) :: ks' => (step, commit cur c m) :: commits (commit cur c m) ks'
  end.

(** Sample inputs. *)
Definition sample_story : Story :=
  {| title := "The Sleepy Owl";
     content := "Once upon a time an owl yawned.";
     moral := "";
     version := 1 |}.

Definition sample_request : StoryRequest :=
  {| raw_input := "a sleepy owl";
     category := BEDTIME;
     characters := ["Olive the owl"];
     themes := [];
     setting := "a quiet forest";
     tone := "calming" |}.

Definition sample_choices : string :=
  "CHOICE_1: Follow the fireflies." +:+ Py.nl +:+ "CHOICE_2: Visit the pond.".

(** A service whose [n]-th reply is the [n]-th text of [replies], and
    which fails afterwards. *)
Definition scripted (replies : list string) (lines : list string) : world :=
  {| service := fun n => match nth_error replies n with
                         | Some text => Replied (Some text)
                         | None => Failed "connection refused"
                         end;
     requests := [];
     sleeps := [];
     stdin := lines;
     trace := [] |}.


(** One step is taken and the service returns no text for it. *)
Definition silent_world : world :=
  {| service := fun n => match n with
                         | O => Replied (Some sample_choices)
                         | _ => Replied None
                         end;
     requests := [];
     sleeps := [];
     stdin := ["1"];
     trace := [] |}.

(** What one commit does to a Story, for a continuation [c] and a moral
    [m] as the extractor returns them. *)
Definition commit_law (c m : string) : Prop :=
  forall cur : Story,
    let s' := commit cur c m in
    title s' = title cur /\
    version s' = (version cur + 1)%Z /\
    moral s' = (if Py.truthy m then m else moral cur) /\
    content s' = Py.strip (Py.rstrip (content cur) +:+ Py.nl +:+ Py.nl +:+ c) /\
    (Py.strip (content cur) = content cur -> content cur <> "" -> c <> "" ->
     content s' = content cur +:+ Py.nl +:+ Py.nl +:+ c).

(** [lit] occurs in [s], compared as the flags say. *)
Fixpoint occurs (fl : Re.flags) (lit s : string) : bool :=
  is_some (Re.eat fl lit s) ||
  match s with
  | "" => false
  | String _ s' => occurs fl lit s'
  end.

(** Every character of [s] satisfies [p]. *)
Fixpoint all_chars (p : ascii -> bool) (s : string) : bool :=
  match s with
  | "" => true
  | String c s' => p c && all_chars p s'
  end.

Definition starts_with (p : ascii -> bool) (s : string) : bool :=
  match s with
  | "" => false
  | String c _ => p c
  end.

(** No character of [lit] matches [c]. *)
Definition foreign (fl : Re.flags) (lit : string) (c : ascii) : bool :=
  all_chars (fun d => negb (Re.atom_matches fl (Re.AChar d) c)) lit.

(** [lit] matches at no position of [x] in the text [x +:+ y]. *)
Definition absent_before (fl : Re.flags) (lit x y : string) : Prop :=
  forall a c b, x = a +:+ String c b -> Re.eat fl lit (String c b +:+ y) = None.

(** A pattern that can only match where [lit] does. *)
Definition guarded_by (fl : Re.flags) (r : Re.regex) (lit : string) : Prop :=
  forall pos s, Re.eat fl lit s = None -> Re.match_at fl r pos s = None.

Definition visible (c : ascii) : bool := negb (Py.isspace c).
Definition not_lf (c : ascii) : bool := negb (Ascii.eqb c Py.LF).

(** The last character of [s] satisfies [p]. *)
Fixpoint last_char (p : ascii -> bool) (s : string) : bool :=
  match s with
  | "" => false
  | String c "" => p c
  | String _ s' => last_char p s'
  end.

(** What [\s*:?\s*] takes between a label and its value: white space,
    with at most one colon in it. *)
Definition is_separator (sep : string) : bool :=
  match Py.lstrip sep with
  | "" => true
  | String c r => Ascii.eqb c ":" && all_chars Py.isspace r
  end.

Definition is_colon (c : ascii) : bool := Ascii.eqb c ":".

(** No proper end of [lit] matches at the start of [y]: a match of
    [lit] cannot begin before [y] and run into it. *)
Fixpoint borderless (fl : Re.flags) (lit y : string) : bool :=
  match lit with
  | "" => true
  | String _ lit' =>
      match lit' with
      | "" => true
      | _ => negb (is_some (Re.eat fl lit' y)) && borderless fl lit' y
      end
  end.

(** The separator and the value of a score line: [\s*:?\s*(\d+)]. *)
Definition score_tail : Re.regex :=
  Re.cat [Re.star Re.ws; Re.opt Re.colon; Re.star Re.ws; Re.RGroup 1 (Re.plus [Re.ADigit])].

(** [r] matches the label [canon], written in any letter case, at the
    head of the text, as its first choice. *)
Definition heads (r : Re.regex) (canon : string) : Prop :=
  forall lab pos s cs k res,
    Py.lower lab = Py.lower canon ->
    k (pos + String.length canon) s cs = Some res ->
    Re.run Re.I r pos (lab +:+ s) cs k = Some res.

Definition two_words (w1 w2 title_form : string) : Re.regex :=
  Re.RAlt (Re.cat [Re.RStr w1; Re.opt [Re.AChar "_"; Re.ASpace]; Re.RStr w2])
          (Re.RStr title_form).

(** The six scores of a judge response. *)
Inductive score_label : Type :=
| Overall | Age | Engagement | MoralClarity | StoryStructure | LanguageQuality.

Definition score_pattern (l : score_label) : Re.regex :=
  match l with
  | Overall => Pat.overall
  | Age => Pat.age
  | Engagement => Pat.engagement
  | MoralClarity => Pat.moral_clarity
  | StoryStructure => Pat.story_structure
  | LanguageQuality => Pat.language_quality
  end.

(** The label as the judge is asked to write it. *)
Definition score_text (l : score_label) : string :=
  match l with
  | Overall => "OVERALL_SCORE"
  | Age => "AGE_APPROPRIATENESS"
  | Engagement => "ENGAGEMENT"
  | MoralClarity => "MORAL_CLARITY"
  | StoryStructure => "STORY_STRUCTURE"
  | LanguageQuality => "LANGUAGE_QUALITY"
  end.

(** The first word of the label. *)
Definition score_keyword (l : score_label) : string :=
  match l with
  | Overall => "OVERALL"
  | Age => "AGE"
  | Engagement => "ENGAGEMENT"
  | MoralClarity => "MORAL"
  | StoryStructure => "STORY"
  | LanguageQuality => "LANGUAGE"
  end.

Definition score_field (l : score_label) (fb : JudgeFeedback) : Z :=
  match l with
  | Overall => overall_score fb
  | Age => age_appropriateness fb
  | Engagement => engagement fb
  | MoralClarity => moral_clarity fb
  | StoryStructure => story_structure fb
  | LanguageQuality => language_quality fb
  end.

Definition title_body : Re.regex :=
  Re.RCat (Re.RGroup 1 (Re.lazy_star Re.dot))
          (Re.RAhead (Re.RAlt (Re.RCls [Re.AChar Py.LF]) Re.REos)).

Definition moral_body : Re.regex :=
  Re.RCat (Re.RGroup 1 (Re.lazy_star Re.dot)) Re.REos.

Definition story_body : Re.regex :=
  Re.RCat (Re.RGroup 1 (Re.lazy_star Re.any))
          (Re.RAhead (Re.RAlt Pat.moral_marker Re.REos)).

(** A Story that survives the trip through the formatter and the
    extractor: the title is one line, not empty, without outer white
    space and without the words STORY and MORAL in any case; the content
    is not empty, has no outer white space, does not mention MORAL and
    does not start with STORY. *)
Definition plain_story (s : Story) : bool :=
  String.eqb (Py.strip (title s)) (title s) && Py.truthy (title s)
  && all_chars not_lf (title s)
  && negb (occurs Re.I "STORY" (title s)) && negb (occurs Re.I "MORAL" (title s))
  && String.eqb (Py.strip (content s)) (content s) && Py.truthy (content s)
  && negb (occurs Re.I "MORAL" (content s))
  && negb (is_some (Re.eat Re.I "STORY" (content s))).


(** A judge response in the requested layout, with the six values
    given as text. *)
Definition judge_text (v1 v2 v3 v4 v5 v6 : string) : string :=
  "OVERALL_SCORE: " +:+ v1 +:+ Py.nl +:+
  "AGE_APPROPRIATENESS: " +:+ v2 +:+ Py.nl +:+
  "ENGAGEMENT: " +:+ v3 +:+ Py.nl +:+
  "MORAL_CLARITY: " +:+ v4 +:+ Py.nl +:+
  "STORY_STRUCTURE: " +:+ v5 +:+ Py.nl +:+
  "LANGUAGE_QUALITY: " +:+ v6 +:+ Py.nl +:+
  "FEEDBACK: A gentle tale." +:+ Py.nl +:+
  "SUGGESTIONS:" +:+ Py.nl +:+ "- Add a lullaby." +:+ Py.nl.

(** ** The request analyzer and the calls around the loops *)

Definition ANALYZER_MAX_TOKENS : Z := 500.

Definition safe_split_csv (text : string) : list string :=
  if Py.truthy text
  then map Py.strip (filter (fun x => Py.truthy (Py.strip x)) (Py.split "," text))
  else [].

Definition ANALYZER_SYSTEM_PROMPT : string :=
  "You are a story request analyzer for a children's bedtime story generator (ages 5-10).
Analyze the user's request and extract structured information.

Respond ONLY in this exact format (one per line):
CATEGORY: [adventure|fantasy|animal|friendship|bedtime|educational|funny]
CHARACTERS: [comma-separated list of characters mentioned or suggested]
THEMES: [comma-separated list of themes like courage, friendship, kindness, curiosity]
SETTING: [where the story takes place]
TONE: [whimsical|exciting|calming|humorous|heartwarming|inspiring]

If information is not provided, make reasonable child-friendly suggestions.
Do not add extra lines.
".

(** [d.get(key, default)]. *)
Definition dict_get {A} (d : gmap string A) (key : string) (default : A) : A :=
  match d !! key with
  | Some v => v
  | None => default
  end.

Definition all_categories : list StoryCategory :=
  [ADVENTURE; FANTASY; ANIMAL; FRIENDSHIP; BEDTIME; EDUCATIONAL; FUNNY].

(** [{cat.value: cat for cat in StoryCategory}]. *)
Definition category_map : gmap string StoryCategory :=
  foldl (fun d cat => <[category_value cat := cat]> d) ∅ all_categories.

Definition analyze_request (user_input : string) : M StoryRequest :=
  let prompt := "Analyze this bedtime story request: " +:+ user_input in
  response <- call_model prompt ANALYZER_SYSTEM_PROMPT ANALYZER_MAX_TOKENS (1 # 5) ;;
  parsed <- lift (parse_analyzer_response response) ;;
  let category_str :=
    Py.lower (Py.strip (Py.or_else (dict_get parsed "CATEGORY" "bedtime") "bedtime")) in
  let category := dict_get category_map category_str BEDTIME in
  let characters := safe_split_csv (dict_get parsed "CHARACTERS" "") in
  let themes := safe_split_csv (dict_get parsed "THEMES" "") in
  let setting := Py.or_else (Py.strip (dict_get parsed "SETTING" "")) "a magical land" in
  let tone := normalize_tone (dict_get parsed "TONE" "") in
  ret {| raw_input := user_input;
         category := category;
         characters := characters;
         themes := themes;
         setting := setting;
         tone := tone |}.

Definition build_request_from_user_choices (user_input : string)
    (category : StoryCategory) (tone setting : string) : M StoryRequest :=
  analyzed <- analyze_request user_input ;;
  let '{| setting := analyzed_setting |} := analyzed in
  ret {| raw_input := raw_input analyzed;
         category := category;
         characters := characters analyzed;
         themes := themes analyzed;
         setting := Py.or_else (Py.strip setting) analyzed_setting;
         tone := normalize_tone tone |}.

Definition get_user_modification_prompt (user_feedback : string) (story : Story)
    (request : StoryRequest) : string :=
  "The user wants changes to this story.

REQUEST DETAILS:
- Category: " +:+ category_value (category request) +:+ "
- Tone: " +:+ tone request +:+ "
- Setting: " +:+ setting request +:+ "

CURRENT STORY:
" +:+ format_story_for_context story +:+ "

USER'S REQUEST: " +:+ Py.dquote +:+ user_feedback +:+ Py.dquote +:+ "

Please modify the story to incorporate the user's feedback while maintaining:
- Age-appropriate content (5-10 years)
- A clear story arc (opening, challenge, climax, resolution)
- A positive moral lesson
- The requested category, tone, and setting

Format your response as:
TITLE: [Title]
STORY:
[Full modified story]
MORAL: [Moral]
".

Definition apply_user_modification (story : Story) (request : StoryRequest)
    (modification : string) : M Story :=
  let prompt := get_user_modification_prompt modification story request in
  let system_prompt := get_storyteller_system_prompt (category request) in
  response <- call_model prompt system_prompt STORY_MAX_TOKENS (7 # 10) ;;
  parsed <- lift (parse_story_response response (title story)) ;;
  let '(title, content, moral) := parsed in
  ret {| title := title; content := content; moral := moral;
         version := version story + 1 |}.

(** ** Parts of [main]

    [main] is a console dialogue; the parts below are the ones that
    compute: the three menus, the request the dialogue goes on with, and
    the name of the file a story is saved to. *)

(** [try: body except Exception as e: handler(e)]. *)
Definition try_except {A} (body : M A) (handler : exn -> M A) : M A :=
  fun w =>
    match body w with
    | (Ok a, w') => (Ok a, w')
    | (Raise e, w') => handler e w'
    end.

Definition category_menu : gmap string StoryCategory :=
  list_to_map [("1", ADVENTURE); ("2", FANTASY); ("3", ANIMAL); ("4", FRIENDSHIP);
               ("5", BEDTIME); ("6", EDUCATIONAL); ("7", FUNNY)].

Definition tone_menu : gmap string string :=
  list_to_map [("1", "whimsical"); ("2", "exciting"); ("3", "calming");
               ("4", "humorous"); ("5", "heartwarming"); ("6", "inspiring")].

Definition setting_menu : gmap string string :=
  list_to_map [("1", "a magical forest with enchanted trees");
               ("2", "under the sea with colorful coral reefs");
               ("3", "a cozy village where everyone is friendly");
               ("4", "outer space among twinkling stars and friendly planets");
               ("5", "a sunny farm with happy animals");
               ("6", "a grand castle in a peaceful kingdom");
               ("7", "a lush jungle full of wonder");
               ("8", "the snowy Arctic with playful polar animals");
               ("9", "a child's bedroom where toys come to life")].

(** The request [main] generates the story from, given the idea and the
    three answers as typed (each one trimmed, as [main] does on reading):
    the menus, the [try] around [build_request_from_user_choices] and its
    [except] branch. *)
Definition main_request (user_input category_line tone_line setting_line : string)
  : M StoryRequest :=
  let category := dict_get category_menu (Py.strip category_line) BEDTIME in
  let tone := dict_get tone_menu (Py.strip tone_line) "whimsical" in
  let setting := dict_get setting_menu (Py.strip setting_line) "a magical land" in
  try_except
    (build_request_from_user_choices user_input category tone setting)
    (fun _ =>
       ret {| raw_input := user_input;
              category := category;
              characters := [];
              themes := [];
              setting := setting;
              tone := normalize_tone tone |}).





(** ** Notions used in the further statements *)

(** [w'] is [w] after at most [calls] calls of the gateway: the service
    is the same, at most three requests and two sleeps were added per
    call, and every sleep is the first or the second back-off delay. *)
Definition spent (calls : nat) (w w' : world) : Prop :=
  service w' = service w /\
  exists reqs naps,
    requests w' = requests w ++ reqs /\
    sleeps w' = sleeps w ++ naps /\
    length reqs <= 3 * calls /\
    length naps <= 2 * calls /\
    Forall (fun q => q = backoff 1 \/ q = backoff 2) naps.

(** A computation that returns and leaves the service, the requests,
    the sleeps and the console input as they are. *)
Definition quiet {A} (m : M A) : Prop :=
  forall w,
    (exists a, fst (m w) = Ok a) /\
    service (snd (m w)) = service w /\
    requests (snd (m w)) = requests w /\
    sleeps (snd (m w)) = sleeps w /\
    stdin (snd (m w)) = stdin w.

(** The service answers the next request. *)
Definition answers (w : world) : Prop :=
  exists c, service w (length (requests w)) = Replied c.

(** A computation that calls the gateway once. *)
Definition calls_once {A} (m : M A) : Prop :=
  forall w,
    spent 1 w (snd (m w)) /\
    stdin (snd (m w)) = stdin w /\
    length (requests w) < length (requests (snd (m w))) /\
    (answers w ->
     (exists a, fst (m w) = Ok a) /\
     (exists req, requests (snd (m w)) = requests w ++ [req]) /\
     sleeps (snd (m w)) = sleeps w).

(** The service answers every request. *)
Definition reliable (w : world) : Prop :=
  forall n, exists c, service w n = Replied c.

(** The gateway calls a run of the judging loop can make: one judging
    per iteration, and one refinement for every iteration but the last
    of the five. *)
Fixpoint loop_calls (iterations : list nat) : nat :=
  match iterations with
  | [] => 0
  | i :: rest =>
      (if Nat.ltb i (MAX_REFINEMENT_ITERATIONS - 1) then 2 else 1) + loop_calls rest
  end.

(** Versions [v + 1], [v + 2], ..., [v + n]. *)
Definition versions_after (v : Z) (n : nat) : list Z :=
  map (fun k => (v + Z.of_nat k)%Z) (seq 1 n).

Definition titled (s : Story) : Prop := title s <> "".

(** A service that answers every request with the same text. *)
Definition steady_world (text : string) (lines : list string) : world :=
  {| service := fun _ => Replied (Some text);
     requests := [];
     sleeps := [];
     stdin := lines;
     trace := [] |}.

(** An answer the prompt of the choice mode does not accept. *)
Definition invalid_answer (line : string) : Prop :=
  mem (Py.lower (Py.strip line)) ["quit"; "q"; "exit"; "1"; "2"] = false.

Definition quit_word (line : string) : Prop :=
  mem (Py.lower (Py.strip line)) ["quit"; "q"; "exit"] = true.

(** An item of a comma-separated list as [safe_split_csv] returns it: not
    empty, without outer white space, without a comma. *)
Definition csv_item (x : string) : Prop :=
  x <> "" /\ Py.strip x = x /\ Py.contains_char "," x = false.

(** No line boundary of [str.splitlines] in the text. *)
Definition one_line (s : string) : bool :=
  all_chars (fun c => negb (Py.islinebreak c)) s.

(** A value of an analyzer line: not empty, without outer white space,
    on one line. *)
Definition line_value (s : string) : Prop :=
  s <> "" /\ Py.strip s = s /\ one_line s = true.

(** A reply of the analyzer in the layout its instructions ask for. *)
Definition analyzer_reply (c : StoryCategory) (chs ths : list string)
    (st tn : string) : string :=
  "CATEGORY: " +:+ category_value c +:+ Py.nl +:+
  "CHARACTERS: " +:+ Py.join ", " chs +:+ Py.nl +:+
  "THEMES: " +:+ Py.join ", " ths +:+ Py.nl +:+
  "SETTING: " +:+ st +:+ Py.nl +:+
  "TONE: " +:+ tn.

(** The request the analyzer falls back on. *)
Definition default_request (user_input : string) : StoryRequest :=
  {| raw_input := user_input;
     category := BEDTIME;
     characters := [];
     themes := [];
     setting := "a magical land";
     tone := "whimsical" |}.

(** An item of a list the analyzer writes on one line. *)
Definition plain_item (x : string) : Prop := csv_item x /\ one_line x = true.


(** A reply of the storyteller in the layout its instructions ask for. *)
Definition story_reply (t c m : string) : string :=
  "TITLE: " +:+ t +:+ Py.nl +:+ "STORY:" +:+ Py.nl +:+ c +:+ Py.nl +:+ "MORAL: " +:+ m.

(** The text is empty or starts with a line feed. *)
Definition at_line_end (y : string) : bool :=
  match y with
  | "" => true
  | String c _ => Ascii.eqb c Py.LF
  end.

(** A reply of the choice proposer in the layout its instructions ask
    for. *)
Definition choice_reply (a b : string) : string :=
  "CHOICE_1: " +:+ a +:+ Py.nl +:+ "CHOICE_2: " +:+ b.

(** The number and the mark that open a numbered line: [1] or [2], then
    a closing bracket or a full stop. *)
Definition is_item_number (c : ascii) : bool := Ascii.eqb c "1" || Ascii.eqb c "2".
Definition is_item_mark (c : ascii) : bool := Ascii.eqb c ")" || Ascii.eqb c ".".

Definition numbered_line (n p : ascii) (a : string) : string :=
  String n (String p (String " " a)).

(** A reply that numbers its two options instead of labelling them. *)
Definition numbered_reply (n1 p1 : ascii) (a : string) (n2 p2 : ascii) (b : string)
  : string :=
  numbered_line n1 p1 a +:+ Py.nl +:+ numbered_line n2 p2 b.

(** A reply to a continuation request in the layout the prompt asks
    for, with the closing moral of a final step or without it. *)
Definition continuation_reply (c : string) (m : option string) : string :=
  "CONTINUATION:" +:+ Py.nl +:+ c +:+
  match m with
  | Some m => Py.nl +:+ "MORAL: " +:+ m
  | None => ""
  end.

(** The lookahead that ends the continuation: [(?=(?:MORAL)\s*:|$)]. *)
Definition continuation_end : Re.regex :=
  Re.RAhead (Re.RAlt (Re.RCat (Re.RStr "MORAL") (Re.RCat (Re.star Re.ws) (Re.RCls Re.colon)))
                     Re.REos).

(** A line of a judge reply that carries a score. *)
Definition score_line (l : score_label) (v : Z) (rest : string) : string :=
  score_text l +:+ ": " +:+ Py.str_of_int v +:+ Py.nl +:+ rest.

(** The bullet list of a judge reply. *)
Definition bullet_lines (items : list string) : string :=
  Py.join Py.nl (map (fun s => "- " +:+ s) items).

(** A reply of the judge in the layout its instructions ask for. *)
Definition judge_reply (fb : JudgeFeedback) : string :=
  score_line Overall (overall_score fb)
    (score_line Age (age_appropriateness fb)
       (score_line Engagement (engagement fb)
          (score_line MoralClarity (moral_clarity fb)
             (score_line StoryStructure (story_structure fb)
                (score_line LanguageQuality (language_quality fb)
                   ("FEEDBACK: " +:+ feedback fb +:+ Py.nl +:+
                    "SUGGESTIONS:" +:+ Py.nl +:+ bullet_lines (suggestions fb))))))).

(** A suggestion of a judge reply: not empty, without outer white space,
    without a line feed. *)
Definition bullet_item (s : string) : Prop :=
  s <> "" /\ Py.strip s = s /\ all_chars not_lf s = true.

(** The digits and the white space of U+0000..U+00FF. *)
Definition separators : list ascii :=
  filter (fun c => Py.isdigit c || Py.isspace c) (map Py.chr (seq 0 256)).

(** A keyword made of letters: it is not empty, and no digit and no
    white space matches any of its characters. *)
Definition lettered (kw : string) : bool :=
  Py.truthy kw && forallb (foreign Re.I kw) separators.

(** The group and the lookahead of the feedback pattern:
    the lazy group, then [(?=(?:SUGGESTIONS|Suggestions)\s*:|$)]. *)
Definition feedback_body : Re.regex :=
  Re.RCat (Re.RGroup 1 (Re.lazy_star Re.dot))
          (Re.RAhead (Re.RAlt Pat.suggestions_marker Re.REos)).

(** The score lines of a judge reply, followed by [tail]. *)
Definition all_score_lines (fb : JudgeFeedback) (tail : string) : string :=
  score_line Overall (overall_score fb)
    (score_line Age (age_appropriateness fb)
       (score_line Engagement (engagement fb)
          (score_line MoralClarity (moral_clarity fb)
             (score_line StoryStructure (story_structure fb)
                (score_line LanguageQuality (language_quality fb) tail))))).

(** The part of a judge reply after its score lines. *)
Definition judge_remarks (fb : JudgeFeedback) : string :=
  "FEEDBACK: " +:+ feedback fb +:+ Py.nl +:+
  "SUGGESTIONS:" +:+ Py.nl +:+ bullet_lines (suggestions fb).

(** The score lines before the line of [l]. *)
Definition scores_before (l : score_label) (fb : JudgeFeedback) : string :=
  match l with
  | Overall => ""
  | Age => score_line Overall (overall_score fb) ""
  | Engagement =>
      score_line Overall (overall_score fb) (score_line Age (age_appropriateness fb) "")
  | MoralClarity =>
      score_line Overall (overall_score fb)
        (score_line Age (age_appropriateness fb) (score_line Engagement (engagement fb) ""))
  | StoryStructure =>
      score_line Overall (overall_score fb)
        (score_line Age (age_appropriateness fb)
           (score_line Engagement (engagement fb)
              (score_line MoralClarity (moral_clarity fb) "")))
  | LanguageQuality =>
      score_line Overall (overall_score fb)
        (score_line Age (age_appropriateness fb)
           (score_line Engagement (engagement fb)
              (score_line MoralClarity (moral_clarity fb)
                 (score_line StoryStructure (story_structure fb) ""))))
  end.

(** The text after the line of [l]. *)
Definition scores_after (l : score_label) (fb : JudgeFeedback) : string :=
  match l with
  | Overall =>
      score_line Age (age_appropriateness fb)
        (score_line Engagement (engagement fb)
           (score_line MoralClarity (moral_clarity fb)
              (score_line StoryStructure (story_structure fb)
                 (score_line LanguageQuality (language_quality fb) (judge_remarks fb)))))
  | Age =>
      score_line Engagement (engagement fb)
        (score_line MoralClarity (moral_clarity fb)
           (score_line StoryStructure (story_structure fb)
              (score_line LanguageQuality (language_quality fb) (judge_remarks fb))))
  | Engagement =>
      score_line MoralClarity (moral_clarity fb)
        (score_line StoryStructure (story_structure fb)
           (score_line LanguageQuality (language_quality fb) (judge_remarks fb)))
  | MoralClarity =>
      score_line StoryStructure (story_structure fb)
        (score_line LanguageQuality (language_quality fb) (judge_remarks fb))
  | StoryStructure => score_line LanguageQuality (language_quality fb) (judge_remarks fb)
  | LanguageQuality => judge_remarks fb
  end.

(** ** Facts about strings *)

Lemma cut_of_contains sep : forall s,
  Py.contains_char sep s = true -> exists a b, Py.cut sep s = Some (a, b).
Proof.
  induction s as [|c s IH]; simpl; intros H; [discriminate|].
  destruct (Ascii.eqb c sep); [eauto|].
  simpl in H. destruct (IH H) as (a & b & E). rewrite E. eauto.
Qed.

Lemma unpack_split1 sep s :
  Py.contains_char sep s = true ->
  exists a b, Py.unpack2 (Py.split1 sep s) = Ok (a, b).
Proof.
  intros H. destruct (cut_of_contains sep s H) as (a & b & E).
  unfold Py.split1. rewrite E. simpl. eauto.
Qed.

Lemma index_total (l : list string) i :
  i < length l -> exists x, Py.index l i = Ok x.
Proof.
  intros H. unfold Py.index. destruct (nth_error l i) eqn:E; [eauto|].
  apply nth_error_None in E. lia.
Qed.

Lemma rstrip_cons c s :
  Py.rstrip (String c s) =
  match Py.rstrip s with
  | "" => if Py.isspace c then "" else String c ""
  | r => String c r
  end.
Proof. reflexivity. Qed.

Lemma rstrip_idem : forall s, Py.rstrip (Py.rstrip s) = Py.rstrip s.
Proof.
  induction s as [|c s IH]; [reflexivity|].
  rewrite rstrip_cons. destruct (Py.rstrip s) as [|d r] eqn:E.
  - destruct (Py.isspace c) eqn:Sp; [reflexivity|].
    rewrite rstrip_cons. cbn. rewrite Sp. reflexivity.
  - rewrite rstrip_cons, IH. reflexivity.
Qed.

Lemma rstrip_head c s :
  Py.isspace c = false -> exists r, Py.rstrip (String c s) = String c r.
Proof.
  intros Sp. rewrite rstrip_cons. destruct (Py.rstrip s); [rewrite Sp|]; eauto.
Qed.

Lemma lstrip_head : forall s,
  Py.lstrip s = "" \/ exists c r, Py.lstrip s = String c r /\ Py.isspace c = false.
Proof.
  induction s as [|c s IH]; [auto|].
  cbn. destruct (Py.isspace c) eqn:Sp; [exact IH|]. right. eauto.
Qed.

Lemma lstrip_fixed c s : Py.isspace c = false -> Py.lstrip (String c s) = String c s.
Proof. intros Sp. cbn. rewrite Sp. reflexivity. Qed.

Lemma strip_idem s : Py.strip (Py.strip s) = Py.strip s.
Proof.
  unfold Py.strip. destruct (lstrip_head s) as [E|(c & r & E & Sp)]; rewrite E.
  - reflexivity.
  - destruct (rstrip_head c r Sp) as (r' & E'). rewrite E'.
    rewrite (lstrip_fixed c r' Sp), <- E'. apply rstrip_idem.
Qed.

Lemma append_nil (b : string) : "" +:+ b = b.
Proof. reflexivity. Qed.

Lemma append_cons c (a b : string) : String c a +:+ b = String c (a +:+ b).
Proof. reflexivity. Qed.

Lemma append_empty_r (s : string) : s +:+ "" = s.
Proof.
  induction s as [|c s IH]; [reflexivity|]. rewrite append_cons, IH. reflexivity.
Qed.

Lemma append_assoc (a b c : string) : (a +:+ b) +:+ c = a +:+ (b +:+ c).
Proof.
  induction a as [|x a IH]; [reflexivity|]. rewrite !append_cons, IH. reflexivity.
Qed.

Lemma length_append (a b : string) :
  String.length (a +:+ b) = String.length a + String.length b.
Proof.
  induction a as [|x a IH]; [reflexivity|]. rewrite append_cons. cbn. rewrite IH. reflexivity.
Qed.

Lemma rstrip_app_keep (a b : string) :
  Py.rstrip b <> "" -> Py.rstrip (a +:+ b) = a +:+ Py.rstrip b.
Proof.
  intros Hb. induction a as [|c a IH]; [reflexivity|].
  rewrite !append_cons, rstrip_cons, IH.
  destruct (a +:+ Py.rstrip b) eqn:E; [|reflexivity].
  destruct a; [rewrite append_nil in E; contradiction|discriminate].
Qed.

Lemma rstrip_app_drop (a b : string) :
  Py.rstrip b = "" -> Py.rstrip (a +:+ b) = Py.rstrip a.
Proof.
  intros Hb. induction a as [|c a IH]; [exact Hb|].
  rewrite append_cons, !rstrip_cons, IH. reflexivity.
Qed.

Lemma rstrip_length : forall s, String.length (Py.rstrip s) <= String.length s.
Proof.
  induction s as [|c s IH]; [cbn; lia|].
  rewrite rstrip_cons. destruct (Py.rstrip s); [destruct (Py.isspace c)|]; cbn in *; lia.
Qed.

Lemma lstrip_length : forall s, String.length (Py.lstrip s) <= String.length s.
Proof.
  induction s as [|c s IH]; cbn; [lia|]. destruct (Py.isspace c); cbn; lia.
Qed.

(** A string that [strip] leaves alone starts and ends with a visible
    character. *)
Lemma stripped_cons c s :
  Py.strip (String c s) = String c s ->
  Py.isspace c = false /\ Py.rstrip (String c s) = String c s.
Proof.
  unfold Py.strip. intros H. destruct (Py.isspace c) eqn:Sp.
  - exfalso. cbn [Py.lstrip] in H. rewrite Sp in H.
    pose proof (rstrip_length (Py.lstrip s)) as L1.
    pose proof (lstrip_length s) as L2.
    rewrite H in L1. cbn in L1. lia.
  - split; [reflexivity|]. rewrite (lstrip_fixed c s Sp) in H. exact H.
Qed.

Lemma strip_of_rstripped c s :
  Py.isspace c = false -> Py.rstrip (String c s) = String c s ->
  Py.strip (String c s) = String c s.
Proof. intros Sp R. unfold Py.strip. rewrite lstrip_fixed; auto. Qed.

Lemma strip_paragraphs (a b : string) :
  Py.strip a = a -> a <> "" -> Py.strip b = b -> b <> "" ->
  Py.strip (a +:+ Py.nl +:+ Py.nl +:+ b) = a +:+ Py.nl +:+ Py.nl +:+ b.
Proof.
  intros Sa Na Sb Nb.
  destruct a as [|c a]; [contradiction|]. destruct b as [|d b]; [contradiction|].
  destruct (stripped_cons _ _ Sa) as (Spc & Ra).
  destruct (stripped_cons _ _ Sb) as (Spd & Rb).
  rewrite append_cons. apply strip_of_rstripped; [exact Spc|].
  change (String c (a +:+ Py.nl +:+ Py.nl +:+ String d b))
    with (String c a +:+ (Py.nl +:+ Py.nl +:+ String d b)).
  assert (Rn : Py.rstrip (Py.nl +:+ Py.nl +:+ String d b) = Py.nl +:+ Py.nl +:+ String d b).
  { change (Py.nl +:+ Py.nl +:+ String d b)
      with (String Py.LF (String Py.LF (String d b))).
    rewrite rstrip_cons, rstrip_cons, Rb. reflexivity. }
  rewrite rstrip_app_keep; rewrite Rn; [reflexivity|discriminate].
Qed.

Lemma mem_In x l : mem x l = true <-> In x l.
Proof.
  unfold mem. rewrite existsb_exists. split.
  - intros (y & Hy & E). apply String.eqb_eq in E. subst. exact Hy.
  - intros H. exists x. split; [exact H|apply String.eqb_refl].
Qed.

Lemma or_else_empty t : Py.or_else t "" = t.
Proof. destruct t; reflexivity. Qed.

Lemma all_chars_split p : forall s a c b,
  all_chars p s = true -> s = a +:+ String c b -> p c = true.
Proof.
  induction s as [|c0 s IH]; intros a c b H E.
  - destruct a; discriminate.
  - cbn in H. apply andb_true_iff in H. destruct H as (H0 & H).
    destruct a as [|a0 a].
    + rewrite append_nil in E. inversion E; subst. exact H0.
    + rewrite append_cons in E. inversion E; subst. eapply IH; eauto.
Qed.

Lemma last_char_cons p c d s : last_char p (String c (String d s)) = last_char p (String d s).
Proof. reflexivity. Qed.

Lemma last_char_app p : forall a b, b <> "" -> last_char p (a +:+ b) = last_char p b.
Proof.
  induction a as [|c a IH]; intros b N; [reflexivity|].
  rewrite append_cons. destruct (a +:+ b) as [|d r] eqn:E.
  - destruct a; [rewrite append_nil in E; contradiction|discriminate].
  - rewrite last_char_cons, <- E. apply IH. exact N.
Qed.


Lemma last_visible_lstrip : forall s,
  last_char visible s = true -> last_char visible (Py.lstrip s) = true.
Proof.
  induction s as [|c s IH]; intros H; [discriminate|].
  cbn [Py.lstrip]. destruct (Py.isspace c) eqn:Sp; [|exact H].
  destruct s as [|d s].
  - cbn in H. unfold visible in H. rewrite Sp in H. discriminate.
  - apply IH. exact H.
Qed.

Lemma last_visible_rstrip : forall s, last_char visible s = true -> Py.rstrip s = s.
Proof.
  induction s as [|c s IH]; intros H; [discriminate|].
  rewrite rstrip_cons. destruct s as [|d s].
  - cbn in H |- *. unfold visible in H. apply negb_true_iff in H. rewrite H. reflexivity.
  - rewrite IH; [reflexivity|exact H].
Qed.

Lemma last_visible_strip s : last_char visible s = true -> Py.strip s = Py.lstrip s.
Proof. intros H. unfold Py.strip. apply last_visible_rstrip, last_visible_lstrip, H. Qed.

Lemma lower_char_lf c : c <> Py.LF -> Ascii.eqb (Py.lower_char c) (Py.lower_char Py.LF) = false.
Proof.
  intros N. apply Ascii.eqb_neq. intros E. apply N. revert E.
  destruct c as [[] [] [] [] [] [] [] []]; vm_compute; congruence.
Qed.



Lemma lstrip_visible s : starts_with visible s = true -> Py.lstrip s = s.
Proof.
  destruct s as [|c s]; [discriminate|]. cbn [starts_with]. unfold visible. intros H.
  apply lstrip_fixed. apply negb_true_iff. exact H.
Qed.

Lemma starts_visible_app a b : starts_with visible a = true -> starts_with visible (a +:+ b) = true.
Proof. destruct a; [discriminate|]. rewrite append_cons. auto. Qed.

Lemma lstrip_app_space : forall a b,
  all_chars Py.isspace a = true -> Py.lstrip (a +:+ b) = Py.lstrip b.
Proof.
  induction a as [|c a IH]; intros b H; [reflexivity|].
  cbn [all_chars] in H. apply andb_true_iff in H. destruct H as (Hc & H).
  rewrite append_cons. cbn [Py.lstrip]. rewrite Hc. apply IH. exact H.
Qed.

Lemma lstrip_app_keep : forall a b c r,
  Py.lstrip a = String c r -> Py.lstrip (a +:+ b) = String c (r +:+ b).
Proof.
  induction a as [|d a IH]; intros b c r H; [discriminate|].
  rewrite append_cons. cbn [Py.lstrip] in H |- *. destruct (Py.isspace d).
  - apply IH. exact H.
  - inversion H; subst. reflexivity.
Qed.

Lemma lstrip_empty : forall a, Py.lstrip a = "" -> all_chars Py.isspace a = true.
Proof.
  induction a as [|c a IH]; intros H; [reflexivity|].
  cbn [Py.lstrip] in H. cbn [all_chars]. destruct (Py.isspace c); [auto|discriminate].
Qed.

Lemma digit_not_space c : Py.isdigit c = true -> Py.isspace c = false.
Proof.
  destruct c as [[] [] [] [] [] [] [] []]; vm_compute; congruence.
Qed.

Lemma digits_start_visible d :
  all_chars Py.isdigit d = true -> d <> "" ->
  starts_with visible d = true /\ starts_with is_colon d = false /\
  starts_with Py.isdigit d = true.
Proof.
  destruct d as [|c d]; [contradiction|]. cbn. intros D _.
  apply andb_true_iff in D. destruct D as (D & _).
  unfold visible. rewrite (digit_not_space c D). repeat split; [|exact D].
  revert D. destruct c as [[] [] [] [] [] [] [] []]; vm_compute; congruence.
Qed.

Lemma stripped_starts_visible s :
  Py.strip s = s -> s <> "" -> starts_with visible s = true /\ last_char visible s = true.
Proof.
  intros S N. destruct s as [|c s]; [contradiction|].
  destruct (stripped_cons _ _ S) as (Sp & R). split.
  - cbn. unfold visible. rewrite Sp. reflexivity.
  - clear S Sp N. revert c R. induction s as [|d s IH]; intros c R.
    + rewrite rstrip_cons in R. cbn in R |- *. unfold visible.
      destruct (Py.isspace c); [discriminate|reflexivity].
    + rewrite last_char_cons. apply IH.
      rewrite rstrip_cons in R. destruct (Py.rstrip (String d s)) eqn:E.
      * destruct (Py.isspace c); discriminate.
      * inversion R. congruence.
Qed.

Lemma truthy_nonempty s : Py.truthy s = true -> s <> "".
Proof. destruct s; [discriminate|]. intros _. discriminate. Qed.

Lemma lstrip_idem s : Py.lstrip (Py.lstrip s) = Py.lstrip s.
Proof.
  destruct (lstrip_head s) as [E|(c & r & E & Sp)]; rewrite E; [reflexivity|].
  apply lstrip_fixed. exact Sp.
Qed.

Lemma strip_line x : Py.strip x = x -> x <> "" -> Py.strip (x +:+ Py.nl) = x.
Proof.
  intros S N. destruct (stripped_starts_visible x S N) as (V & L).
  unfold Py.strip. rewrite (lstrip_visible _ (starts_visible_app x Py.nl V)).
  rewrite rstrip_app_drop; [|reflexivity]. apply last_visible_rstrip. exact L.
Qed.

(** ** Facts about the matcher

    These hold for every setting of the flags. *)

Section Matcher.

Variable fl : Re.flags.

Lemma first_of_some {A} (a b : option A) x :
  Re.first_of a b = Some x -> a = Some x \/ b = Some x.
Proof. destruct a; simpl; auto. Qed.

Lemma rep_reaches greedy cl k cs res :
  forall s lo hi pos,
    Re.rep fl greedy lo hi cl pos s cs k = Some res ->
    exists p' s', k p' s' cs = Some res.
Proof.
  induction s as [|c s IH]; intros lo hi pos H; simpl in H.
  - destruct greedy; simpl in H; destruct (Nat.eqb lo 0); simpl in H;
      try discriminate; eauto.
    destruct (k pos "" cs) eqn:E; simpl in H; [|discriminate].
    inversion H; subst; eauto.
  - assert (Hstop : (if Nat.eqb lo 0 then k pos (String c s) cs else None) = Some res ->
                    exists p' s', k p' s' cs = Some res).
    { destruct (Nat.eqb lo 0); [eauto | discriminate]. }
    assert (Hmore : (if Re.may_repeat hi && Re.in_class fl cl c
                     then Re.rep fl greedy (Nat.pred lo) (Re.dec_hi hi) cl (S pos) s cs k
                     else None) = Some res ->
                    exists p' s', k p' s' cs = Some res).
    { destruct (Re.may_repeat hi && Re.in_class fl cl c); [eauto | discriminate]. }
    destruct greedy; apply first_of_some in H; destruct H; auto.
Qed.

Lemma has_group_cons n m g cs :
  has_group n cs -> has_group n ((m, g) :: cs).
Proof.
  intros [x Hx]. unfold has_group. simpl.
  destruct (Nat.eqb m n); eauto.
Qed.

Lemma has_group_here n g cs : has_group n ((n, g) :: cs).
Proof. unfold has_group. simpl. rewrite Nat.eqb_refl. eauto. Qed.

Lemma run_reaches r :
  forall pos s cs k res,
    Re.run fl r pos s cs k = Some res ->
    exists p' s' cs',
      k p' s' cs' = Some res /\
      (forall n, has_group n cs \/ defines n r = true -> has_group n cs').
Proof.
  induction r; intros pos s cs k res H; simpl in H.
  - destruct (Re.eat fl lit s); [|discriminate].
    do 3 eexists; split; [eassumption|]. intros n [Hn|Hn]; [auto|discriminate].
  - destruct s; [discriminate|]. destruct (Re.in_class fl cl a); [|discriminate].
    do 3 eexists; split; [eassumption|]. intros n [Hn|Hn]; [auto|discriminate].
  - apply rep_reaches in H. destruct H as (p' & s' & H).
    do 3 eexists; split; [eassumption|]. intros n [Hn|Hn]; [auto|discriminate].
  - apply IHr1 in H. destruct H as (p1 & s1 & cs1 & H & G1).
    apply IHr2 in H. destruct H as (p2 & s2 & cs2 & H & G2).
    do 3 eexists; split; [eassumption|].
    intros n [Hn|Hn].
    + apply G2. left. apply G1. auto.
    + simpl in Hn. apply orb_true_iff in Hn. destruct Hn as [Hn|Hn].
      * apply G2. left. apply G1. auto.
      * apply G2. auto.
  - apply first_of_some in H. destruct H as [H|H].
    + apply IHr1 in H. destruct H as (p1 & s1 & cs1 & H & G1).
      do 3 eexists; split; [eassumption|].
      intros n [Hn|Hn]; apply G1; auto.
      simpl in Hn. apply andb_true_iff in Hn. tauto.
    + apply IHr2 in H. destruct H as (p1 & s1 & cs1 & H & G1).
      do 3 eexists; split; [eassumption|].
      intros n [Hn|Hn]; apply G1; auto.
      simpl in Hn. apply andb_true_iff in Hn. tauto.
  - apply IHr in H. destruct H as (p1 & s1 & cs1 & H & G1).
    do 3 eexists; split; [eassumption|].
    intros m [Hm|Hm].
    + apply has_group_cons. apply G1. auto.
    + simpl in Hm. apply orb_true_iff in Hm. destruct Hm as [Hm|Hm].
      * apply Nat.eqb_eq in Hm. subst. apply has_group_here.
      * apply has_group_cons. apply G1. auto.
  - destruct (Re.run fl r pos s cs (fun p' s' cs' => Some (p', s', cs'))) as [[[p1 s1] cs1]|] eqn:E;
      [|discriminate].
    apply IHr in E. destruct E as (p2 & s2 & cs2 & E & G).
    inversion E; subst.
    do 3 eexists; split; [eassumption|].
    intros n [Hn|Hn]; apply G; auto.
  - destruct (Nat.eqb pos 0); [|discriminate].
    do 3 eexists; split; [eassumption|]. intros n [Hn|Hn]; [auto|discriminate].
  - destruct (Re.at_eos s); [|discriminate].
    do 3 eexists; split; [eassumption|]. intros n [Hn|Hn]; [auto|discriminate].
Qed.

Lemma match_at_group r n pos s m :
  defines n r = true ->
  Re.match_at fl r pos s = Some m ->
  has_group n (Re.m_caps m).
Proof.
  intros D H. unfold Re.match_at in H.
  destruct (Re.run fl r pos s [] Re.accept) as [[[e s'] cs]|] eqn:E; [|discriminate].
  inversion H; subst; simpl.
  apply run_reaches in E. destruct E as (p' & s'' & cs' & E & G).
  unfold Re.accept in E. inversion E; subst. apply G. auto.
Qed.

Lemma search_from_group r n :
  defines n r = true ->
  forall s pos m, Re.search_from fl r pos s = Some m -> has_group n (Re.m_caps m).
Proof.
  intros D. induction s as [|c s IH]; intros pos m H; simpl in H.
  - destruct (Re.match_at fl r pos "") eqn:E; [|discriminate].
    inversion H; subst. eapply match_at_group; eauto.
  - destruct (Re.match_at fl r pos (String c s)) eqn:E.
    + inversion H; subst. eapply match_at_group; eauto.
    + eauto.
Qed.

Lemma group1_stripped_ok r s m :
  defines 1 r = true ->
  Re.search fl r s = Some m ->
  exists g, Re.group m 1 = Ok g /\ group1_stripped m = Ok (Py.strip g).
Proof.
  intros D H. apply (search_from_group r 1 D) in H. destruct H as [g Hg].
  exists g. unfold group1_stripped, Re.group. rewrite Hg. auto.
Qed.

Lemma eat_app (a b s : string) :
  Re.eat fl (a +:+ b) s =
  match Re.eat fl a s with
  | Some s' => Re.eat fl b s'
  | None => None
  end.
Proof.
  revert s. induction a as [|d a IH]; intros s; [reflexivity|].
  rewrite append_cons. cbn [Re.eat]. destruct s as [|c s]; [reflexivity|].
  destruct (Re.atom_matches fl (Re.AChar d) c); [apply IH|reflexivity].
Qed.

(** A literal that matches across the end of [x] matches the character
    that follows [x]. *)
Lemma eat_before_foreign sep y : forall lit x s',
  foreign fl lit sep = true ->
  Re.eat fl lit (x +:+ String sep y) = Some s' ->
  exists s'', Re.eat fl lit x = Some s''.
Proof.
  induction lit as [|d lit IH]; intros x s' F H; [cbn; eauto|].
  cbn [foreign all_chars] in F. apply andb_true_iff in F. destruct F as (Fd & F).
  destruct x as [|c x].
  - rewrite append_nil in H. cbn [Re.eat] in H.
    apply negb_true_iff in Fd. rewrite Fd in H. discriminate.
  - rewrite append_cons in H. cbn [Re.eat] in H |- *.
    destruct (Re.atom_matches fl (Re.AChar d) c); [eauto|discriminate].
Qed.

Lemma absent_before_nil lit y : absent_before fl lit "" y.
Proof. intros a c b H. destruct a; discriminate. Qed.

Lemma absent_before_cons lit c x y :
  Re.eat fl lit (String c (x +:+ y)) = None ->
  absent_before fl lit x y ->
  absent_before fl lit (String c x) y.
Proof.
  intros H0 H a c' b E. destruct a as [|a0 a].
  - rewrite append_nil in E. inversion E; subst. rewrite append_cons. exact H0.
  - rewrite append_cons in E. inversion E; subst. eapply H. reflexivity.
Qed.

Lemma absent_before_app lit x1 x2 y :
  absent_before fl lit x1 (x2 +:+ y) ->
  absent_before fl lit x2 y ->
  absent_before fl lit (x1 +:+ x2) y.
Proof.
  revert x2 y. induction x1 as [|c x1 IH]; intros x2 y H1 H2.
  - rewrite append_nil. exact H2.
  - rewrite append_cons. apply absent_before_cons.
    + specialize (H1 "" c x1 eq_refl). rewrite append_cons in H1.
      rewrite append_assoc. exact H1.
    + apply IH; [|exact H2].
      intros a c' b E. apply (H1 (String c a) c' b). rewrite append_cons, E. reflexivity.
Qed.

Lemma occurs_false_eat lit : forall x a c b,
  occurs fl lit x = false -> x = a +:+ String c b ->
  Re.eat fl lit (String c b) = None.
Proof.
  induction x as [|c0 x IH]; intros a c b O E.
  - destruct a; discriminate.
  - cbn [occurs] in O. apply orb_false_iff in O. destruct O as (O1 & O2).
    destruct a as [|a0 a].
    + rewrite append_nil in E. inversion E; subst.
      destruct (Re.eat fl lit (String c b)); [discriminate|reflexivity].
    + rewrite append_cons in E. inversion E; subst. eapply IH; eauto.
Qed.

(** A literal absent from [x] starts nowhere in [x] when [x] is followed
    by a character foreign to it. *)
Lemma absent_before_foreign lit x sep y :
  occurs fl lit x = false -> foreign fl lit sep = true ->
  absent_before fl lit x (String sep y).
Proof.
  intros O F a c b E.
  destruct (Re.eat fl lit (String c b +:+ String sep y)) eqn:H; [|reflexivity].
  apply eat_before_foreign in H; [|exact F]. destruct H as (s'' & H).
  rewrite (occurs_false_eat lit x a c b O E) in H. discriminate.
Qed.

Lemma search_from_skip r lit y : forall x pos,
  guarded_by fl r lit -> absent_before fl lit x y ->
  Re.search_from fl r pos (x +:+ y) = Re.search_from fl r (pos + String.length x) y.
Proof.
  induction x as [|c x IH]; intros pos G A.
  - rewrite append_nil. cbn. rewrite Nat.add_0_r. reflexivity.
  - rewrite append_cons. cbn [Re.search_from].
    rewrite (G pos (String c (x +:+ y))).
    + rewrite IH; [|exact G|].
      * cbn [String.length]. f_equal. lia.
      * intros a c' b E. apply (A (String c a) c' b). rewrite append_cons, E. reflexivity.
    + specialize (A "" c x eq_refl). rewrite append_cons in A. exact A.
Qed.

Lemma search_from_here r pos s m :
  Re.match_at fl r pos s = Some m -> Re.search_from fl r pos s = Some m.
Proof. intros H. destruct s; cbn [Re.search_from]; rewrite H; reflexivity. Qed.

Lemma consumed_app (x y : string) : Re.consumed (x +:+ y) y = x.
Proof.
  unfold Re.consumed. rewrite length_append.
  replace (String.length x + String.length y - String.length y) with (String.length x) by lia.
  induction x as [|c x IH]; [destruct y; reflexivity|].
  rewrite append_cons. cbn. rewrite IH. reflexivity.
Qed.

Lemma consumed_all (x : string) : Re.consumed x "" = x.
Proof. rewrite <- (append_empty_r x) at 1. apply consumed_app. Qed.

Lemma rep_stop_nil greedy hi cl pos cs k :
  Re.rep fl greedy 0 hi cl pos "" cs k = k pos "" cs.
Proof. destruct greedy; cbn; [reflexivity|destruct (k pos "" cs); reflexivity]. Qed.

(** A quantifier that owes nothing stops at a character outside its
    class. *)
Lemma rep_stop greedy hi cl pos c s cs k :
  Re.in_class fl cl c = false ->
  Re.rep fl greedy 0 hi cl pos (String c s) cs k = k pos (String c s) cs.
Proof.
  intros H. cbn [Re.rep]. rewrite H, andb_false_r. cbn [Nat.eqb].
  destruct greedy; cbn; [reflexivity|destruct (k pos (String c s) cs); reflexivity].
Qed.

(** A greedy [\s*] takes all the leading white space when the rest of
    the pattern matches after it. *)
Lemma rep_ws_all cs k res : forall s pos,
  k (pos + (String.length s - String.length (Py.lstrip s))) (Py.lstrip s) cs = Some res ->
  Re.rep fl true 0 None Re.ws pos s cs k = Some res.
Proof.
  induction s as [|c s IH]; intros pos H.
  - cbn in H |- *. rewrite Nat.add_0_r in H. exact H.
  - cbn [Py.lstrip] in H. cbn [Re.rep Re.may_repeat andb Re.in_class Re.ws existsb
                                Re.atom_matches Re.dec_hi Nat.pred Nat.eqb].
    rewrite orb_false_r.
    destruct (Py.isspace c) eqn:Sp.
    + rewrite (IH (S pos)); [reflexivity|].
      pose proof (lstrip_length s) as L. cbn [String.length] in H.
      replace (S pos + (String.length s - String.length (Py.lstrip s)))
        with (pos + (S (String.length s) - String.length (Py.lstrip s))) by lia.
      exact H.
    + cbn [Re.first_of]. cbn [String.length] in H.
      rewrite Nat.sub_diag, Nat.add_0_r in H. exact H.
Qed.

(** A lazy quantifier runs over [x] when every character of [x] is in
    its class and the rest of the pattern fails at every position of
    [x]. *)
Lemma rep_lazy_over cl cs k y : forall x pos,
  (forall a c b, x = a +:+ String c b ->
     Re.in_class fl cl c = true /\
     k (pos + String.length a) (String c b +:+ y) cs = None) ->
  Re.rep fl false 0 None cl pos (x +:+ y) cs k =
  Re.rep fl false 0 None cl (pos + String.length x) y cs k.
Proof.
  induction x as [|c x IH]; intros pos H.
  - rewrite append_nil. cbn. rewrite Nat.add_0_r. reflexivity.
  - destruct (H "" c x eq_refl) as (Hc & Hk).
    cbn [String.length] in Hk. rewrite Nat.add_0_r in Hk.
    rewrite append_cons in Hk |- *.
    cbn [Re.rep Re.may_repeat andb Nat.eqb Re.dec_hi Nat.pred].
    rewrite Hk, Hc. cbn [Re.first_of].
    rewrite IH.
    + cbn [String.length]. f_equal. lia.
    + intros a c' b E. destruct (H (String c a) c' b) as (Hc' & Hk').
      { rewrite append_cons, E. reflexivity. }
      split; [exact Hc'|]. cbn [String.length] in Hk'.
      replace (S pos + String.length a) with (pos + S (String.length a)) by lia.
      exact Hk'.
Qed.

(** A lazy quantifier stops where the rest of the pattern matches. *)
Lemma rep_lazy_stop hi cl pos s cs k res :
  k pos s cs = Some res -> Re.rep fl false 0 hi cl pos s cs k = Some res.
Proof. intros H. destruct s; cbn; rewrite H; reflexivity. Qed.

(** A greedy [\d+] takes the whole run of digits when the rest of the
    pattern matches after it. *)
Lemma rep_digits cs k y res : forall d lo pos,
  all_chars Py.isdigit d = true -> starts_with Py.isdigit y = false ->
  lo <= String.length d ->
  k (pos + String.length d) y cs = Some res ->
  Re.rep fl true lo None [Re.ADigit] pos (d +:+ y) cs k = Some res.
Proof.
  induction d as [|c d IH]; intros lo pos D Y L K.
  - cbn in L. assert (lo = 0) by lia. subst lo.
    rewrite append_nil. cbn [String.length] in K. rewrite Nat.add_0_r in K.
    destruct y as [|c y].
    + rewrite rep_stop_nil. exact K.
    + rewrite rep_stop; [exact K|]. cbn in Y |- *. rewrite Y. reflexivity.
  - cbn [all_chars] in D. apply andb_true_iff in D. destruct D as (Dc & D).
    rewrite append_cons.
    cbn [Re.rep Re.may_repeat andb Re.in_class existsb Re.atom_matches Re.dec_hi].
    rewrite Dc. cbn [orb].
    rewrite (IH (Nat.pred lo) (S pos) D Y); [reflexivity| |].
    + cbn in L. lia.
    + cbn [String.length] in K.
      replace (S pos + String.length d) with (pos + S (String.length d)) by lia.
      exact K.
Qed.

Lemma rep_opt_take cl pos c s cs k res :
  Re.in_class fl cl c = true ->
  k (S pos) s cs = Some res ->
  Re.rep fl true 0 (Some 1) cl pos (String c s) cs k = Some res.
Proof.
  intros H K. cbn [Re.rep Re.may_repeat andb Re.dec_hi Nat.pred Nat.eqb]. rewrite H.
  destruct s as [|d s]; cbn [Re.rep Re.may_repeat andb Nat.eqb Re.first_of]; rewrite K;
    reflexivity.
Qed.

(** [$] does not hold inside a text whose last character is visible. *)
Lemma at_eos_inside a c b :
  last_char visible (a +:+ String c b) = true -> Re.at_eos (String c b) = false.
Proof.
  intros H. rewrite last_char_app in H; [|discriminate].
  destruct b; [|reflexivity]. cbn in H |- *. unfold visible in H.
  destruct (Ascii.eqb_spec c Py.LF) as [->|]; [discriminate|reflexivity].
Qed.

Lemma at_eos_before c b y : y <> "" -> Re.at_eos (String c (b +:+ y)) = false.
Proof.
  intros N. destruct (b +:+ y) eqn:E; [|reflexivity].
  destruct b; [rewrite append_nil in E; contradiction|discriminate].
Qed.

Lemma any_class c : Re.in_class fl Re.any c = true.
Proof. cbn. destruct (Py.isspace c); reflexivity. Qed.

Lemma sub_from_anchored r repl : forall s pos,
  0 < pos -> Re.sub_from fl (Re.RCat Re.RBos r) repl 0 pos s = s.
Proof.
  assert (M : forall pos s, 0 < pos -> Re.match_at fl (Re.RCat Re.RBos r) pos s = None).
  { intros pos s P. unfold Re.match_at. cbn [Re.run].
    destruct pos; [lia|]. reflexivity. }
  induction s as [|c s IH]; intros pos P.
  - cbn [Re.sub_from]. rewrite M; auto.
  - cbn [Re.sub_from]. rewrite M; [|exact P]. rewrite IH; [reflexivity|lia].
Qed.

Lemma sub_anchored_miss r repl s :
  Re.match_at fl (Re.RCat Re.RBos r) 0 s = None ->
  Re.sub fl (Re.RCat Re.RBos r) repl s = s.
Proof.
  intros H. unfold Re.sub. destruct s as [|c s].
  - cbn [Re.sub_from]. rewrite H. reflexivity.
  - cbn [Re.sub_from]. rewrite H. rewrite sub_from_anchored; [reflexivity|lia].
Qed.

(** [\s*:?\s*] takes a separator whole when the rest of the pattern
    matches at the visible text after it. *)
Lemma separator_run rest sep x pos cs k res :
  is_separator sep = true -> starts_with visible x = true ->
  (Py.lstrip sep = "" -> starts_with is_colon x = false) ->
  Re.run fl rest (pos + String.length sep) x cs k = Some res ->
  Re.run fl (Re.RCat (Re.star Re.ws) (Re.RCat (Re.opt Re.colon) (Re.RCat (Re.star Re.ws) rest)))
    pos (sep +:+ x) cs k = Some res.
Proof.
  intros S V C K. cbn [Re.run Re.star Re.opt].
  assert (Hx : exists c0 x0, x = String c0 x0 /\ Py.isspace c0 = false).
  { destruct x as [|c0 x0]; [discriminate|]. exists c0, x0. split; [reflexivity|].
    cbn in V. unfold visible in V. apply negb_true_iff in V. exact V. }
  destruct Hx as (c0 & x0 & -> & Sp0).
  assert (Hcolon : forall fl' c, Re.in_class fl' Re.colon c = Ascii.eqb c ":").
  { intros fl' c. cbn. rewrite orb_false_r.
    destruct (Re.ignorecase fl'); [|reflexivity].
    destruct c as [[] [] [] [] [] [] [] []]; vm_compute; reflexivity. }
  unfold is_separator in S. apply rep_ws_all.
  destruct (Py.lstrip sep) as [|c r] eqn:E.
  - (* no colon: the white space is taken by the first quantifier *)
    rewrite (lstrip_app_space _ _ (lstrip_empty _ E)), (lstrip_fixed c0 x0 Sp0).
    rewrite length_append.
    match goal with
    | |- Re.rep _ _ _ _ _ ?p _ _ _ = _ =>
        replace p with (pos + String.length sep) by (cbn [String.length]; lia)
    end.
    rewrite rep_stop.
    + rewrite rep_stop; [exact K|]. cbn. rewrite Sp0. reflexivity.
    + rewrite Hcolon. specialize (C eq_refl). exact C.
  - apply andb_true_iff in S. destruct S as (Sc & Sr).
    apply Ascii.eqb_eq in Sc. subst c.
    rewrite (lstrip_app_keep _ _ _ _ E).
    pose proof (lstrip_length sep) as L. rewrite E in L. cbn [String.length] in L.
    rewrite !length_append. cbn [String.length]. rewrite length_append.
    apply rep_opt_take; [rewrite Hcolon; reflexivity|].
    apply rep_ws_all.
    rewrite (lstrip_app_space _ _ Sr), (lstrip_fixed c0 x0 Sp0).
    rewrite length_append.
    match goal with
    | |- Re.run _ _ ?p _ _ _ = _ =>
        replace p with (pos + String.length sep) by (cbn [String.length] in *; lia)
    end.
    exact K.
Qed.

Lemma eat_self : forall lit s, Re.eat fl lit (lit +:+ s) = Some s.
Proof.
  induction lit as [|d lit IH]; intros s; [reflexivity|].
  rewrite append_cons. cbn [Re.eat Re.atom_matches].
  destruct (Re.ignorecase fl); rewrite Ascii.eqb_refl; apply IH.
Qed.

Lemma eat_mono : forall lit x y s',
  Re.eat fl lit x = Some s' -> Re.eat fl lit (x +:+ y) = Some (s' +:+ y).
Proof.
  induction lit as [|d lit IH]; intros x y s' H.
  - cbn in H |- *. inversion H. reflexivity.
  - destruct x as [|c x]; [discriminate|]. rewrite append_cons.
    cbn [Re.eat] in H |- *.
    destruct (Re.atom_matches fl (Re.AChar d) c); [apply IH; exact H|discriminate].
Qed.

(** A match of [lit] that starts in [s] and needs the text after it
    ends with a proper end of [lit] at the start of that text. *)
Lemma eat_straddle : forall lit s y r,
  s <> "" -> Re.eat fl lit s = None -> Re.eat fl lit (s +:+ y) = Some r ->
  exists u v, lit = u +:+ v /\ u <> "" /\ v <> "" /\ Re.eat fl v y = Some r.
Proof.
  induction lit as [|d lit IH]; intros s y r N E H; [discriminate|].
  destruct s as [|c s]; [congruence|].
  rewrite append_cons in H. cbn [Re.eat] in E, H.
  destruct (Re.atom_matches fl (Re.AChar d) c); [|discriminate].
  destruct s as [|c' s].
  - rewrite append_nil in H. exists (String d ""), lit.
    split; [reflexivity|]. split; [discriminate|]. split; [|exact H].
    intros ->. discriminate.
  - destruct (IH (String c' s) y r ltac:(discriminate) E H) as (u & v & -> & Nu & Nv & K).
    exists (String d u), v. rewrite append_cons.
    split; [reflexivity|]. split; [discriminate|]. split; [exact Nv|exact K].
Qed.

Lemma borderless_tail : forall u v y,
  borderless fl (u +:+ v) y = true -> u <> "" -> v <> "" -> Re.eat fl v y = None.
Proof.
  induction u as [|d u IH]; intros v y B Nu Nv; [congruence|].
  rewrite append_cons in B. cbn [borderless] in B.
  destruct (u +:+ v) as [|e t] eqn:E.
  - destruct u; [rewrite append_nil in E; congruence|rewrite append_cons in E; discriminate].
  - apply andb_true_iff in B. destruct B as (B1 & B2).
    destruct u as [|d' u'].
    + rewrite append_nil in E. subst v. apply negb_true_iff in B1.
      destruct (Re.eat fl (String e t) y); [discriminate|reflexivity].
    + rewrite <- E in B2. apply IH; [exact B2|discriminate|exact Nv].
Qed.

(** A keyword absent from [x] starts nowhere in [x] when none of its
    proper ends opens the text that follows. *)
Lemma absent_before_borderless lit x y :
  occurs fl lit x = false -> borderless fl lit y = true ->
  absent_before fl lit x y.
Proof.
  intros O B a c b E.
  destruct (Re.eat fl lit (String c b +:+ y)) eqn:H; [|reflexivity].
  apply eat_straddle in H; [|discriminate|eapply occurs_false_eat; eauto].
  destruct H as (u & v & -> & Nu & Nv & K).
  rewrite (borderless_tail u v y B Nu Nv) in K. discriminate.
Qed.

(** The first character of [lit] matches no character of [x]. *)
Lemma absent_before_unrelated d lit x y :
  all_chars (fun c => negb (Re.atom_matches fl (Re.AChar d) c)) x = true ->
  absent_before fl (String d lit) x y.
Proof.
  intros H a c b E. pose proof (all_chars_split _ _ _ _ _ H E) as Hc. cbn beta in Hc.
  apply negb_true_iff in Hc. rewrite append_cons. cbn [Re.eat]. rewrite Hc. reflexivity.
Qed.

End Matcher.

(** ** Labels under IGNORECASE *)

Lemma eat_ci (a b s : string) :
  Py.lower a = Py.lower b -> Re.eat Re.I a s = Re.eat Re.I b s.
Proof.
  revert b s. induction a as [|d a IH]; intros b s H.
  - destruct b; [reflexivity|discriminate].
  - destruct b as [|e b]; [discriminate|]. cbn in H. inversion H as [[H1 H2]].
    cbn [Re.eat]. destruct s as [|c s]; [reflexivity|].
    cbn [Re.atom_matches Re.ignorecase Re.I]. rewrite H1.
    destruct (Ascii.eqb (Py.lower_char c) (Py.lower_char e)); [apply IH; exact H2|reflexivity].
Qed.

Lemma eat_ci_IS (a b s : string) :
  Py.lower a = Py.lower b -> Re.eat Re.IS a s = Re.eat Re.IS b s.
Proof.
  revert b s. induction a as [|d a IH]; intros b s H.
  - destruct b; [reflexivity|discriminate].
  - destruct b as [|e b]; [discriminate|]. cbn in H. inversion H as [[H1 H2]].
    cbn [Re.eat]. destruct s as [|c s]; [reflexivity|].
    cbn [Re.atom_matches Re.ignorecase Re.IS]. rewrite H1.
    destruct (Ascii.eqb (Py.lower_char c) (Py.lower_char e)); [apply IH; exact H2|reflexivity].
Qed.

(** A literal that fails on a text fails on the same text in another
    letter case. *)
Lemma eat_ci_text : forall v a b r,
  Py.lower a = Py.lower b ->
  (forall r', Re.eat Re.I v (b +:+ r') = None) ->
  Re.eat Re.I v (a +:+ r) = None.
Proof.
  induction v as [|d v IH]; intros a b r L H.
  - specialize (H ""). discriminate.
  - destruct a as [|c a], b as [|c' b]; try discriminate.
    + rewrite append_nil. specialize (H r). rewrite append_nil in H. exact H.
    + cbn in L. inversion L as [[L1 L2]]. rewrite append_cons.
      cbn [Re.eat Re.atom_matches Re.ignorecase Re.I]. rewrite L1.
      destruct (Ascii.eqb (Py.lower_char c') (Py.lower_char d)) eqn:M; [|reflexivity].
      apply (IH a b r L2). intros r'. specialize (H r').
      rewrite append_cons in H. cbn [Re.eat Re.atom_matches Re.ignorecase Re.I] in H.
      rewrite M in H. exact H.
Qed.

Lemma borderless_ci : forall lit a b r,
  Py.lower a = Py.lower b ->
  (forall r', borderless Re.I lit (b +:+ r') = true) ->
  borderless Re.I lit (a +:+ r) = true.
Proof.
  induction lit as [|d lit IH]; intros a b r L H; [reflexivity|].
  cbn [borderless] in H |- *. destruct lit as [|e lit]; [reflexivity|].
  apply andb_true_iff. split.
  - rewrite (eat_ci_text (String e lit) a b r L); [reflexivity|].
    intros r'. specialize (H r'). apply andb_true_iff in H. destruct H as (H & _).
    apply negb_true_iff in H.
    destruct (Re.eat Re.I (String e lit) (b +:+ r')); [discriminate|reflexivity].
  - apply (IH a b r L). intros r'. specialize (H r').
    apply andb_true_iff in H. destruct H as (_ & H). exact H.
Qed.

(** A literal does not depend on DOTALL. *)
Lemma eat_dotall (lit s : string) : Re.eat Re.IS lit s = Re.eat Re.I lit s.
Proof.
  revert s. induction lit as [|d lit IH]; intros s; [reflexivity|].
  cbn [Re.eat]. destruct s as [|c s]; [reflexivity|].
  cbn [Re.atom_matches Re.ignorecase Re.IS Re.I]. rewrite IH. reflexivity.
Qed.

Lemma eat_label canon lab s :
  Py.lower lab = Py.lower canon -> Re.eat Re.I canon (lab +:+ s) = Some s.
Proof. intros L. rewrite (eat_ci canon lab _ (eq_sym L)). apply eat_self. Qed.

Lemma heads_label a b : heads (Pat.label a b) a.
Proof.
  intros lab pos s cs k res L K. unfold Pat.label. cbn [Re.run].
  rewrite (eat_label a lab s L), K. reflexivity.
Qed.

Lemma heads_two_words w1 w2 tf : heads (two_words w1 w2 tf) (w1 +:+ "_" +:+ w2).
Proof.
  intros lab pos s cs k res L K. unfold two_words. cbn [Re.run Re.cat Re.opt].
  pose proof (eat_label _ lab s L) as E.
  rewrite eat_app in E. destruct (Re.eat Re.I w1 (lab +:+ s)) as [s1|]; [|discriminate].
  rewrite eat_app in E. destruct s1 as [|c s2]; [discriminate|].
  cbn [Re.eat] in E.
  destruct (Re.atom_matches Re.I (Re.AChar "_") c) eqn:M; [|discriminate].
  rewrite (rep_opt_take Re.I _ _ _ _ _ _ res); [reflexivity| |].
  - cbn [Re.in_class existsb]. rewrite M. reflexivity.
  - rewrite E. rewrite !length_append in K. cbn [String.length] in K.
    replace (S (pos + String.length w1) + String.length w2)
      with (pos + (String.length w1 + S (String.length w2))) by lia.
    exact K.
Qed.

Lemma guarded_label a b :
  Py.lower b = Py.lower a -> forall r, guarded_by Re.I (Re.RCat (Pat.label a b) r) a.
Proof.
  intros L r pos s E. unfold Re.match_at, Pat.label. cbn [Re.run].
  rewrite (eat_ci b a s L), E. reflexivity.
Qed.

Lemma guarded_two_words w1 w2 w1' rest :
  Py.lower w1' = Py.lower w1 ->
  forall r, guarded_by Re.I (Re.RCat (two_words w1 w2 (w1' +:+ rest)) r) w1.
Proof.
  intros L r pos s E. unfold Re.match_at, two_words. cbn [Re.run Re.cat].
  rewrite eat_app, (eat_ci w1' w1 s L), E. reflexivity.
Qed.

Lemma guarded_label_IS a b :
  Py.lower b = Py.lower a -> forall r, guarded_by Re.IS (Re.RCat (Pat.label a b) r) a.
Proof.
  intros L r pos s E. unfold Re.match_at, Pat.label. cbn [Re.run].
  rewrite (eat_ci_IS b a s L), E. reflexivity.
Qed.

Lemma heads_label_IS a b pos s cs k res :
  k (pos + String.length a) s cs = Some res ->
  Re.run Re.IS (Pat.label a b) pos (a +:+ s) cs k = Some res.
Proof.
  intros K. unfold Pat.label. cbn [Re.run]. rewrite eat_self, K. reflexivity.
Qed.

Lemma absent_before_IS lit x y :
  absent_before Re.I lit x y -> absent_before Re.IS lit x y.
Proof. intros H a c b E. rewrite eat_dotall. eapply H. exact E. Qed.

(** ** The extractors never raise *)

Lemma parse_analyzer_lines_total : forall lines parsed,
  exists d, parse_analyzer_lines lines parsed = Ok d.
Proof.
  induction lines as [|line rest IH]; intros parsed; simpl; [eauto|].
  destruct (Py.contains_char ":" line) eqn:E; simpl; [|apply IH].
  destruct (unpack_split1 _ _ E) as (a & b & U). rewrite U. simpl. apply IH.
Qed.

Lemma clamp_int_range g lo hi d :
  (lo <= hi)%Z -> (lo <= d <= hi)%Z -> (lo <= clamp_int g lo hi d <= hi)%Z.
Proof.
  intros Hlh Hd. unfold clamp_int. destruct (Py.int g); lia.
Qed.

Lemma find_score_total text r :
  defines 1 r = true ->
  exists v, find_score text r 5 = Ok v /\ (1 <= v <= 10)%Z.
Proof.
  intros D. unfold find_score.
  destruct (Re.search Re.I r text) as [m|] eqn:E.
  - destruct (group1_stripped_ok _ _ _ _ D E) as (g & Hg & _). rewrite Hg. simpl.
    eexists; split; [reflexivity|]. apply clamp_int_range; lia.
  - eexists; split; [reflexivity|]. lia.
Qed.

Lemma stripped_match_total fl r s :
  defines 1 r = true ->
  exists t, match Re.search fl r s with
            | Some m => group1_stripped m
            | None => Ok ""
            end = Ok t.
Proof.
  intros D. destruct (Re.search fl r s) as [m|] eqn:E; [|eauto].
  destruct (group1_stripped_ok _ _ _ _ D E) as (g & _ & Hg). eauto.
Qed.

Lemma parse_judge_response_total response :
  exists fb, parse_judge_response response = Ok fb /\ scores_in_range fb.
Proof.
  unfold parse_judge_response.
  destruct (find_score_total (Py.or_else response "") Pat.overall eq_refl) as (v1 & E1 & R1).
  destruct (find_score_total (Py.or_else response "") Pat.age eq_refl) as (v2 & E2 & R2).
  destruct (find_score_total (Py.or_else response "") Pat.engagement eq_refl) as (v3 & E3 & R3).
  destruct (find_score_total (Py.or_else response "") Pat.moral_clarity eq_refl) as (v4 & E4 & R4).
  destruct (find_score_total (Py.or_else response "") Pat.story_structure eq_refl) as (v5 & E5 & R5).
  destruct (find_score_total (Py.or_else response "") Pat.language_quality eq_refl) as (v6 & E6 & R6).
  rewrite E1, E2, E3, E4, E5, E6. cbn [exc_bind].
  destruct (stripped_match_total Re.IS Pat.feedback (Py.or_else response "") eq_refl) as (fb & Efb).
  rewrite Efb. cbn [exc_bind].
  destruct (Re.search Re.IS Pat.suggestions (Py.or_else response "")) as [m|] eqn:Es.
  - destruct (group1_stripped_ok _ _ _ _ (eq_refl : defines 1 Pat.suggestions = true) Es)
      as (g & _ & Hg).
    rewrite Hg. cbn [exc_bind].
    eexists; split; [reflexivity|]. repeat split; simpl; lia.
  - cbn [exc_bind]. eexists; split; [reflexivity|]. repeat split; simpl; lia.
Qed.

Lemma parse_story_response_total response fallback_title :
  exists t c m,
    parse_story_response response fallback_title = Ok (t, c, m) /\
    (t = fallback_title \/ Py.truthy t = true).
Proof.
  unfold parse_story_response.
  set (text := Py.or_else response "").
  assert (Ht : exists t,
    match Re.search Re.I Pat.title text with
    | Some m => t <~ group1_stripped m ;; Ok (if Py.truthy t then t else fallback_title)
    | None => Ok fallback_title
    end = Ok t /\ (t = fallback_title \/ Py.truthy t = true)).
  { destruct (Re.search Re.I Pat.title text) as [m|] eqn:E; [|eauto].
    destruct (group1_stripped_ok _ _ _ _ (eq_refl : defines 1 Pat.title = true) E) as (g & _ & Hg).
    rewrite Hg. cbn [exc_bind]. eexists; split; [reflexivity|].
    destruct (Py.truthy (Py.strip g)) eqn:T; auto. }
  destruct Ht as (t & Et & Pt). rewrite Et. cbn [exc_bind].
  destruct (stripped_match_total Re.IS Pat.moral text eq_refl) as (mo & Em).
  rewrite Em. cbn [exc_bind].
  destruct (stripped_match_total Re.I Pat.story text eq_refl) as (bo & Eb).
  rewrite Eb. cbn [exc_bind].
  destruct (Py.truthy bo).
  - cbn [exc_bind]. eauto 6.
  - destruct (Re.search Re.I Pat.title text); destruct (Re.search Re.IS Pat.moral text);
      cbn [exc_bind Re.group]; eauto 6.
Qed.

Lemma parse_choice_proposal_total text :
  exists c1 c2,
    parse_choice_proposal text = Ok (c1, c2) /\ Py.truthy c1 = true /\ Py.truthy c2 = true.
Proof.
  unfold parse_choice_proposal.
  set (t := Py.or_else text "").
  destruct (stripped_match_total Re.I (Pat.choice "CHOICE_1") t eq_refl) as (c1 & E1).
  destruct (stripped_match_total Re.I (Pat.choice "CHOICE_2") t eq_refl) as (c2 & E2).
  rewrite E1, E2. cbn [exc_bind].
  assert (H : exists cs,
    (if negb (Py.truthy c1) || negb (Py.truthy c2)
     then if Nat.leb 2 (length (numbered_lines t))
          then a <~ Py.index (numbered_lines t) 0 ;;
               b <~ Py.index (numbered_lines t) 1 ;; Ok (a, b)
          else Ok (c1, c2)
     else Ok (c1, c2)) = Ok cs).
  { destruct (negb (Py.truthy c1) || negb (Py.truthy c2)); [|eauto].
    destruct (Nat.leb 2 (length (numbered_lines t))) eqn:L; [|eauto].
    apply Nat.leb_le in L.
    destruct (index_total (numbered_lines t) 0) as (a & Ea); [lia|].
    destruct (index_total (numbered_lines t) 1) as (b & Eb); [lia|].
    rewrite Ea, Eb. simpl. eauto. }
  destruct H as (cs & Ecs). rewrite Ecs. cbn [exc_bind].
  do 2 eexists; split; [reflexivity|].
  split.
  - destruct (Py.truthy (fst cs)) eqn:T; auto.
  - destruct (Py.truthy (snd cs)) eqn:T; auto.
Qed.

Lemma parse_continuation_response_total text :
  exists c m, parse_continuation_response text = Ok (c, m).
Proof.
  unfold parse_continuation_response.
  set (t := Py.or_else text "").
  destruct (stripped_match_total Re.IS Pat.continuation t eq_refl) as (b & Eb).
  destruct (stripped_match_total Re.IS Pat.closing_moral t eq_refl) as (m & Em).
  rewrite Eb. cbn [exc_bind]. rewrite Em. cbn [exc_bind]. eauto.
Qed.

Lemma parse_continuation_response_stripped text :
  exists c m, parse_continuation_response text = Ok (c, m) /\
              Py.strip c = c /\ Py.strip m = m.
Proof.
  unfold parse_continuation_response.
  set (t := Py.or_else text "").
  destruct (stripped_match_total Re.IS Pat.continuation t eq_refl) as (b & Eb).
  rewrite Eb. cbn [exc_bind].
  destruct (Re.search Re.IS Pat.closing_moral t) as [mm|] eqn:Em.
  - destruct (group1_stripped_ok _ _ _ _ (eq_refl : defines 1 Pat.closing_moral = true) Em)
      as (g & _ & Hg).
    rewrite Hg. cbn [exc_bind]. do 2 eexists. split; [reflexivity|].
    split; apply strip_idem.
  - cbn [exc_bind]. do 2 eexists. split; [reflexivity|].
    split; [apply strip_idem|reflexivity].
Qed.

Lemma normalize_tone_allowed t : In (normalize_tone t) allowed_tones.
Proof.
  unfold normalize_tone.
  destruct (mem (Py.lower (Py.strip (Py.or_else t ""))) allowed_tones) eqn:E.
  - apply mem_In. exact E.
  - cbn. auto.
Qed.


(** ** Score lines *)

Lemma score_tail_run sep d y pos cs :
  is_separator sep = true ->
  all_chars Py.isdigit d = true -> d <> "" -> starts_with Py.isdigit y = false ->
  Re.run Re.I score_tail pos (sep +:+ d +:+ y) cs Re.accept =
  Some (pos + String.length sep + String.length d, y, (1, d) :: cs).
Proof.
  intros S D N Y. destruct (digits_start_visible d D N) as (V & C & _).
  unfold score_tail. cbn [Re.cat].
  apply separator_run; [exact S|apply starts_visible_app; exact V| |].
  - intros _. destruct d; [contradiction|]. exact C.
  - cbn [Re.run Re.plus].
    apply rep_digits; [exact D|exact Y|destruct d; [contradiction|cbn; lia]|].
    unfold Re.accept. rewrite consumed_app. reflexivity.
Qed.

Lemma labelled_score_match r canon lab sep d y pos :
  heads r canon -> Py.lower lab = Py.lower canon -> is_separator sep = true ->
  all_chars Py.isdigit d = true -> d <> "" -> starts_with Py.isdigit y = false ->
  exists m,
    Re.match_at Re.I (Re.RCat r score_tail) pos (lab +:+ sep +:+ d +:+ y) = Some m /\
    Re.m_caps m = [(1, d)].
Proof.
  intros H L S D N Y. unfold Re.match_at. cbn [Re.run].
  rewrite (H lab pos _ [] _
             (pos + String.length canon + String.length sep + String.length d, y, [(1, d)]) L).
  - eexists. split; reflexivity.
  - apply score_tail_run; auto.
Qed.

Lemma score_pattern_heads l : exists r, score_pattern l = Re.RCat r score_tail /\ heads r (score_text l).
Proof.
  destruct l.
  - exists (two_words "OVERALL" "SCORE" "Overall Score"). split; [reflexivity|apply heads_two_words].
  - exists (two_words "AGE" "APPROPRIATENESS" "Age Appropriateness").
    split; [reflexivity|apply heads_two_words].
  - exists (Pat.label "ENGAGEMENT" "Engagement"). split; [reflexivity|apply heads_label].
  - exists (two_words "MORAL" "CLARITY" "Moral Clarity"). split; [reflexivity|apply heads_two_words].
  - exists (two_words "STORY" "STRUCTURE" "Story Structure").
    split; [reflexivity|apply heads_two_words].
  - exists (two_words "LANGUAGE" "QUALITY" "Language Quality").
    split; [reflexivity|apply heads_two_words].
Qed.

Lemma score_pattern_match l lab sep d y pos :
  Py.lower lab = Py.lower (score_text l) -> is_separator sep = true ->
  all_chars Py.isdigit d = true -> d <> "" -> starts_with Py.isdigit y = false ->
  exists m,
    Re.match_at Re.I (score_pattern l) pos (lab +:+ sep +:+ d +:+ y) = Some m /\
    Re.m_caps m = [(1, d)].
Proof.
  intros L S D N Y. destruct (score_pattern_heads l) as (r & -> & H).
  eapply labelled_score_match; eauto.
Qed.

Lemma score_pattern_guarded l : guarded_by Re.I (score_pattern l) (score_keyword l).
Proof.
  destruct l.
  - apply (guarded_two_words "OVERALL" "SCORE" "Overall" " Score" eq_refl).
  - apply (guarded_two_words "AGE" "APPROPRIATENESS" "Age" " Appropriateness" eq_refl).
  - apply (guarded_label "ENGAGEMENT" "Engagement" eq_refl).
  - apply (guarded_two_words "MORAL" "CLARITY" "Moral" " Clarity" eq_refl).
  - apply (guarded_two_words "STORY" "STRUCTURE" "Story" " Structure" eq_refl).
  - apply (guarded_two_words "LANGUAGE" "QUALITY" "Language" " Quality" eq_refl).
Qed.

(** No proper end of a label's first word opens the label. *)
Lemma score_keyword_borderless l r :
  borderless Re.I (score_keyword l) (score_text l +:+ r) = true.
Proof. destruct l; vm_compute; reflexivity. Qed.

(** The score found in a text whose first score line for [l] carries
    the digits [d]. *)
Lemma find_score_located l pre lab sep d post :
  occurs Re.I (score_keyword l) pre = false ->
  Py.lower lab = Py.lower (score_text l) -> is_separator sep = true ->
  all_chars Py.isdigit d = true -> d <> "" -> starts_with Py.isdigit post = false ->
  find_score (pre +:+ lab +:+ sep +:+ d +:+ post) (score_pattern l) 5
    = Ok (clamp_int d 1 10 5).
Proof.
  intros O L S D N Y. unfold find_score, Re.search.
  rewrite (search_from_skip Re.I (score_pattern l) (score_keyword l));
    [|apply score_pattern_guarded|].
  2:{ apply absent_before_borderless; [exact O|].
      apply (borderless_ci _ lab (score_text l)); [exact L|].
      intros r'. apply score_keyword_borderless. }
  destruct (score_pattern_match l lab sep d post (0 + String.length pre) L S D N Y)
    as (m & M & C).
  rewrite (search_from_here _ _ _ _ _ M). unfold Re.group. rewrite C. reflexivity.
Qed.


(** ** The three sections of a formatted Story *)

Lemma title_body_run t y pos cs :
  all_chars not_lf t = true ->
  Re.run Re.I title_body pos (t +:+ String Py.LF y) cs Re.accept =
  Some (pos + String.length t, String Py.LF y, (1, t) :: cs).
Proof.
  intros NL. unfold title_body. cbn [Re.run Re.lazy_star].
  rewrite rep_lazy_over.
  - apply rep_lazy_stop. cbn. rewrite consumed_app. reflexivity.
  - intros a c b E.
    assert (Hc : c <> Py.LF).
    { pose proof (all_chars_split _ _ _ _ _ NL E) as H. unfold not_lf in H.
      apply negb_true_iff, Ascii.eqb_neq in H. exact H. }
    split.
    + cbn. apply Ascii.eqb_neq in Hc. rewrite Hc. reflexivity.
    + rewrite append_cons.
      cbn [Re.run Re.in_class existsb Re.atom_matches Re.ignorecase Re.I].
      rewrite (lower_char_lf c Hc), (at_eos_before c b (String Py.LF y)); [|discriminate].
      reflexivity.
Qed.

Lemma title_match_found t y :
  Py.strip t = t -> t <> "" -> all_chars not_lf t = true ->
  exists m,
    Re.search Re.I Pat.title ("TITLE: " +:+ t +:+ String Py.LF y) = Some m /\
    Re.group m 1 = Ok t.
Proof.
  intros S N NL. destruct (stripped_starts_visible t S N) as (V & _).
  eexists. split.
  - apply search_from_here. unfold Re.match_at.
    change Pat.title with
      (Re.RCat (Pat.label "TITLE" "Title")
         (Re.RCat (Re.star Re.ws) (Re.RCat (Re.opt Re.colon) (Re.RCat (Re.star Re.ws) title_body)))).
    change ("TITLE: " +:+ t +:+ String Py.LF y)
      with ("TITLE" +:+ String ":" (String " " (t +:+ String Py.LF y))).
    cbn [Re.run].
    rewrite (heads_label "TITLE" "Title" "TITLE" 0 _ [] _
               (0 + 5 + 2 + String.length t, String Py.LF y, [(1, t)]) eq_refl).
    + reflexivity.
    + apply (separator_run Re.I title_body ": ");
        [reflexivity|apply starts_visible_app; exact V|discriminate|].
      apply title_body_run. exact NL.
  - reflexivity.
Qed.

(** With DOTALL, a lazy [.*?] followed by [$] runs to the end of a text
    whose last character is visible. *)
Lemma moral_body_run x pos cs :
  last_char visible x = true ->
  Re.run Re.IS moral_body pos x cs Re.accept =
  Some (pos + String.length x, "", (1, x) :: cs).
Proof.
  intros L. unfold moral_body. cbn [Re.run Re.lazy_star].
  rewrite <- (append_empty_r x) at 1.
  rewrite rep_lazy_over.
  - rewrite rep_stop_nil. cbn. rewrite consumed_all. reflexivity.
  - intros a c b E. split; [reflexivity|].
    rewrite append_empty_r. rewrite E in L. rewrite (at_eos_inside a c b L). reflexivity.
Qed.

(** The moral found in a text whose first "MORAL" is the label of a
    line [MORAL: r], the last line of the text. *)
Lemma moral_match_found pre r :
  absent_before Re.I "MORAL" pre ("MORAL: " +:+ r) ->
  last_char visible r = true ->
  exists m,
    Re.search Re.IS Pat.moral (pre +:+ "MORAL: " +:+ r) = Some m /\
    Re.group m 1 = Ok (Py.lstrip r).
Proof.
  intros A L. unfold Re.search.
  rewrite (search_from_skip Re.IS Pat.moral "MORAL");
    [|apply (guarded_label_IS "MORAL" "Moral" eq_refl)|apply absent_before_IS; exact A].
  eexists. split.
  - apply search_from_here. unfold Re.match_at.
    change Pat.moral with
      (Re.RCat (Pat.label "MORAL" "Moral")
         (Re.RCat (Re.star Re.ws) (Re.RCat (Re.opt Re.colon) (Re.RCat (Re.star Re.ws) moral_body)))).
    change ("MORAL: " +:+ r) with ("MORAL" +:+ String ":" (String " " r)).
    cbn [Re.run].
    rewrite (heads_label_IS "MORAL" "Moral" _ _ [] _
               (0 + String.length pre + 5 + (2 + (String.length r - String.length (Py.lstrip r)))
                + String.length (Py.lstrip r), "", [(1, Py.lstrip r)])).
    + reflexivity.
    + cbn [Re.run Re.star Re.opt].
      rewrite rep_stop; [|reflexivity].
      apply rep_opt_take; [reflexivity|].
      apply rep_ws_all. change (Py.lstrip (String " " r)) with (Py.lstrip r).
      cbn [String.length].
      pose proof (lstrip_length r) as Hl.
      replace (S (0 + String.length pre + 5) +
               (S (String.length r) - String.length (Py.lstrip r)))
        with (0 + String.length pre + 5 + (2 + (String.length r - String.length (Py.lstrip r))))
        by lia.
      apply moral_body_run. apply last_visible_lstrip. exact L.
  - reflexivity.
Qed.

Lemma moral_marker_miss pos s cs k :
  Re.eat Re.I "MORAL" s = None -> Re.run Re.I Pat.moral_marker pos s cs k = None.
Proof.
  intros E. unfold Pat.moral_marker, Pat.label. cbn [Re.cat Re.run].
  rewrite (eat_ci "Moral" "MORAL" s eq_refl), E. reflexivity.
Qed.

Lemma moral_marker_hit pos r cs :
  Re.run Re.I Pat.moral_marker pos ("MORAL: " +:+ r) cs Re.accept =
  Some (pos + 6, String " " r, cs).
Proof.
  change ("MORAL: " +:+ r) with ("MORAL" +:+ String ":" (String " " r)).
  unfold Pat.moral_marker. cbn [Re.cat Re.run Re.star].
  apply heads_label; [reflexivity|]. rewrite rep_stop; [|reflexivity]. cbn.
  replace (S (pos + 5)) with (pos + 6) by lia. reflexivity.
Qed.

Lemma story_body_run x r pos cs :
  absent_before Re.I "MORAL" x ("MORAL: " +:+ r) ->
  Re.run Re.I story_body pos (x +:+ "MORAL: " +:+ r) cs Re.accept =
  Some (pos + String.length x, "MORAL: " +:+ r, (1, x) :: cs).
Proof.
  intros A. unfold story_body. cbn [Re.run Re.lazy_star].
  rewrite rep_lazy_over.
  - apply rep_lazy_stop. rewrite moral_marker_hit. cbn [Re.first_of].
    unfold Re.accept. rewrite consumed_app. reflexivity.
  - intros a c b E. split; [apply any_class|].
    rewrite moral_marker_miss; [|eapply A; exact E].
    rewrite append_cons. rewrite at_eos_before; [reflexivity|discriminate].
Qed.

(** The story section found in a text whose first "STORY" is the label
    of a line [STORY:], followed by the body [x] (from its first
    visible character up to the [MORAL:] line). *)
Lemma story_match_found pre x r :
  absent_before Re.I "STORY" pre ("STORY:" +:+ Py.nl +:+ x +:+ "MORAL: " +:+ r) ->
  absent_before Re.I "MORAL" x ("MORAL: " +:+ r) ->
  starts_with visible x = true ->
  exists m,
    Re.search Re.I Pat.story (pre +:+ "STORY:" +:+ Py.nl +:+ x +:+ "MORAL: " +:+ r) = Some m /\
    Re.group m 1 = Ok x.
Proof.
  intros A1 A2 V. unfold Re.search.
  rewrite (search_from_skip Re.I Pat.story "STORY");
    [|apply (guarded_label "STORY" "Story" eq_refl)|exact A1].
  eexists. split.
  - apply search_from_here. unfold Re.match_at.
    change Pat.story with
      (Re.RCat (Pat.label "STORY" "Story")
         (Re.RCat (Re.star Re.ws) (Re.RCat (Re.opt Re.colon) (Re.RCat (Re.star Re.ws) story_body)))).
    change ("STORY:" +:+ Py.nl +:+ x +:+ "MORAL: " +:+ r)
      with ("STORY" +:+ String ":" (String Py.LF (x +:+ "MORAL: " +:+ r))).
    cbn [Re.run].
    rewrite (heads_label "STORY" "Story" "STORY" _ _ [] _
               (0 + String.length pre + 5 + 2 + String.length x, "MORAL: " +:+ r, [(1, x)])
               eq_refl).
    + reflexivity.
    + apply (separator_run Re.I story_body (String ":" Py.nl));
        [reflexivity|apply starts_visible_app; exact V|discriminate|].
      apply story_body_run. exact A2.
  - reflexivity.
Qed.

Lemma story_prefix_miss x :
  Re.eat Re.I "STORY" x = None -> Re.sub Re.I Pat.story_prefix "" x = x.
Proof.
  intros E.
  change Pat.story_prefix with
    (Re.RCat Re.RBos
       (Re.RCat (Pat.label "STORY" "Story")
          (Re.RCat (Re.star Re.ws) (Re.RCat (Re.opt Re.colon) (Re.star Re.ws))))).
  apply sub_anchored_miss. unfold Re.match_at, Pat.label. cbn [Re.run Nat.eqb].
  rewrite (eat_ci "Story" "STORY" x eq_refl), E. reflexivity.
Qed.






Lemma plain_story_inv s :
  plain_story s = true ->
  Py.strip (title s) = title s /\ title s <> "" /\ all_chars not_lf (title s) = true /\
  occurs Re.I "STORY" (title s) = false /\ occurs Re.I "MORAL" (title s) = false /\
  Py.strip (content s) = content s /\ content s <> "" /\
  occurs Re.I "MORAL" (content s) = false /\ Re.eat Re.I "STORY" (content s) = None.
Proof.
  unfold plain_story. intros H.
  repeat (apply andb_true_iff in H; destruct H as (H & ?)).
  repeat match goal with
         | H : negb _ = true |- _ => apply negb_true_iff in H
         | H : String.eqb _ _ = true |- _ => apply String.eqb_eq in H
         | H : Py.truthy _ = true |- _ => apply truthy_nonempty in H
         end.
  repeat split; auto.
  destruct (Re.eat Re.I "STORY" (content s)); [discriminate|reflexivity].
Qed.

(** ** One gateway call and the calls built on it *)

Lemma call_model_cases prompt system_prompt max_tokens temperature w :
  call_model prompt system_prompt max_tokens temperature w =
  let n := length (requests w) in
  let req := chat_request prompt system_prompt max_tokens temperature in
  match service w n with
  | Replied c => (Ok (reply_text c), advance w [req] [])
  | Failed e1 =>
      match service w (S n) with
      | Replied c => (Ok (reply_text c), advance w [req; req] [backoff 1])
      | Failed e2 =>
          match service w (S (S n)) with
          | Replied c =>
              (Ok (reply_text c), advance w [req; req; req] [backoff 1; backoff 2])
          | Failed e3 =>
              (Raise (RuntimeError ("OpenAI API call failed after 3 attempts: " +:+ e3)),
               advance w [req; req; req] [backoff 1; backoff 2])
          end
      end
  end.
Proof.
  unfold call_model, bind, advance. cbn -[chat_request backoff reply_text].
  set (req := chat_request prompt system_prompt max_tokens temperature).
  destruct (service w (length (requests w))) as [c|e1] eqn:E1.
  - cbn. rewrite app_nil_r. reflexivity.
  - cbn -[backoff reply_text]. rewrite length_app, Nat.add_1_r. cbn [length].
    destruct (service w (S (length (requests w)))) as [c|e2] eqn:E2.
    + cbn -[backoff]. rewrite <- app_assoc. reflexivity.
    + cbn -[backoff reply_text]. rewrite !length_app. cbn [length]. rewrite !Nat.add_1_r.
      destruct (service w (S (S (length (requests w))))) as [c|e3] eqn:E3.
      * cbn -[backoff]. rewrite <- !app_assoc. reflexivity.
      * cbn -[backoff]. rewrite <- !app_assoc. reflexivity.
Qed.

Lemma call_model_outcome prompt system_prompt max_tokens temperature w :
  exists reqs naps,
    snd (call_model prompt system_prompt max_tokens temperature w) = advance w reqs naps /\
    ((exists text, fst (call_model prompt system_prompt max_tokens temperature w) = Ok text) \/
     (exists e, fst (call_model prompt system_prompt max_tokens temperature w) = Raise e /\
                gateway_exhausted e)).
Proof.
  rewrite call_model_cases. cbv zeta.
  destruct (service w (length (requests w))); [simpl; eauto 8|].
  destruct (service w (S (length (requests w)))); [simpl; eauto 8|].
  destruct (service w (S (S (length (requests w))))); [simpl; eauto 8|].
  simpl. do 2 eexists. split; [reflexivity|]. right. eexists. split; [reflexivity|].
  eexists. reflexivity.
Qed.

(** What a gateway call leaves of the world: the trace and the console
    input are untouched. *)
Lemma call_model_run prompt system_prompt max_tokens temperature w r w' :
  call_model prompt system_prompt max_tokens temperature w = (r, w') ->
  trace w' = trace w /\ stdin w' = stdin w /\
  ((exists text, r = Ok text) \/ (exists e, r = Raise e /\ gateway_exhausted e)).
Proof.
  intros H.
  destruct (call_model_outcome prompt system_prompt max_tokens temperature w)
    as (reqs & naps & Hw & Hr).
  rewrite H in Hw, Hr. simpl in Hw, Hr. subst w'. auto.
Qed.

(** The functions built on the gateway share two proof steps.  First,
    the call either raises, and the function with it, or returns a
    text. *)
Ltac gateway_call H text Ht :=
  unfold bind in H;
  lazymatch type of H with
  | context [call_model ?p ?sp ?mt ?t ?w] =>
      let E := fresh "E" in
      destruct (call_model p sp mt t w) as [? ?] eqn:E;
      apply call_model_run in E;
      destruct E as (Ht & ? & [[text ->]|[? [-> ?]]]);
      [unfold lift in H | inversion H; subst; split; [auto|]; right; eauto]
  end.

(** Last, the parsed record is returned after one event was added to
    the trace. *)
Ltac returned H P Ht :=
  rewrite P in H; cbn in H; inversion H; subst; clear H; cbn;
  split; [auto|]; left; repeat (eapply ex_intro);
  split; [reflexivity|]; rewrite Ht; auto.

Lemma generate_story_run request ctx w r w' :
  generate_story request ctx w = (r, w') ->
  stdin w' = stdin w /\
  ((exists s, r = Ok s /\ version s = 1%Z /\ trace w' = trace w ++ [EvDraft s]) \/
   (exists e, r = Raise e /\ gateway_exhausted e /\ trace w' = trace w)).
Proof.
  unfold generate_story. intros H. gateway_call H text Ht.
  destruct (parse_story_response_total text "Untitled Story") as (t & c & m & P & _).
  returned H P Ht.
Qed.

Lemma judge_story_run story request round_num history w r w' :
  judge_story story request round_num history w = (r, w') ->
  stdin w' = stdin w /\
  ((exists fb, r = Ok fb /\ scores_in_range fb /\
               trace w' = trace w ++ [EvJudged round_num story fb]) \/
   (exists e, r = Raise e /\ gateway_exhausted e /\ trace w' = trace w)).
Proof.
  unfold judge_story. intros H. gateway_call H text Ht.
  destruct (parse_judge_response_total text) as (fb & P & Rg).
  returned H P Ht.
Qed.

Lemma refine_story_run story request history w r w' :
  refine_story story request history w = (r, w') ->
  stdin w' = stdin w /\
  ((exists s, r = Ok s /\ version s = (version story + 1)%Z /\
              (title s = title story \/ Py.truthy (title s) = true) /\
              trace w' = trace w ++ [EvRefined s]) \/
   (exists e, r = Raise e /\ gateway_exhausted e /\ trace w' = trace w)).
Proof.
  unfold refine_story. intros H. gateway_call H text Ht.
  destruct (parse_story_response_total text (title story)) as (t & c & m & P & Pt).
  returned H P Ht.
Qed.

Lemma propose_next_choices_run story request step total w r w' :
  propose_next_choices story request step total w = (r, w') ->
  stdin w' = stdin w /\
  ((exists c1 c2, r = Ok (c1, c2) /\ Py.truthy c1 = true /\ Py.truthy c2 = true /\
                  trace w' = trace w ++ [EvProposed step c1 c2]) \/
   (exists e, r = Raise e /\ gateway_exhausted e /\ trace w' = trace w)).
Proof.
  unfold propose_next_choices. intros H. gateway_call H text Ht.
  destruct (parse_choice_proposal_total text) as (c1 & c2 & P & T1 & T2).
  returned H P Ht.
Qed.

Lemma generate_continuation_run story request chosen step total w r w' :
  generate_continuation story request chosen step total w = (r, w') ->
  stdin w' = stdin w /\
  ((exists c m, r = Ok (c, m) /\ Py.strip c = c /\ Py.strip m = m /\
                trace w' = trace w ++ [EvContinuation step c m]) \/
   (exists e, r = Raise e /\ gateway_exhausted e /\ trace w' = trace w)).
Proof.
  unfold generate_continuation. intros H. gateway_call H text Ht.
  destruct (parse_continuation_response_stripped text) as (c & m & P & S1 & S2).
  returned H P Ht.
Qed.

Lemma read_pick_cases : forall lines,
  let r := fst (read_pick lines) in
  r = Ok Quit \/ r = Ok (Picked "1") \/ r = Ok (Picked "2") \/ r = Raise EOFError.
Proof.
  induction lines as [|line lines IH]; cbv zeta in *; [cbn; auto|].
  cbn [read_pick].
  destruct (mem (Py.lower (Py.strip line)) ["quit"; "q"; "exit"]); [cbn; auto|].
  destruct (mem (Py.lower (Py.strip line)) ["1"; "2"]) eqn:M; [|exact IH].
  cbn in M |- *.
  destruct (String.eqb_spec (Py.lower (Py.strip line)) "1") as [->|]; [auto|].
  destruct (String.eqb_spec (Py.lower (Py.strip line)) "2") as [->|]; [auto|].
  discriminate.
Qed.

Lemma ask_pick_run w r w' :
  ask_pick w = (r, w') ->
  trace w' = trace w /\
  (r = Ok Quit \/ r = Ok (Picked "1") \/ r = Ok (Picked "2") \/ r = Raise EOFError).
Proof.
  unfold ask_pick. intros H. pose proof (read_pick_cases (stdin w)) as C.
  destruct (read_pick (stdin w)) as [r0 rest]. inversion H; subst.
  split; [reflexivity|exact C].
Qed.

(** ** The two loops *)

Create HintDb runs.
#[local] Hint Constructors loop_run choice_run : runs.

Lemma refine_loop_run request : forall iterations story history w r w',
  refine_loop iterations request story history w = (r, w') ->
  exists tr, trace w' = trace w ++ tr /\ loop_run iterations story history tr r.
Proof.
  induction iterations as [|i rest IH]; intros story history w r w' H.
  - cbn in H. inversion H; subst. exists []. rewrite app_nil_r. split; [auto|constructor].
  - cbn [refine_loop] in H. unfold bind at 1 in H.
    destruct (judge_story story request (Z.of_nat i + 1) history w) as [r1 w1] eqn:E1.
    apply judge_story_run in E1.
    destruct E1 as (_ & [(fb & -> & _ & T1)|(e & -> & G & T1)]).
    + destruct (Z.leb JUDGE_THRESHOLD (overall_score fb)) eqn:Th.
      * cbn in H. inversion H; subst. eexists. split; [eassumption|].
        apply Z.leb_le in Th. auto with runs.
      * apply Z.leb_gt in Th.
        destruct (Nat.ltb i (MAX_REFINEMENT_ITERATIONS - 1)) eqn:Lt.
        -- apply Nat.ltb_lt in Lt. unfold bind in H.
           destruct (refine_story story request (history ++ [fb]) w1) as [r2 w2] eqn:E2.
           apply refine_story_run in E2.
           destruct E2 as (_ & [(s' & -> & V & _ & T2)|(e & -> & G & T2)]).
           ++ apply IH in H. destruct H as (tr & T3 & R).
              exists (EvJudged (Z.of_nat i + 1) story fb :: EvRefined s' :: tr).
              split.
              ** rewrite T3, T2, T1, <- !app_assoc. reflexivity.
              ** auto with runs.
           ++ inversion H; subst. eexists. split.
              ** rewrite T2. eassumption.
              ** auto with runs.
        -- apply Nat.ltb_ge in Lt.
           apply IH in H. destruct H as (tr & T3 & R).
           exists (EvJudged (Z.of_nat i + 1) story fb :: tr). split.
           ** rewrite T3, T1, <- !app_assoc. reflexivity.
           ** auto with runs.
    + inversion H; subst. exists []. rewrite app_nil_r. auto with runs.
Qed.

Lemma loop_run_counts iterations s0 h0 tr r :
  loop_run iterations s0 h0 tr r ->
  forall a n, iterations = seq a n -> a + n = MAX_REFINEMENT_ITERATIONS ->
  stories_in tr = refined_in tr /\
  length (refined_in tr) <= n - 1 /\
  length (judged_in tr) <= n.
Proof.
  induction 1; intros a n E Hsum;
    change (MAX_REFINEMENT_ITERATIONS - 1) with 4 in *;
    change MAX_REFINEMENT_ITERATIONS with 5 in *;
    cbn; try (repeat split; lia).
  - destruct n as [|n]; [discriminate|]. repeat split; lia.
  - destruct n as [|n]; [discriminate|]. repeat split; lia.
  - destruct n as [|n]; [discriminate|]. cbn in E. inversion E; subst.
    destruct (IHloop_run (S a) n eq_refl ltac:(lia)) as (A & B & C).
    change (MAX_REFINEMENT_ITERATIONS - 1) with 4 in *.
    fold (stories_in tr) (refined_in tr) (judged_in tr).
    repeat split; [congruence | cbn; lia | cbn; lia].
  - destruct n as [|n]; [discriminate|]. cbn in E. inversion E; subst.
    destruct (IHloop_run (S a) n eq_refl ltac:(lia)) as (A & B & C).
    fold (stories_in tr) (refined_in tr) (judged_in tr).
    repeat split; [congruence | cbn; lia | cbn; lia].
Qed.

Lemma loop_run_history iterations s0 h0 tr s h :
  loop_run iterations s0 h0 tr (Ok (s, h)) ->
  h = h0 ++ map feedback_of (judged_in tr) /\
  map round_of (judged_in tr) =
    map (fun i => (Z.of_nat i + 1)%Z) (firstn (length (judged_in tr)) iterations).
Proof.
  remember (Ok (s, h)) as r eqn:Er. intros H. revert s h Er.
  induction H; intros s1 h1 Er; try discriminate.
  - inversion Er; subst. cbn. rewrite app_nil_r. auto.
  - inversion Er; subst. cbn. auto.
  - destruct (IHloop_run _ _ Er) as (A & B). cbn. rewrite A, <- app_assoc. cbn.
    split; [reflexivity|]. unfold round_of at 1. cbn. f_equal. exact B.
  - destruct (IHloop_run _ _ Er) as (A & B). cbn. rewrite A, <- app_assoc. cbn.
    split; [reflexivity|]. unfold round_of at 1. cbn. f_equal. exact B.
Qed.

Lemma firstn_seq k a n : k <= n -> firstn k (seq a n) = seq a k.
Proof.
  revert a n. induction k as [|k IH]; intros a n H; [reflexivity|].
  destruct n as [|n]; [lia|]. cbn. f_equal. apply IH. lia.
Qed.

Lemma judged_in_judged n s fb tr :
  judged_in (EvJudged n s fb :: tr) = (n, s, fb) :: judged_in tr.
Proof. reflexivity. Qed.

Lemma judged_in_refined s tr : judged_in (EvRefined s :: tr) = judged_in tr.
Proof. reflexivity. Qed.

Lemma last_cons_cons {A} (x y : A) l : last (x :: y :: l) = last (y :: l).
Proof. reflexivity. Qed.


Lemma choice_loop_run total request : forall steps cur w r w',
  choice_loop steps total request cur w = (r, w') ->
  exists tr, trace w' = trace w ++ tr /\ choice_run steps cur tr r.
Proof.
  induction steps as [|step rest IH]; intros cur w r w' H.
  - cbn in H. inversion H; subst. exists []. rewrite app_nil_r. split; [auto|constructor].
  - cbn [choice_loop] in H. unfold bind at 1 in H.
    destruct (propose_next_choices cur request step total w) as [r1 w1] eqn:E1.
    apply propose_next_choices_run in E1.
    destruct E1 as (_ & [(c1 & c2 & -> & _ & _ & T1)|(e & -> & G & T1)]).
    + unfold bind at 1 in H.
      destruct (ask_pick w1) as [r2 w2] eqn:E2. apply ask_pick_run in E2.
      destruct E2 as (T2 & P).
      assert (Hpick : forall choice, r2 = Ok (Picked choice) ->
        exists tr, trace w' = trace w ++ tr /\ choice_run (step :: rest) cur tr r).
      { intros choice ->. unfold bind at 1 in H.
        destruct (generate_continuation cur request
                    (if String.eqb choice "1" then fst (c1, c2) else snd (c1, c2))
                    step total w2) as [r3 w3] eqn:E3.
        apply generate_continuation_run in E3.
        destruct E3 as (_ & [(c & m & -> & S1 & S2 & T3)|(e & -> & G & T3)]).
        - cbn [fst snd] in H. unfold bind at 1 in H. cbn [emit] in H.
          rewrite S2 in H. destruct m as [|a m]; cbn [Py.truthy] in H.
          + apply IH in H. destruct H as (tr & T4 & R). cbn [trace] in T4.
            eexists. split.
            * rewrite T4, T3, T2, T1, <- !app_assoc. cbn. reflexivity.
            * auto with runs.
          + inversion H; subst. cbn [trace]. eexists. split.
            * rewrite T3, T2, T1, <- !app_assoc. cbn. reflexivity.
            * apply choice_closed; auto; discriminate.
        - inversion H; subst. eexists. split.
          + rewrite T3, T2. eassumption.
          + auto with runs. }
      destruct P as [ -> | [ -> | [ -> | -> ] ] ]; eauto.
      * cbn in H. inversion H; subst. eexists. split; [rewrite T2; eassumption|].
        auto with runs.
      * inversion H; subst. eexists. split; [rewrite T2; eassumption|].
        auto with runs.
    + inversion H; subst. exists []. rewrite app_nil_r. auto with runs.
Qed.

Lemma choice_run_commits steps cur tr r :
  choice_run steps cur tr r ->
  committed_in tr = commits cur (continuations_in tr) /\
  Forall (fun k => Py.strip (snd (fst k)) = snd (fst k) /\ Py.strip (snd k) = snd k)
         (continuations_in tr).
Proof.
  induction 1; cbn; auto.
  destruct IHchoice_run as (A & B).
  split; [|constructor; auto].
  unfold committed_in, continuations_in in A. rewrite A. reflexivity.
Qed.


Lemma generate_and_refine_story_run request w r w' :
  generate_and_refine_story request w = (r, w') ->
  (exists e, r = Raise e /\ gateway_exhausted e /\ trace w' = trace w) \/
  (exists s1 tr, version s1 = 1%Z /\
                 trace w' = trace w ++ EvDraft s1 :: tr /\
                 loop_run (seq 0 MAX_REFINEMENT_ITERATIONS) s1 [] tr r).
Proof.
  unfold generate_and_refine_story, bind. intros H.
  destruct (generate_story request None w) as [r1 w1] eqn:E1.
  apply generate_story_run in E1.
  destruct E1 as (_ & [(s1 & -> & V & T1)|(e & -> & G & T1)]).
  - apply refine_loop_run in H. destruct H as (tr & T2 & R).
    right. exists s1, tr. split; [auto|]. split; [|auto].
    rewrite T2, T1, <- app_assoc. reflexivity.
  - inversion H; subst. left. eauto.
Qed.


Lemma last_in {A} (l : list A) x : last l = Some x -> In x l.
Proof.
  induction l as [|a l IH]; [discriminate|].
  destruct l as [|b l].
  - cbn. intros H. inversion H. auto.
  - rewrite last_cons_cons. intros H. right. auto.
Qed.

Lemma last_map {A B} (f : A -> B) (l : list A) :
  last (map f l) = option_map f (last l).
Proof.
  induction l as [|a l IH]; [reflexivity|].
  destruct l as [|b l]; [reflexivity|]. cbn [map] in *. rewrite !last_cons_cons. exact IH.
Qed.

Lemma run_interactive_choice_mode_run story request total w :
  exists tr,
    trace (snd (run_interactive_choice_mode story request total w)) = trace w ++ tr /\
    choice_run (seq 1 total) story tr (fst (run_interactive_choice_mode story request total w)).
Proof.
  unfold run_interactive_choice_mode.
  destruct (choice_loop (seq 1 total) total request story w) as [r w'] eqn:E.
  apply choice_loop_run in E. exact E.
Qed.



Lemma commit_law_holds c m :
  Py.strip c = c -> Py.strip m = m -> commit_law c m.
Proof.
  intros Sc Sm cur. cbn. rewrite Sc, Sm. repeat split.
  intros Scur Ncur Nc.
  destruct (content cur) as [|a s] eqn:E; [contradiction|].
  destruct (stripped_cons _ _ Scur) as (_ & Rs). rewrite Rs.
  apply strip_paragraphs; auto.
Qed.

(** ** The claims *)

(** C1: a run of generate_and_refine_story constructs at most five
    Stories, one draft and at most four refinements, whatever the scores,
    and judges at most five times; when it returns, the history holds the
    feedback of the rounds that were judged, one entry per round, in the
    order of the rounds 1, 2, ... *)
Theorem refinement_is_bounded (request : StoryRequest) (w : world) :
  exists tr,
    trace (snd (generate_and_refine_story request w)) = trace w ++ tr /\
    length (stories_in tr) <= 5 /\
    length (stories_in tr) <= 1 + length (refined_in tr) /\
    length (refined_in tr) <= 4 /\
    length (judged_in tr) <= 5 /\
    match fst (generate_and_refine_story request w) with
    | Ok (s, h) =>
        h = map feedback_of (judged_in tr) /\
        map round_of (judged_in tr) = rounds (length h)
    | Raise _ => True
    end.
Proof.
  destruct (generate_and_refine_story request w) as [r w'] eqn:E.
  apply generate_and_refine_story_run in E.
  destruct E as [(e & -> & G & T)|(s1 & tr & V & T & R)].
  - exists []. rewrite app_nil_r. cbn. repeat split; auto; lia.
  - exists (EvDraft s1 :: tr). cbn [fst snd]. split; [exact T|].
    destruct (loop_run_counts _ _ _ _ _ R 0 5 eq_refl eq_refl) as (A & B & C).
    change (stories_in (EvDraft s1 :: tr)) with (s1 :: stories_in tr).
    change (refined_in (EvDraft s1 :: tr)) with (refined_in tr).
    change (judged_in (EvDraft s1 :: tr)) with (judged_in tr).
    rewrite A. cbn [length].
    split; [lia|]. split; [lia|]. split; [lia|]. split; [lia|].
    destruct r as [[s h]|e]; [|exact I].
    destruct (loop_run_history _ _ _ _ _ _ R) as (Hh & Hr).
    cbn [app] in Hh. split; [exact Hh|].
    rewrite Hr, Hh, length_map. unfold rounds. f_equal.
    apply firstn_seq. exact C.
Qed.


(** C3: call_model sends the request at most three times.  The first
    attempt that succeeds ends the call with the text of its reply (the
    empty text when the reply carries none); a failed first or second
    attempt is followed by a sleep of the base delay times the attempt
    number, and nothing is slept after the third; three failures raise
    the exhaustion error, whose message ends with the last error. *)
Theorem gateway_retry_policy (prompt system_prompt : string) (max_tokens : Z)
    (temperature : Q) (w : world) :
  let n := length (requests w) in
  let req := chat_request prompt system_prompt max_tokens temperature in
  let returned (c : option string) : string :=
    match c with
    | Some text => text
    | None => ""
    end in
  call_model prompt system_prompt max_tokens temperature w =
  match service w n with
  | Replied c => (Ok (returned c), advance w [req] [])
  | Failed e1 =>
      match service w (S n) with
      | Replied c => (Ok (returned c), advance w [req; req] [backoff 1])
      | Failed e2 =>
          match service w (S (S n)) with
          | Replied c =>
              (Ok (returned c), advance w [req; req; req] [backoff 1; backoff 2])
          | Failed e3 =>
              (Raise (RuntimeError ("OpenAI API call failed after 3 attempts: " +:+ e3)),
               advance w [req; req; req] [backoff 1; backoff 2])
          end
      end
  end
  /\ (backoff 1 == API_RETRY_BACKOFF_SECONDS * 1)%Q
  /\ (backoff 2 == API_RETRY_BACKOFF_SECONDS * 2)%Q
  /\ (backoff 1 < backoff 2)%Q.
Proof.
  assert (R : forall c, reply_text c = match c with Some text => text | None => "" end).
  { intros [text|]; [apply or_else_empty|reflexivity]. }
  split; [|vm_compute; repeat split; discriminate].
  rewrite call_model_cases. cbv zeta.
  destruct (service w (length (requests w))) as [c|e1]; [rewrite R; reflexivity|].
  destruct (service w (S (length (requests w)))) as [c|e2]; [rewrite R; reflexivity|].
  destruct (service w (S (S (length (requests w))))) as [c|e3]; [rewrite R; reflexivity|].
  reflexivity.
Qed.

(** C4: no extractor raises, whatever the text: each returns a record;
    the title is the fallback or is not empty, the six scores lie between
    1 and 10, both options are not empty; and the empty text is judged
    with six scores of 5, no feedback text and no suggestions. *)
Theorem extractors_are_total (text : string) :
  (exists d, parse_analyzer_response text = Ok d) /\
  (forall fallback_title, exists t c m,
      parse_story_response text fallback_title = Ok (t, c, m) /\
      (t = fallback_title \/ t <> "")) /\
  (exists fb, parse_judge_response text = Ok fb /\ scores_in_range fb) /\
  (exists c1 c2, parse_choice_proposal text = Ok (c1, c2) /\ c1 <> "" /\ c2 <> "") /\
  (exists c m, parse_continuation_response text = Ok (c, m)) /\
  parse_judge_response "" =
    Ok {| overall_score := 5; age_appropriateness := 5; engagement := 5;
          moral_clarity := 5; story_structure := 5; language_quality := 5;
          feedback := ""; suggestions := [] |}.
Proof.
  split; [apply parse_analyzer_lines_total|].
  split.
  { intros fb. destruct (parse_story_response_total text fb) as (t & c & m & E & P).
    exists t, c, m. split; [exact E|]. destruct P as [P|P]; [auto|].
    right. intros ->. discriminate. }
  split; [apply parse_judge_response_total|].
  split.
  { destruct (parse_choice_proposal_total text) as (c1 & c2 & E & T1 & T2).
    exists c1, c2. split; [exact E|]. split; intros ->; discriminate. }
  split; [apply parse_continuation_response_total|].
  vm_compute. reflexivity.
Qed.











(** C9, as stated, fails: when the service returns no text for a
    continuation, the step is committed and the content is the prior
    content alone, with no paragraph break after it. *)
Lemma commit_without_beat_adds_no_break :
  exists s',
    fst (run_interactive_choice_mode sample_story sample_request 1 silent_world) = Ok s' /\
    continuations_in
      (trace (snd (run_interactive_choice_mode sample_story sample_request 1 silent_world)))
      = [(1, "", "")] /\
    version s' = 2%Z /\
    content s' = content sample_story /\
    content s' <> content sample_story +:+ Py.nl +:+ Py.nl +:+ "".
Proof.
  eexists. split; [vm_compute; reflexivity|].
  split; [vm_compute; reflexivity|].
  split; [reflexivity|]. split; [vm_compute; reflexivity|].
  vm_compute. discriminate.
Qed.

(** C9, amended: in every run of the interactive engine the committed
    Stories are obtained from the starting Story by committing the parsed
    continuations one after the other, and each commit keeps the title,
    adds 1 to the version, takes the parsed moral when it is not empty
    and keeps the prior moral otherwise, and sets the content to the
    prior content without trailing white space, a paragraph break and the
    beat, the whole trimmed; for a prior content that is not empty and
    has no outer white space and a beat that is not empty, that is the
    prior content, a paragraph break and the beat. *)
Theorem committed_steps_extend_the_story (story : Story) (request : StoryRequest)
    (total_steps : nat) (w : world) :
  exists tr,
    trace (snd (run_interactive_choice_mode story request total_steps w)) = trace w ++ tr /\
    committed_in tr = commits story (continuations_in tr) /\
    Forall (fun k => commit_law (snd (fst k)) (snd k)) (continuations_in tr).
Proof.
  destruct (run_interactive_choice_mode_run story request total_steps w) as (tr & T & R).
  exists tr. split; [exact T|].
  destruct (choice_run_commits _ _ _ _ R) as (A & B). split; [exact A|].
  eapply Forall_impl; [exact B|].
  intros k (Sc & Sm). apply commit_law_holds; auto.
Qed.

(** C10: normalize_tone always returns one of the six allowed tones: the
    trimmed, lower-cased input when that is an allowed tone, "whimsical"
    otherwise (so for the empty string); and normalising twice is
    normalising once. *)
Theorem normalize_tone_spec (t : string) :
  In (normalize_tone t) allowed_tones /\
  ((In (Py.lower (Py.strip t)) allowed_tones /\ normalize_tone t = Py.lower (Py.strip t)) \/
   (~ In (Py.lower (Py.strip t)) allowed_tones /\ normalize_tone t = "whimsical")) /\
  normalize_tone (normalize_tone t) = normalize_tone t /\
  normalize_tone "" = "whimsical" /\
  normalize_tone "  CaLmInG " = "calming".
Proof.
  split; [apply normalize_tone_allowed|]. split; [|split; [|split; reflexivity]].
  - unfold normalize_tone. rewrite or_else_empty.
    destruct (mem (Py.lower (Py.strip t)) allowed_tones) eqn:E.
    + left. split; [apply mem_In; exact E|reflexivity].
    + right. split; [|reflexivity]. intros H. apply mem_In in H. congruence.
  - pose proof (normalize_tone_allowed t) as H. cbn in H.
    repeat (destruct H as [H|H]; [rewrite <- H; reflexivity|]). contradiction.
Qed.

(** ** What a call may spend *)

Lemma spent_refl w : spent 0 w w.
Proof.
  split; [reflexivity|]. exists [], []. rewrite !app_nil_r.
  repeat split; auto.
Qed.

Lemma spent_trans a b w w1 w2 :
  spent a w w1 -> spent b w1 w2 -> spent (a + b) w w2.
Proof.
  intros (S1 & r1 & n1 & R1 & N1 & L1 & M1 & F1) (S2 & r2 & n2 & R2 & N2 & L2 & M2 & F2).
  split; [congruence|]. exists (r1 ++ r2), (n1 ++ n2).
  rewrite R2, R1, N2, N1, <- !app_assoc, !length_app.
  repeat split; try lia. apply Forall_app. auto.
Qed.

Lemma spent_more a b w w' : a <= b -> spent a w w' -> spent b w w'.
Proof.
  intros L (S1 & r1 & n1 & R1 & N1 & L1 & M1 & F1).
  split; [exact S1|]. exists r1, n1. repeat split; auto; lia.
Qed.

Lemma quiet_spent {A} (m : M A) w : quiet m -> spent 0 w (snd (m w)).
Proof.
  intros Q. destruct (Q w) as (_ & S1 & R & N & _).
  split; [exact S1|]. exists [], []. rewrite !app_nil_r. repeat split; auto.
Qed.

Lemma quiet_ret {A} (a : A) : quiet (ret a).
Proof. intros w. cbn. eauto 10. Qed.

Lemma quiet_emit e : quiet (emit e).
Proof. intros w. cbn. eauto 10. Qed.

Lemma quiet_lift {A} (x : exc A) : (exists a, x = Ok a) -> quiet (lift x).
Proof. intros (a & ->) w. cbn. eauto 10. Qed.

Lemma quiet_bind {A B} (m : M A) (f : A -> M B) :
  quiet m -> (forall a, quiet (f a)) -> quiet (bind m f).
Proof.
  intros Qm Qf w. unfold bind. destruct (Qm w) as ((a & E) & S1 & R1 & N1 & I1).
  destruct (m w) as [r w1]. cbn in *. subst r.
  destruct (Qf a w1) as (E2 & S2 & R2 & N2 & I2).
  split; [exact E2|]. repeat split; congruence.
Qed.

Lemma spent_advance w reqs naps :
  length reqs <= 3 -> length naps <= 2 ->
  Forall (fun q => q = backoff 1 \/ q = backoff 2) naps ->
  spent 1 w (advance w reqs naps).
Proof.
  intros R N F. split; [reflexivity|]. exists reqs, naps. cbn.
  repeat split; auto; lia.
Qed.

Lemma calls_once_call_model prompt system_prompt max_tokens temperature :
  calls_once (call_model prompt system_prompt max_tokens temperature).
Proof.
  intros w. rewrite call_model_cases. cbv zeta. unfold answers.
  destruct (service w (length (requests w))) as [c1|e1];
    [|destruct (service w (S (length (requests w)))) as [c2|e2];
      [|destruct (service w (S (S (length (requests w))))) as [c3|e3]]];
    cbn [fst snd];
    (split; [apply spent_advance; cbn; [lia|lia|]
            |split; [reflexivity|split; [cbn; rewrite length_app; cbn; lia|]]]);
    try (intros (c & C); discriminate);
    try (intros _; cbn; rewrite app_nil_r; eauto);
    repeat (constructor; [first [left; reflexivity|right; reflexivity]|]);
    constructor.
Qed.

Lemma calls_once_bind {A B} (m : M A) (f : A -> M B) :
  calls_once m -> (forall a, quiet (f a)) -> calls_once (bind m f).
Proof.
  intros Cm Qf w. unfold bind. destruct (Cm w) as (S1 & I1 & G1 & Rel).
  destruct (m w) as [[a|e] w1] eqn:E; cbn [fst snd] in *.
  - destruct (Qf a w1) as (E2 & S2 & R2 & N2 & I2).
    split; [|split; [congruence|split; [congruence|]]].
    + apply (spent_trans 1 0 w w1); [exact S1|]. apply quiet_spent. apply Qf.
    + intros An. destruct (Rel An) as (_ & (req & Rq) & Nq).
      split; [exact E2|]. split; [exists req; congruence|congruence].
  - split; [exact S1|]. split; [exact I1|]. split; [exact G1|].
    intros An. destruct (Rel An) as ((a & Ea) & _). discriminate.
Qed.

Lemma calls_once_generate_story request ctx : calls_once (generate_story request ctx).
Proof.
  unfold generate_story. apply calls_once_bind; [apply calls_once_call_model|].
  intros response. apply quiet_bind.
  - apply quiet_lift. destruct (parse_story_response_total response "Untitled Story")
      as (t & c & m & E & _). eauto.
  - intros [[t c] m]. apply quiet_bind; [apply quiet_emit|intros; apply quiet_ret].
Qed.

Lemma calls_once_judge_story story request round_num history :
  calls_once (judge_story story request round_num history).
Proof.
  unfold judge_story. apply calls_once_bind; [apply calls_once_call_model|].
  intros response. apply quiet_bind.
  - apply quiet_lift. destruct (parse_judge_response_total response) as (fb & E & _). eauto.
  - intros fb. apply quiet_bind; [apply quiet_emit|intros; apply quiet_ret].
Qed.

Lemma calls_once_refine_story story request history :
  calls_once (refine_story story request history).
Proof.
  unfold refine_story. apply calls_once_bind; [apply calls_once_call_model|].
  intros response. apply quiet_bind.
  - apply quiet_lift. destruct (parse_story_response_total response (title story))
      as (t & c & m & E & _). eauto.
  - intros [[t c] m]. apply quiet_bind; [apply quiet_emit|intros; apply quiet_ret].
Qed.

Lemma calls_once_propose_next_choices story request step total :
  calls_once (propose_next_choices story request step total).
Proof.
  unfold propose_next_choices. apply calls_once_bind; [apply calls_once_call_model|].
  intros response. apply quiet_bind.
  - apply quiet_lift. destruct (parse_choice_proposal_total response) as (c1 & c2 & E & _). eauto.
  - intros cs. apply quiet_bind; [apply quiet_emit|intros; apply quiet_ret].
Qed.

Lemma calls_once_generate_continuation story request chosen step total :
  calls_once (generate_continuation story request chosen step total).
Proof.
  unfold generate_continuation. apply calls_once_bind; [apply calls_once_call_model|].
  intros response. apply quiet_bind.
  - apply quiet_lift. destruct (parse_continuation_response_total response) as (c & m & E). eauto.
  - intros cs. apply quiet_bind; [apply quiet_emit|intros; apply quiet_ret].
Qed.

Lemma calls_once_analyze_request user_input : calls_once (analyze_request user_input).
Proof.
  unfold analyze_request. apply calls_once_bind; [apply calls_once_call_model|].
  intros response. apply quiet_bind.
  - apply quiet_lift. apply parse_analyzer_lines_total.
  - intros parsed. apply quiet_ret.
Qed.

Lemma calls_once_apply_user_modification story request modification :
  calls_once (apply_user_modification story request modification).
Proof.
  unfold apply_user_modification. apply calls_once_bind; [apply calls_once_call_model|].
  intros response. apply quiet_bind.
  - apply quiet_lift. destruct (parse_story_response_total response (title story))
      as (t & c & m & E & _). eauto.
  - intros [[t c] m]. apply quiet_ret.
Qed.

(** ** What the two loops may spend *)

Lemma calls_once_spent {A} (m : M A) w r w' :
  calls_once m -> m w = (r, w') -> spent 1 w w' /\ stdin w' = stdin w.
Proof.
  intros C E. destruct (C w) as (S1 & I1 & _). rewrite E in *. auto.
Qed.

Lemma calls_once_sends {A} (m : M A) w r w' :
  calls_once m -> m w = (r, w') ->
  exists reqs, requests w' = requests w ++ reqs /\ 1 <= length reqs <= 3.
Proof.
  intros C E. destruct (C w) as ((_ & reqs & naps & Rq & _ & Lr & _) & _ & G & _).
  rewrite E in *. cbn [snd] in *. exists reqs. split; [exact Rq|].
  rewrite Rq, length_app in G. lia.
Qed.

Lemma refine_loop_spent request : forall iterations story history w r w',
  refine_loop iterations request story history w = (r, w') ->
  spent (loop_calls iterations) w w' /\ stdin w' = stdin w.
Proof.
  induction iterations as [|i rest IH]; intros story history w r w' H.
  - cbn in H. inversion H; subst. split; [apply spent_refl|reflexivity].
  - change (loop_calls (i :: rest))
      with ((if Nat.ltb i (MAX_REFINEMENT_ITERATIONS - 1) then 2 else 1) + loop_calls rest).
    cbn [refine_loop] in H. unfold bind at 1 in H.
    destruct (judge_story story request (Z.of_nat i + 1) history w) as [r1 w1] eqn:E1.
    destruct (calls_once_spent _ _ _ _ (calls_once_judge_story _ _ _ _) E1) as (S1 & I1).
    destruct r1 as [fb|e].
    + destruct (Z.leb JUDGE_THRESHOLD (overall_score fb)).
      * cbn in H. inversion H; subst. split; [|exact I1].
        eapply spent_more; [|exact S1]. destruct (Nat.ltb i _); lia.
      * destruct (Nat.ltb i (MAX_REFINEMENT_ITERATIONS - 1)).
        -- unfold bind in H.
           destruct (refine_story story request (history ++ [fb]) w1) as [r2 w2] eqn:E2.
           destruct (calls_once_spent _ _ _ _ (calls_once_refine_story _ _ _) E2) as (S2 & I2).
           destruct r2 as [s'|e].
           ++ destruct (IH _ _ _ _ _ H) as (S3 & I3).
              split; [|congruence].
              exact (spent_trans _ _ _ _ _ (spent_trans _ _ _ _ _ S1 S2) S3).
           ++ inversion H; subst. split; [|congruence].
              eapply spent_more; [|exact (spent_trans _ _ _ _ _ S1 S2)]. lia.
        -- destruct (IH _ _ _ _ _ H) as (S3 & I3).
           split; [|congruence].
           exact (spent_trans _ _ _ _ _ S1 S3).
    + inversion H; subst. split; [|exact I1]. eapply spent_more; [|exact S1].
      destruct (Nat.ltb i _); lia.
Qed.

Lemma generate_and_refine_story_spent request w r w' :
  generate_and_refine_story request w = (r, w') ->
  spent 10 w w' /\ stdin w' = stdin w.
Proof.
  unfold generate_and_refine_story, bind. intros H.
  destruct (generate_story request None w) as [r1 w1] eqn:E1.
  destruct (calls_once_spent _ _ _ _ (calls_once_generate_story _ _) E1) as (S1 & I1).
  destruct r1 as [s|e].
  - destruct (refine_loop_spent _ _ _ _ _ _ _ H) as (S2 & I2).
    split; [|congruence].
    exact (spent_trans 1 9 _ _ _ S1 S2).
  - inversion H; subst. split; [|exact I1]. eapply spent_more; [|exact S1]. lia.
Qed.

Lemma backoff_values : backoff 1 = (3 # 2)%Q /\ backoff 2 = 3%Q.
Proof. split; vm_compute; reflexivity. Qed.

(** Console input: what [read_pick] leaves is an end of what it was
    given. *)
Lemma read_pick_suffix : forall lines,
  exists used, lines = used ++ snd (read_pick lines).
Proof.
  induction lines as [|line rest IH]; [exists []; reflexivity|].
  cbn [read_pick].
  destruct (mem (Py.lower (Py.strip line)) ["quit"; "q"; "exit"]);
    [exists [line]; reflexivity|].
  destruct (mem (Py.lower (Py.strip line)) ["1"; "2"]); [exists [line]; reflexivity|].
  destruct IH as (used & E). exists (line :: used). cbn. f_equal. exact E.
Qed.

Lemma ask_pick_spent w r w' :
  ask_pick w = (r, w') ->
  spent 0 w w' /\ exists used, stdin w = used ++ stdin w'.
Proof.
  unfold ask_pick. intros H. destruct (read_pick_suffix (stdin w)) as (used & E).
  destruct (read_pick (stdin w)) as [r0 rest]. cbn [snd] in *. inversion H; subst. split.
  - split; [reflexivity|]. exists [], []. cbn. rewrite !app_nil_r. repeat split; auto.
  - exists used. exact E.
Qed.

Lemma spent_emit n w w' e :
  spent n w w' -> spent n w (snd (emit e w')).
Proof.
  intros (Sv & reqs & naps & Rq & Nq & Lr & Ln & F).
  split; [exact Sv|]. exists reqs, naps. cbn. repeat split; auto.
Qed.

Lemma choice_loop_spent total request : forall steps cur w r w',
  choice_loop steps total request cur w = (r, w') ->
  spent (2 * length steps) w w' /\ exists used, stdin w = used ++ stdin w'.
Proof.
  induction steps as [|step rest IH]; intros cur w r w' H.
  - cbn in H. inversion H; subst. split; [apply spent_refl|exists []; reflexivity].
  - cbn [choice_loop] in H. unfold bind at 1 in H.
    destruct (propose_next_choices cur request step total w) as [r1 w1] eqn:E1.
    destruct (calls_once_spent _ _ _ _ (calls_once_propose_next_choices _ _ _ _) E1)
      as (S1 & I1).
    destruct r1 as [cs|e].
    2:{ inversion H; subst. split; [|exists []; rewrite I1; reflexivity].
        eapply spent_more; [|exact S1]. cbn [length]. lia. }
    unfold bind at 1 in H.
    destruct (ask_pick w1) as [r2 w2] eqn:E2.
    destruct (ask_pick_spent _ _ _ E2) as (S2 & used & I2).
    pose proof (spent_trans _ _ _ _ _ S1 S2) as S12.
    destruct r2 as [[|choice]|e].
    + cbn in H. inversion H; subst. split; [|exists used; congruence].
      eapply spent_more; [|exact S12]. cbn [length]. lia.
    + unfold bind at 1 in H.
      destruct (generate_continuation cur request
                  (if String.eqb choice "1" then fst cs else snd cs) step total w2)
        as [r3 w3] eqn:E3.
      destruct (calls_once_spent _ _ _ _ (calls_once_generate_continuation _ _ _ _ _) E3)
        as (S3 & I3).
      pose proof (spent_trans _ _ _ _ _ S12 S3) as S123.
      destruct r3 as [c|e].
      * unfold bind at 1 in H.
        pose proof (spent_emit _ _ _ (EvCommitted step (commit cur (fst c) (snd c))) S123) as S4.
        destruct (emit (EvCommitted step (commit cur (fst c) (snd c))) w3) as [r4 w4] eqn:E4.
        assert (I4 : stdin w4 = stdin w3) by (cbn in E4; inversion E4; reflexivity).
        assert (R4 : r4 = Ok tt) by (cbn in E4; inversion E4; reflexivity).
        subst r4. cbn [snd] in S4.
        destruct (Py.truthy (Py.strip (snd c))).
        -- cbn in H. inversion H; subst. split; [|exists used; congruence].
           eapply spent_more; [|exact S4]. cbn [length]. lia.
        -- destruct (IH _ _ _ _ H) as (S5 & used' & I5). split.
           ++ eapply spent_more; [|exact (spent_trans _ _ _ _ _ S4 S5)]. cbn [length]. lia.
           ++ exists (used ++ used'). rewrite <- app_assoc, <- I5, I4, I3, <- I2, I1. reflexivity.
      * inversion H; subst. split; [|exists used; congruence].
        eapply spent_more; [|exact S123]. cbn [length]. lia.
    + inversion H; subst. split; [|exists used; congruence].
      eapply spent_more; [|exact S12]. cbn [length]. lia.
Qed.

(** ** A service that always answers *)

Lemma reliable_call {A} (m : M A) w r w' :
  calls_once m -> reliable w -> m w = (r, w') ->
  (exists a, r = Ok a) /\ (exists req, requests w' = requests w ++ [req]) /\
  sleeps w' = sleeps w /\ reliable w'.
Proof.
  intros C R E. destruct (C w) as ((Sv & _) & _ & _ & An). rewrite E in *. cbn [fst snd] in *.
  destruct (An (R _)) as (Ha & Hr & Hs).
  split; [exact Ha|]. split; [exact Hr|]. split; [exact Hs|].
  intros n. rewrite Sv. apply R.
Qed.

Lemma versions_after_cons v n :
  versions_after v (S n) = (v + 1)%Z :: versions_after (v + 1) n.
Proof.
  unfold versions_after. cbn [seq map]. f_equal.
  rewrite <- seq_shift, map_map. apply map_ext. intros k. lia.
Qed.

Lemma stories_in_judged n s fb tr : stories_in (EvJudged n s fb :: tr) = stories_in tr.
Proof. reflexivity. Qed.

Lemma stories_in_refined s tr : stories_in (EvRefined s :: tr) = s :: stories_in tr.
Proof. reflexivity. Qed.

Lemma refine_loop_reliable request : forall iterations story history w r w',
  reliable w ->
  refine_loop iterations request story history w = (r, w') ->
  exists s h tr reqs,
    r = Ok (s, h) /\ trace w' = trace w ++ tr /\
    requests w' = requests w ++ reqs /\
    length reqs = length (stories_in tr) + length (judged_in tr) /\
    sleeps w' = sleeps w.
Proof.
  induction iterations as [|i rest IH]; intros story history w r w' R H.
  - cbn in H. inversion H; subst. exists story, history, [], [].
    rewrite !app_nil_r. auto.
  - cbn [refine_loop] in H. unfold bind at 1 in H.
    destruct (judge_story story request (Z.of_nat i + 1) history w) as [r1 w1] eqn:E1.
    destruct (reliable_call _ _ _ _ (calls_once_judge_story _ _ _ _) R E1)
      as ((fb & ->) & (q1 & Q1) & N1 & R1).
    apply judge_story_run in E1.
    destruct E1 as (_ & [(fb' & Efb & _ & T1)|(e & Ee & _)]); [|discriminate].
    inversion Efb; subst fb'; clear Efb.
    destruct (Z.leb JUDGE_THRESHOLD (overall_score fb)).
    + cbn in H. inversion H; subst.
      exists story, (history ++ [fb]), [EvJudged (Z.of_nat i + 1) story fb], [q1]. auto.
    + destruct (Nat.ltb i (MAX_REFINEMENT_ITERATIONS - 1)).
      * unfold bind in H.
        destruct (refine_story story request (history ++ [fb]) w1) as [r2 w2] eqn:E2.
        destruct (reliable_call _ _ _ _ (calls_once_refine_story _ _ _) R1 E2)
          as ((s' & ->) & (q2 & Q2) & N2 & R2).
        apply refine_story_run in E2.
        destruct E2 as (_ & [(s'' & Es & _ & _ & T2)|(e & Ee & _)]); [|discriminate].
        inversion Es; subst s''; clear Es.
        destruct (IH _ _ _ _ _ R2 H) as (s & h & tr & reqs & -> & T3 & Q3 & L3 & N3).
        exists s, h, (EvJudged (Z.of_nat i + 1) story fb :: EvRefined s' :: tr),
               (q1 :: q2 :: reqs).
        split; [reflexivity|]. split; [rewrite T3, T2, T1, <- !app_assoc; reflexivity|].
        split; [rewrite Q3, Q2, Q1, <- !app_assoc; reflexivity|].
        split; [|congruence].
        rewrite stories_in_judged, stories_in_refined, judged_in_judged, judged_in_refined.
        cbn [length]. lia.
      * destruct (IH _ _ _ _ _ R1 H) as (s & h & tr & reqs & -> & T3 & Q3 & L3 & N3).
        exists s, h, (EvJudged (Z.of_nat i + 1) story fb :: tr), (q1 :: reqs).
        split; [reflexivity|]. split; [rewrite T3, T1, <- !app_assoc; reflexivity|].
        split; [rewrite Q3, Q1, <- !app_assoc; reflexivity|].
        split; [|congruence].
        rewrite stories_in_judged, judged_in_judged. cbn [length]. lia.
Qed.

Lemma generate_story_titled request ctx w s w' :
  generate_story request ctx w = (Ok s, w') -> titled s.
Proof.
  unfold generate_story, bind. intros H.
  destruct (call_model _ _ _ _ w) as [[text|e] w1]; [|discriminate].
  unfold lift in H.
  destruct (parse_story_response_total text "Untitled Story") as (t & c & m & P & Ht).
  rewrite P in H. cbn in H. inversion H; subst. unfold titled. cbn.
  destruct Ht as [->|Ht]; [discriminate|]. apply truthy_nonempty. exact Ht.
Qed.

Lemma refine_loop_stories request : forall iterations story history w r w',
  refine_loop iterations request story history w = (r, w') ->
  exists tr,
    trace w' = trace w ++ tr /\
    map version (stories_in tr) = versions_after (version story) (length (stories_in tr)) /\
    (titled story -> Forall titled (stories_in tr)) /\
    (forall s h, r = Ok (s, h) -> last (story :: stories_in tr) = Some s).
Proof.
  induction iterations as [|i rest IH]; intros story history w r w' H.
  - cbn in H. inversion H; subst. exists []. rewrite app_nil_r.
    split; [reflexivity|]. split; [reflexivity|]. split; [constructor|].
    intros s h E. inversion E. reflexivity.
  - cbn [refine_loop] in H. unfold bind at 1 in H.
    destruct (judge_story story request (Z.of_nat i + 1) history w) as [r1 w1] eqn:E1.
    apply judge_story_run in E1.
    destruct E1 as (_ & [(fb & -> & _ & T1)|(e & -> & _ & T1)]).
    2:{ inversion H; subst. exists []. rewrite app_nil_r.
        split; [auto|]. split; [reflexivity|]. split; [constructor|]. discriminate. }
    destruct (Z.leb JUDGE_THRESHOLD (overall_score fb)).
    + cbn in H. inversion H; subst. exists [EvJudged (Z.of_nat i + 1) story fb].
      split; [exact T1|]. split; [reflexivity|]. split; [constructor|].
      intros s h E. inversion E. reflexivity.
    + destruct (Nat.ltb i (MAX_REFINEMENT_ITERATIONS - 1)).
      * unfold bind in H.
        destruct (refine_story story request (history ++ [fb]) w1) as [r2 w2] eqn:E2.
        apply refine_story_run in E2.
        destruct E2 as (_ & [(s' & -> & V & Ti & T2)|(e & -> & _ & T2)]).
        -- destruct (IH _ _ _ _ _ H) as (tr & T3 & Vs & Fs & L).
           exists (EvJudged (Z.of_nat i + 1) story fb :: EvRefined s' :: tr).
           split; [rewrite T3, T2, T1, <- !app_assoc; reflexivity|].
           rewrite stories_in_judged, stories_in_refined. cbn [length map].
           split; [rewrite versions_after_cons, Vs, V; reflexivity|].
           assert (Ht : titled story -> titled s').
           { unfold titled. destruct Ti as [->|Ti]; [auto|].
             intros _. apply truthy_nonempty. exact Ti. }
           split; [intros X; constructor; auto|].
           intros s h E. rewrite <- (L s h E). reflexivity.
        -- inversion H; subst. exists [EvJudged (Z.of_nat i + 1) story fb].
           split; [rewrite T2; exact T1|]. split; [reflexivity|].
           split; [constructor|]. discriminate.
      * destruct (IH _ _ _ _ _ H) as (tr & T3 & Vs & Fs & L).
        exists (EvJudged (Z.of_nat i + 1) story fb :: tr).
        split; [rewrite T3, T1, <- !app_assoc; reflexivity|].
        rewrite stories_in_judged. auto.
Qed.

(** ** Answers at the prompt of the choice mode *)

Lemma spent_bounds n w w' :
  spent n w w' ->
  service w' = service w /\
  exists reqs naps,
    requests w' = requests w ++ reqs /\ sleeps w' = sleeps w ++ naps /\
    length reqs <= 3 * n /\ length naps <= 2 * n /\
    Forall (fun q => q = (3 # 2)%Q \/ q = 3%Q) naps.
Proof.
  intros (Sv & reqs & naps & Rq & Nq & Lr & Ln & F).
  split; [exact Sv|]. exists reqs, naps. repeat split; auto.
Qed.

Lemma invalid_answer_inv line :
  invalid_answer line ->
  mem (Py.lower (Py.strip line)) ["quit"; "q"; "exit"] = false /\
  mem (Py.lower (Py.strip line)) ["1"; "2"] = false.
Proof.
  unfold invalid_answer, mem. cbn [existsb]. intros H.
  repeat (apply orb_false_iff in H; destruct H as (? & H)).
  split; repeat (apply orb_false_iff; split); auto.
Qed.

Lemma read_pick_skip : forall junk lines,
  Forall invalid_answer junk -> read_pick (junk ++ lines) = read_pick lines.
Proof.
  induction junk as [|l junk IH]; intros lines F; [reflexivity|].
  inversion F as [|? ? Hl Hj]; subst.
  destruct (invalid_answer_inv _ Hl) as (Q & P).
  cbn [app read_pick]. rewrite Q, P. apply IH. exact Hj.
Qed.

Lemma read_pick_eof junk : Forall invalid_answer junk -> read_pick junk = (Raise EOFError, []).
Proof.
  intros F. rewrite <- (app_nil_r junk). rewrite read_pick_skip; [reflexivity|exact F].
Qed.

(** What a run of the choice loop returns, read off its trace. *)
Lemma choice_run_result steps cur tr r :
  choice_run steps cur tr r ->
  length (committed_in tr) <= length steps /\
  match r with
  | Ok s =>
      title s = title cur /\
      version s = (version cur + Z.of_nat (length (committed_in tr)))%Z /\
      last (cur :: map snd (committed_in tr)) = Some s
  | Raise e => e = EOFError \/ gateway_exhausted e
  end.
Proof.
  induction 1.
  - cbn. split; [lia|]. split; [reflexivity|]. split; [lia|reflexivity].
  - cbn. split; [lia|]. right. assumption.
  - cbn. split; [lia|]. split; [reflexivity|]. split; [lia|reflexivity].
  - cbn. split; [lia|]. left. reflexivity.
  - cbn. split; [lia|]. right. assumption.
  - cbn. split; [lia|]. split; [reflexivity|]. split; [lia|reflexivity].
  - destruct IHchoice_run as (L & R).
    change (committed_in (EvProposed step c1 c2 :: EvContinuation step c ""
                            :: EvCommitted step (commit cur c "") :: tr))
      with ((step, commit cur c "") :: committed_in tr).
    cbn [length map snd].
    split; [lia|]. destruct r as [s|e]; [|exact R].
    destruct R as (Ti & V & La). cbn [title version commit] in Ti, V.
    split; [exact Ti|]. split; [lia|]. exact La.
Qed.

(** ** Further properties: the two loops *)

(** X1: whatever the service does, one run of generate_and_refine_story
    sends at most 30 requests (ten gateway calls of three attempts) and
    sleeps at most 20 times, each time for 1.5 or 3 seconds; it reads no
    console input. *)
Theorem refinement_call_budget (request : StoryRequest) (w : world) :
  let w' := snd (generate_and_refine_story request w) in
  service w' = service w /\
  stdin w' = stdin w /\
  exists reqs naps,
    requests w' = requests w ++ reqs /\
    sleeps w' = sleeps w ++ naps /\
    length reqs <= 30 /\
    length naps <= 20 /\
    Forall (fun q => q = (3 # 2)%Q \/ q = 3%Q) naps.
Proof.
  cbv zeta. destruct (generate_and_refine_story request w) as [r w'] eqn:E.
  destruct (generate_and_refine_story_spent _ _ _ _ E) as (Sp & I).
  destruct (spent_bounds _ _ _ Sp) as (Sv & reqs & naps & Rq & Nq & Lr & Ln & F).
  cbn [snd]. split; [exact Sv|]. split; [exact I|].
  exists reqs, naps. repeat split; auto; lia.
Qed.

(** X2: when the service answers every request, generate_and_refine_story
    returns a Story: it raises nothing, never sleeps, and sends exactly
    one request per Story produced and one per judging round, ten at
    most. *)
Theorem reliable_service_gives_a_story (request : StoryRequest) (w : world) :
  reliable w ->
  exists s h tr reqs,
    fst (generate_and_refine_story request w) = Ok (s, h) /\
    trace (snd (generate_and_refine_story request w)) = trace w ++ tr /\
    requests (snd (generate_and_refine_story request w)) = requests w ++ reqs /\
    length reqs = length (stories_in tr) + length (judged_in tr) /\
    length reqs <= 10 /\
    sleeps (snd (generate_and_refine_story request w)) = sleeps w.
Proof.
  intros R. unfold generate_and_refine_story, bind.
  destruct (generate_story request None w) as [r1 w1] eqn:E1.
  destruct (reliable_call _ _ _ _ (calls_once_generate_story _ _) R E1)
    as ((s1 & ->) & (q1 & Q1) & N1 & R1).
  apply generate_story_run in E1.
  destruct E1 as (_ & [(s1' & Es & _ & T1)|(e & Ee & _)]); [|discriminate].
  inversion Es; subst s1'; clear Es.
  destruct (refine_loop (seq 0 MAX_REFINEMENT_ITERATIONS) request s1 [] w1) as [r w'] eqn:E2.
  pose proof (refine_loop_run _ _ _ _ _ _ _ E2) as (tr0 & T0 & Run).
  destruct (refine_loop_reliable _ _ _ _ _ _ _ R1 E2) as (s & h & tr & reqs & -> & T2 & Q2 & L2 & N2).
  assert (tr0 = tr) by (rewrite T2 in T0; eapply app_inv_head; eauto). subst tr0.
  destruct (loop_run_counts _ _ _ _ _ Run 0 5 eq_refl eq_refl) as (A & B & C).
  exists s, h, (EvDraft s1 :: tr), (q1 :: reqs). cbn [fst snd].
  split; [reflexivity|]. split; [rewrite T2, T1, <- app_assoc; reflexivity|].
  split; [rewrite Q2, Q1, <- app_assoc; reflexivity|].
  change (stories_in (EvDraft s1 :: tr)) with (s1 :: stories_in tr).
  change (judged_in (EvDraft s1 :: tr)) with (judged_in tr).
  cbn [length]. split; [lia|]. split; [|congruence].
  rewrite L2, A. lia.
Qed.

Lemma reliable_service_witness :
  exists s h,
    fst (generate_and_refine_story sample_request
           (steady_world (judge_text "8" "8" "8" "8" "8" "8") [])) = Ok (s, h).
Proof.
  destruct (reliable_service_gives_a_story sample_request
              (steady_world (judge_text "8" "8" "8" "8" "8" "8") []))
    as (s & h & _ & _ & E & _).
  - intros n. exists (Some (judge_text "8" "8" "8" "8" "8" "8")). reflexivity.
  - exists s, h. exact E.
Defined.

(** X3: the Stories a run of generate_and_refine_story produces carry the
    versions 1, 2, 3, ... in the order they are produced, and none has an
    empty title; the Story returned is the last one produced, so its
    version is the number of Stories produced. *)
Theorem produced_stories_are_numbered (request : StoryRequest) (w : world) :
  exists tr,
    trace (snd (generate_and_refine_story request w)) = trace w ++ tr /\
    map version (stories_in tr) = versions_after 0 (length (stories_in tr)) /\
    Forall titled (stories_in tr) /\
    match fst (generate_and_refine_story request w) with
    | Ok (s, h) =>
        last (stories_in tr) = Some s /\
        version s = Z.of_nat (length (stories_in tr)) /\
        title s <> ""
    | Raise _ => True
    end.
Proof.
  unfold generate_and_refine_story, bind.
  destruct (generate_story request None w) as [r1 w1] eqn:E1.
  pose proof E1 as E1'. apply generate_story_run in E1'.
  destruct E1' as (_ & [(s1 & -> & V1 & T1)|(e & -> & _ & T1)]).
  2:{ exists []. rewrite app_nil_r. cbn. repeat split; auto. }
  pose proof (generate_story_titled _ _ _ _ _ E1) as Ti1.
  destruct (refine_loop (seq 0 MAX_REFINEMENT_ITERATIONS) request s1 [] w1) as [r w'] eqn:E2.
  destruct (refine_loop_stories _ _ _ _ _ _ _ E2) as (tr & T2 & Vs & Fs & L).
  exists (EvDraft s1 :: tr). cbn [fst snd].
  change (stories_in (EvDraft s1 :: tr)) with (s1 :: stories_in tr).
  cbn [length map].
  assert (Hall : Forall titled (s1 :: stories_in tr)) by (constructor; auto).
  assert (Hv : map version (s1 :: stories_in tr)
               = versions_after 0 (S (length (stories_in tr)))).
  { cbn [map]. rewrite versions_after_cons, Vs, V1. reflexivity. }
  split; [rewrite T2, T1, <- app_assoc; reflexivity|].
  split; [exact Hv|]. split; [exact Hall|].
  destruct r as [[s h]|e]; [|exact I].
  pose proof (L s h eq_refl) as La.
  split; [exact La|].
  assert (Hin : In s (s1 :: stories_in tr)) by (apply last_in; exact La).
  split; [|rewrite List.Forall_forall in Hall; apply Hall; exact Hin].
  assert (Hlv : last (map version (s1 :: stories_in tr)) = Some (version s))
    by (rewrite last_map, La; reflexivity).
  rewrite Hv in Hlv. unfold versions_after in Hlv.
  rewrite last_map in Hlv.
  replace (S (length (stories_in tr))) with (length (stories_in tr) + 1) in Hlv by lia.
  rewrite seq_app in Hlv. cbn [seq] in Hlv. rewrite last_snoc in Hlv.
  cbn in Hlv. inversion Hlv. lia.
Qed.

(** X4: whatever the service and the user do, a run of the choice mode
    over [total_steps] steps makes at most two gateway calls per step, so
    at most 6 requests and 4 sleeps per step, and the console input it
    leaves is an end of the input it found. *)
Theorem choice_mode_call_budget (story : Story) (request : StoryRequest)
    (total_steps : nat) (w : world) :
  let w' := snd (run_interactive_choice_mode story request total_steps w) in
  service w' = service w /\
  (exists used, stdin w = used ++ stdin w') /\
  exists reqs naps,
    requests w' = requests w ++ reqs /\
    sleeps w' = sleeps w ++ naps /\
    length reqs <= 6 * total_steps /\
    length naps <= 4 * total_steps /\
    Forall (fun q => q = (3 # 2)%Q \/ q = 3%Q) naps.
Proof.
  cbv zeta. unfold run_interactive_choice_mode.
  destruct (choice_loop (seq 1 total_steps) total_steps request story w) as [r w'] eqn:E.
  destruct (choice_loop_spent _ _ _ _ _ _ _ E) as (Sp & I).
  destruct (spent_bounds _ _ _ Sp) as (Sv & reqs & naps & Rq & Nq & Lr & Ln & F).
  rewrite length_seq in Lr, Ln.
  cbn [snd]. split; [exact Sv|]. split; [exact I|].
  exists reqs, naps. repeat split; auto; lia.
Qed.

(** X5: the choice mode never changes the title; the Story it returns is
    the last one committed (the Story it was given when nothing was
    committed), and its version is the version it was given plus the
    number of commits, which is at most [total_steps].  A run that does
    not return has run out of console input or failed in the gateway. *)
Theorem choice_mode_result (story : Story) (request : StoryRequest)
    (total_steps : nat) (w : world) :
  exists tr,
    trace (snd (run_interactive_choice_mode story request total_steps w)) = trace w ++ tr /\
    length (committed_in tr) <= total_steps /\
    match fst (run_interactive_choice_mode story request total_steps w) with
    | Ok s =>
        title s = title story /\
        version s = (version story + Z.of_nat (length (committed_in tr)))%Z /\
        last (story :: map snd (committed_in tr)) = Some s
    | Raise e => e = EOFError \/ gateway_exhausted e
    end.
Proof.
  destruct (run_interactive_choice_mode_run story request total_steps w) as (tr & T & R).
  exists tr. split; [exact T|].
  destruct (choice_run_result _ _ _ _ R) as (L & Res).
  rewrite length_seq in L. split; [exact L|exact Res].
Qed.

Lemma first_step_run story request total w :
  0 < total ->
  exists rest,
    run_interactive_choice_mode story request total w =
    choice_loop (1 :: rest) total request story w.
Proof.
  intros P. destruct total as [|n]; [lia|]. exists (seq 2 n). reflexivity.
Qed.

(** X6: when the first answer the prompt accepts is a quit word (quit, q
    or exit, in any letter case, with any white space around), the choice
    mode returns the Story it was given, after the one proposal call and
    nothing else; the answers before it that the prompt does not accept
    are consumed, the lines after it are left. *)
Theorem quitting_returns_the_story (story : Story) (request : StoryRequest)
    (total_steps : nat) (w : world) (junk : list string) (line : string)
    (rest : list string) :
  0 < total_steps ->
  stdin w = junk ++ line :: rest ->
  Forall invalid_answer junk ->
  quit_word line ->
  let r := run_interactive_choice_mode story request total_steps w in
  (exists reqs, requests (snd r) = requests w ++ reqs /\ 1 <= length reqs <= 3) /\
  match fst r with
  | Ok s =>
      s = story /\ stdin (snd r) = rest /\
      exists c1 c2, trace (snd r) = trace w ++ [EvProposed 1 c1 c2]
  | Raise e => gateway_exhausted e /\ stdin (snd r) = stdin w /\ trace (snd r) = trace w
  end.
Proof.
  intros P I J Q. cbv zeta.
  destruct (run_interactive_choice_mode story request total_steps w) as [res w'] eqn:E.
  destruct (first_step_run story request total_steps w P) as (steps & Es).
  rewrite Es in E. clear Es. cbn [choice_loop fst snd] in *. unfold bind at 1 in E.
  destruct (propose_next_choices story request 1 total_steps w) as [r1 w1] eqn:E1.
  pose proof (calls_once_sends _ _ _ _ (calls_once_propose_next_choices _ _ _ _) E1) as Hs.
  apply propose_next_choices_run in E1.
  destruct E1 as (I1 & [(c1 & c2 & -> & _ & _ & T1)|(e & -> & G & T1)]).
  - unfold bind at 1 in E. unfold ask_pick in E.
    rewrite I1, I, (read_pick_skip junk (line :: rest) J) in E.
    cbn [read_pick] in E. unfold quit_word in Q. rewrite Q in E. cbn in E.
    inversion E; subst. cbn. split; [exact Hs|].
    split; [reflexivity|]. split; [reflexivity|]. eauto.
  - inversion E; subst. split; [exact Hs|]. auto.
Qed.

(** X7: when none of the lines left on the console is an answer the prompt
    accepts, the choice mode does not return: the proposal call is made,
    the lines are consumed, and the run ends with the end-of-input error
    of [input] (or with the gateway's error when the proposal call
    failed); no continuation is requested and nothing is committed. *)
Theorem unanswered_prompt_raises_eof (story : Story) (request : StoryRequest)
    (total_steps : nat) (w : world) :
  0 < total_steps ->
  Forall invalid_answer (stdin w) ->
  let r := run_interactive_choice_mode story request total_steps w in
  (exists reqs, requests (snd r) = requests w ++ reqs /\ 1 <= length reqs <= 3) /\
  ((fst r = Raise EOFError /\ stdin (snd r) = [] /\
    exists c1 c2, trace (snd r) = trace w ++ [EvProposed 1 c1 c2]) \/
   (exists e, fst r = Raise e /\ gateway_exhausted e /\
              stdin (snd r) = stdin w /\ trace (snd r) = trace w)).
Proof.
  intros P J. cbv zeta.
  destruct (run_interactive_choice_mode story request total_steps w) as [res w'] eqn:E.
  destruct (first_step_run story request total_steps w P) as (steps & Es).
  rewrite Es in E. clear Es. cbn [choice_loop fst snd] in *. unfold bind at 1 in E.
  destruct (propose_next_choices story request 1 total_steps w) as [r1 w1] eqn:E1.
  pose proof (calls_once_sends _ _ _ _ (calls_once_propose_next_choices _ _ _ _) E1) as Hs.
  apply propose_next_choices_run in E1.
  destruct E1 as (I1 & [(c1 & c2 & -> & _ & _ & T1)|(e & -> & G & T1)]).
  - unfold bind at 1 in E. unfold ask_pick in E.
    rewrite I1, (read_pick_eof _ J) in E. inversion E; subst. cbn.
    split; [exact Hs|]. left. split; [reflexivity|]. split; [reflexivity|]. eauto.
  - inversion E; subst. split; [exact Hs|]. right. eauto.
Qed.

Lemma quitting_witness :
  fst (run_interactive_choice_mode sample_story sample_request 2
         (scripted [sample_choices] ["maybe"; " QUIT "; "1"])) = Ok sample_story /\
  stdin (snd (run_interactive_choice_mode sample_story sample_request 2
                (scripted [sample_choices] ["maybe"; " QUIT "; "1"]))) = ["1"].
Proof.
  pose proof (quitting_returns_the_story sample_story sample_request 2
                (scripted [sample_choices] ["maybe"; " QUIT "; "1"])
                ["maybe"] " QUIT " ["1"]) as H.
  cbv zeta in H.
  destruct H as (_ & H).
  - lia.
  - reflexivity.
  - repeat constructor.
  - reflexivity.
  - destruct (fst (run_interactive_choice_mode sample_story sample_request 2
                     (scripted [sample_choices] ["maybe"; " QUIT "; "1"]))) eqn:E.
    + destruct H as (-> & S & _). split; [reflexivity|exact S].
    + exfalso. vm_compute in E. discriminate E.
Defined.

Lemma unanswered_prompt_witness :
  exists e,
    fst (run_interactive_choice_mode sample_story sample_request 2
           (scripted [sample_choices] ["maybe"; "3"])) = Raise e.
Proof.
  destruct (unanswered_prompt_raises_eof sample_story sample_request 2
              (scripted [sample_choices] ["maybe"; "3"])) as (_ & [(E & _)|(e & E & _)]).
  - lia.
  - repeat constructor.
  - exists EOFError. exact E.
  - exists e. exact E.
Defined.

(** ** Comma-separated lists *)

Lemma filter_cons_bool {A} (p : A -> bool) x (l : list A) :
  filter (fun y => p y) (x :: l) =
  if p x then x :: filter (fun y => p y) l else filter (fun y => p y) l.
Proof.
  rewrite filter_cons. destruct (decide (p x)) as [H|H]; destruct (p x); try reflexivity.
  - destruct H.
  - exfalso. apply H. exact I.
Qed.

Lemma split_no_sep sep : forall s,
  Forall (fun x => Py.contains_char sep x = false) (Py.split sep s).
Proof.
  induction s as [|c s IH]; [repeat constructor|].
  cbn [Py.split]. destruct (Ascii.eqb c sep) eqn:E; [constructor; [reflexivity|exact IH]|].
  destruct (Py.split sep s) as [|l ls]; [repeat constructor; cbn; rewrite E; reflexivity|].
  inversion IH; subst. constructor; [|assumption]. cbn. rewrite E. assumption.
Qed.

Lemma contains_char_lstrip c : forall s,
  Py.contains_char c s = false -> Py.contains_char c (Py.lstrip s) = false.
Proof.
  induction s as [|d s IH]; intros H; [reflexivity|].
  cbn [Py.lstrip]. destruct (Py.isspace d); [|exact H].
  cbn in H. apply orb_false_iff in H. apply IH. tauto.
Qed.

Lemma contains_char_rstrip c : forall s,
  Py.contains_char c s = false -> Py.contains_char c (Py.rstrip s) = false.
Proof.
  induction s as [|d s IH]; intros H; [reflexivity|].
  cbn in H. apply orb_false_iff in H. destruct H as (H1 & H2).
  rewrite rstrip_cons. specialize (IH H2).
  destruct (Py.rstrip s) as [|e r].
  - destruct (Py.isspace d); [reflexivity|]. cbn. rewrite H1. reflexivity.
  - cbn [Py.contains_char]. rewrite H1. exact IH.
Qed.

Lemma contains_char_strip c s :
  Py.contains_char c s = false -> Py.contains_char c (Py.strip s) = false.
Proof. intros H. apply contains_char_rstrip, contains_char_lstrip, H. Qed.

Lemma safe_split_csv_items text : Forall csv_item (safe_split_csv text).
Proof.
  unfold safe_split_csv. destruct (Py.truthy text); [|constructor].
  pose proof (split_no_sep "," text) as F.
  induction F as [|x l Hx Hl IH]; [constructor|].
  rewrite (filter_cons_bool (fun x => Py.truthy (Py.strip x))).
  destruct (Py.truthy (Py.strip x)) eqn:T; [|exact IH].
  cbn [map]. constructor; [|exact IH].
  split; [apply truthy_nonempty; exact T|]. split; [apply strip_idem|].
  apply contains_char_strip. exact Hx.
Qed.

Lemma contains_char_app c : forall a b,
  Py.contains_char c (a +:+ b) = Py.contains_char c a || Py.contains_char c b.
Proof.
  induction a as [|d a IH]; intros b; [rewrite append_nil; reflexivity|].
  rewrite append_cons. cbn. rewrite IH, orb_assoc. reflexivity.
Qed.

Lemma split_none sep : forall a, Py.contains_char sep a = false -> Py.split sep a = [a].
Proof.
  induction a as [|c a IH]; intros H; [reflexivity|].
  cbn in H. apply orb_false_iff in H. destruct H as (H1 & H2).
  cbn [Py.split]. rewrite H1, (IH H2). reflexivity.
Qed.

Lemma split_app_sep sep : forall a b,
  Py.contains_char sep a = false ->
  Py.split sep (a +:+ String sep b) = a :: Py.split sep b.
Proof.
  induction a as [|c a IH]; intros b H.
  - rewrite append_nil. cbn [Py.split]. rewrite Ascii.eqb_refl. reflexivity.
  - cbn in H. apply orb_false_iff in H. destruct H as (H1 & H2).
    rewrite append_cons. cbn [Py.split]. rewrite H1, (IH b H2). reflexivity.
Qed.

Lemma strip_padded pad x :
  all_chars Py.isspace pad = true -> Py.strip x = x -> Py.strip (pad +:+ x) = x.
Proof.
  intros P X. unfold Py.strip in *. rewrite (lstrip_app_space _ _ P). exact X.
Qed.

Lemma join_cons2 sep x y l : Py.join sep (x :: y :: l) = x +:+ sep +:+ Py.join sep (y :: l).
Proof. reflexivity. Qed.

Lemma split_join_items : forall l pad,
  l <> [] -> Forall csv_item l ->
  all_chars Py.isspace pad = true -> Py.contains_char "," pad = false ->
  map Py.strip
      (filter (fun x => Py.truthy (Py.strip x)) (Py.split "," (pad +:+ Py.join ", " l))) = l.
Proof.
  induction l as [|x l IH]; intros pad N F P C; [congruence|].
  inversion F as [|? ? (Nx & Sx & Cx) Fl]; subst.
  assert (Hx : Py.strip (pad +:+ x) = x) by (apply strip_padded; assumption).
  assert (Tx : Py.truthy (Py.strip (pad +:+ x)) = true)
    by (rewrite Hx; destruct x; [congruence|reflexivity]).
  destruct l as [|y l].
  - cbn [Py.join]. rewrite split_none; [|rewrite contains_char_app, C, Cx; reflexivity].
    rewrite (filter_cons_bool (fun x => Py.truthy (Py.strip x))), Tx.
    cbn [map]. rewrite Hx. reflexivity.
  - rewrite join_cons2.
    change (", " +:+ Py.join ", " (y :: l))
      with (String "," (" " +:+ Py.join ", " (y :: l))).
    rewrite <- append_assoc.
    rewrite split_app_sep; [|rewrite contains_char_app, C, Cx; reflexivity].
    rewrite (filter_cons_bool (fun x => Py.truthy (Py.strip x))), Tx.
    cbn [map]. rewrite Hx. f_equal.
    apply IH; [discriminate|exact Fl|reflexivity|reflexivity].
Qed.

Lemma join_items_truthy l :
  l <> [] -> Forall csv_item l -> Py.truthy (Py.join ", " l) = true.
Proof.
  intros N F. destruct l as [|x l]; [congruence|].
  inversion F as [|? ? (Nx & _) _]; subst.
  destruct x as [|c x]; [congruence|]. destruct l; [reflexivity|].
  rewrite join_cons2, append_cons. reflexivity.
Qed.

Lemma safe_split_csv_join l :
  Forall csv_item l -> safe_split_csv (Py.join ", " l) = l.
Proof.
  intros F. destruct l as [|x l]; [reflexivity|].
  unfold safe_split_csv. rewrite join_items_truthy; [|discriminate|exact F].
  rewrite <- (append_nil (Py.join ", " (x :: l))).
  apply split_join_items; [discriminate|exact F|reflexivity|reflexivity].
Qed.

(** ** The reply of the analyzer *)

Lemma strip_visible_ends s :
  starts_with visible s = true -> last_char visible s = true -> Py.strip s = s.
Proof.
  intros A B. unfold Py.strip. rewrite (lstrip_visible _ A). apply last_visible_rstrip, B.
Qed.

Lemma all_chars_app p : forall a b,
  all_chars p (a +:+ b) = all_chars p a && all_chars p b.
Proof.
  induction a as [|c a IH]; intros b; [rewrite append_nil; reflexivity|].
  rewrite append_cons. cbn. rewrite IH, andb_assoc. reflexivity.
Qed.

Lemma splitlines_no c : forall s b,
  Py.contains_char c s = false ->
  Forall (fun l => Py.contains_char c l = false) (Py.splitlines_from b s).
Proof.
  induction s as [|d s IH]; intros b H; [constructor|].
  cbn in H. apply orb_false_iff in H. destruct H as (H1 & H2).
  cbn [Py.splitlines_from].
  destruct (b && Ascii.eqb d Py.LF); [apply IH; exact H2|].
  destruct (Py.islinebreak d); [constructor; [reflexivity|apply IH; exact H2]|].
  specialize (IH false H2).
  destruct (Py.splitlines_from false s) as [|l ls].
  - constructor; [|constructor]. cbn. rewrite H1. reflexivity.
  - inversion IH; subst. constructor; [|assumption]. cbn. rewrite H1. assumption.
Qed.

Lemma parse_analyzer_lines_skip : forall lines parsed,
  Forall (fun l => Py.contains_char ":" l = false) lines ->
  parse_analyzer_lines lines parsed = Ok parsed.
Proof.
  induction lines as [|l lines IH]; intros parsed F; [reflexivity|].
  inversion F; subst. cbn [parse_analyzer_lines].
  match goal with H : Py.contains_char _ l = false |- _ => rewrite H end.
  cbn. apply IH. assumption.
Qed.

Lemma parse_analyzer_response_no_colon text :
  Py.contains_char ":" text = false -> parse_analyzer_response text = Ok ∅.
Proof.
  intros H. unfold parse_analyzer_response. apply parse_analyzer_lines_skip.
  apply splitlines_no. apply contains_char_strip. rewrite or_else_empty. exact H.
Qed.

Lemma dict_get_empty {A} key (d : A) : dict_get ∅ key d = d.
Proof. unfold dict_get. rewrite lookup_empty. reflexivity. Qed.

Lemma dict_get_insert {A} (m : gmap string A) k (v d : A) :
  dict_get (<[k := v]> m) k d = v.
Proof. unfold dict_get. rewrite lookup_insert_eq. reflexivity. Qed.

Lemma dict_get_insert_ne {A} (m : gmap string A) k k' (v d : A) :
  k <> k' -> dict_get (<[k := v]> m) k' d = dict_get m k' d.
Proof. intros N. unfold dict_get. rewrite lookup_insert_ne by exact N. reflexivity. Qed.

Lemma analyze_request_answered user_input w c :
  service w (length (requests w)) = Replied c ->
  exists w' parsed,
    parse_analyzer_response (reply_text c) = Ok parsed /\
    analyze_request user_input w =
    (Ok {| raw_input := user_input;
           category :=
             dict_get category_map
               (Py.lower (Py.strip (Py.or_else (dict_get parsed "CATEGORY" "bedtime") "bedtime")))
               BEDTIME;
           characters := safe_split_csv (dict_get parsed "CHARACTERS" "");
           themes := safe_split_csv (dict_get parsed "THEMES" "");
           setting := Py.or_else (Py.strip (dict_get parsed "SETTING" "")) "a magical land";
           tone := normalize_tone (dict_get parsed "TONE" "") |}, w').
Proof.
  intros S. unfold analyze_request, bind. rewrite call_model_cases. cbv zeta. rewrite S.
  unfold lift.
  destruct (parse_analyzer_lines_total
              (Py.splitlines (Py.strip (Py.or_else (reply_text c) ""))) ∅) as (parsed & P).
  fold (parse_analyzer_response (reply_text c)) in P.
  eexists _, parsed. split; [exact P|]. rewrite P. reflexivity.
Qed.

Lemma splitlines_line : forall a rest,
  one_line a = true ->
  Py.splitlines_from false (a +:+ String Py.LF rest) = a :: Py.splitlines_from false rest.
Proof.
  induction a as [|c a IH]; intros rest H.
  - rewrite append_nil. reflexivity.
  - unfold one_line in H. cbn [all_chars] in H. apply andb_true_iff in H.
    destruct H as (H1 & H2). apply negb_true_iff in H1.
    rewrite append_cons. cbn [Py.splitlines_from andb]. rewrite H1.
    rewrite (IH rest H2). reflexivity.
Qed.

Lemma splitlines_last : forall a,
  one_line a = true -> a <> "" -> Py.splitlines_from false a = [a].
Proof.
  induction a as [|c a IH]; intros H N; [congruence|].
  unfold one_line in H. cbn [all_chars] in H. apply andb_true_iff in H.
  destruct H as (H1 & H2). apply negb_true_iff in H1.
  cbn [Py.splitlines_from andb]. rewrite H1.
  destruct a as [|d a]; [reflexivity|].
  rewrite (IH H2); [reflexivity|discriminate].
Qed.

Lemma cut_app sep : forall a b,
  Py.contains_char sep a = false -> Py.cut sep (a +:+ String sep b) = Some (a, b).
Proof.
  induction a as [|c a IH]; intros b H.
  - rewrite append_nil. cbn. rewrite Ascii.eqb_refl. reflexivity.
  - cbn in H. apply orb_false_iff in H. destruct H as (H1 & H2).
    rewrite append_cons. cbn [Py.cut]. rewrite H1, (IH b H2). reflexivity.
Qed.

Lemma parse_analyzer_line key v rest parsed :
  Py.contains_char ":" key = false ->
  parse_analyzer_lines ((key +:+ String ":" v) :: rest) parsed =
  parse_analyzer_lines rest (<[Py.upper (Py.strip key) := Py.strip v]> parsed).
Proof.
  intros H. cbn [parse_analyzer_lines].
  rewrite contains_char_app. cbn [Py.contains_char]. rewrite Ascii.eqb_refl, orb_true_r.
  cbn [negb]. unfold Py.split1. rewrite (cut_app _ _ _ H). reflexivity.
Qed.

Lemma one_line_join : forall l,
  Forall plain_item l -> one_line (Py.join ", " l) = true.
Proof.
  induction l as [|x l IH]; intros F; [reflexivity|].
  inversion F as [|? ? (_ & Ox) Fl]; subst. destruct l as [|y l]; [exact Ox|].
  rewrite join_cons2. unfold one_line in *. rewrite !all_chars_app, Ox, (IH Fl). reflexivity.
Qed.

Lemma plain_items_csv l : Forall plain_item l -> Forall csv_item l.
Proof. intros F. eapply Forall_impl; [exact F|]. intros x (C & _). exact C. Qed.

Lemma join_items_ends : forall l,
  l <> [] -> Forall csv_item l ->
  starts_with visible (Py.join ", " l) = true /\ last_char visible (Py.join ", " l) = true.
Proof.
  induction l as [|x l IH]; intros N F; [congruence|].
  inversion F as [|? ? (Nx & Sx & _) Fl]; subst.
  destruct (stripped_starts_visible _ Sx Nx) as (A & B).
  destruct l as [|y l]; [split; assumption|].
  rewrite join_cons2. destruct (IH ltac:(discriminate) Fl) as (A' & B').
  split; [apply starts_visible_app; exact A|].
  rewrite last_char_app, last_char_app; [exact B'| |].
  - destruct (Py.join ", " (y :: l)); [discriminate|discriminate].
  - discriminate.
Qed.

Lemma strip_join_padded l :
  Forall csv_item l -> Py.strip (" " +:+ Py.join ", " l) = Py.join ", " l.
Proof.
  intros F. destruct l as [|x l]; [reflexivity|].
  apply strip_padded; [reflexivity|].
  destruct (join_items_ends (x :: l) ltac:(discriminate) F) as (A & B).
  apply strip_visible_ends; assumption.
Qed.

Lemma allowed_tone_plain tn :
  In tn allowed_tones ->
  normalize_tone tn = tn /\ Py.strip tn = tn /\ tn <> "" /\ one_line tn = true /\
  last_char visible tn = true.
Proof.
  intros H. cbn in H.
  repeat (destruct H as [<-|H]; [repeat split; try reflexivity; discriminate|]).
  destruct H.
Qed.

Lemma category_value_found c :
  dict_get category_map (Py.lower (Py.strip (Py.or_else (category_value c) "bedtime"))) BEDTIME
  = c.
Proof. destruct c; vm_compute; reflexivity. Qed.

Lemma append_nonempty_r (a b : string) : b <> "" -> a +:+ b <> "".
Proof.
  intros N. destruct a; [rewrite append_nil; exact N|rewrite append_cons; discriminate].
Qed.

Lemma analyzer_reply_lines c chs ths st tn :
  Forall plain_item chs -> Forall plain_item ths -> line_value st -> In tn allowed_tones ->
  Py.splitlines (Py.strip (analyzer_reply c chs ths st tn)) =
  [ "CATEGORY" +:+ String ":" (" " +:+ category_value c);
    "CHARACTERS" +:+ String ":" (" " +:+ Py.join ", " chs);
    "THEMES" +:+ String ":" (" " +:+ Py.join ", " ths);
    "SETTING" +:+ String ":" (" " +:+ st);
    "TONE" +:+ String ":" (" " +:+ tn) ].
Proof.
  intros Fc Ft (Ns & Ss & Os) Tn.
  destruct (allowed_tone_plain tn Tn) as (_ & St & Nt & Ot & Lt).
  assert (Hstrip : Py.strip (analyzer_reply c chs ths st tn) = analyzer_reply c chs ths st tn).
  { apply strip_visible_ends; [reflexivity|].
    unfold analyzer_reply.
    repeat (rewrite last_char_app; [|repeat apply append_nonempty_r; exact Nt]).
    exact Lt. }
  rewrite Hstrip. unfold Py.splitlines.
  assert (Shape : analyzer_reply c chs ths st tn =
    ("CATEGORY: " +:+ category_value c) +:+ String Py.LF
    (("CHARACTERS: " +:+ Py.join ", " chs) +:+ String Py.LF
    (("THEMES: " +:+ Py.join ", " ths) +:+ String Py.LF
    (("SETTING: " +:+ st) +:+ String Py.LF ("TONE: " +:+ tn))))).
  { unfold analyzer_reply. rewrite !append_assoc. reflexivity. }
  rewrite Shape.
  assert (O1 : one_line ("CATEGORY: " +:+ category_value c) = true) by (destruct c; reflexivity).
  assert (O2 : one_line ("CHARACTERS: " +:+ Py.join ", " chs) = true).
  { unfold one_line. rewrite all_chars_app. apply andb_true_iff. split; [reflexivity|].
    apply one_line_join. exact Fc. }
  assert (O3 : one_line ("THEMES: " +:+ Py.join ", " ths) = true).
  { unfold one_line. rewrite all_chars_app. apply andb_true_iff. split; [reflexivity|].
    apply one_line_join. exact Ft. }
  assert (O4 : one_line ("SETTING: " +:+ st) = true).
  { unfold one_line. rewrite all_chars_app. apply andb_true_iff. split; [reflexivity|exact Os]. }
  assert (O5 : one_line ("TONE: " +:+ tn) = true).
  { unfold one_line. rewrite all_chars_app. apply andb_true_iff. split; [reflexivity|exact Ot]. }
  rewrite (splitlines_line _ _ O1), (splitlines_line _ _ O2), (splitlines_line _ _ O3),
          (splitlines_line _ _ O4), (splitlines_last _ O5); [reflexivity|].
  apply append_nonempty_r. exact Nt.
Qed.

Lemma parse_analyzer_reply c chs ths st tn :
  Forall plain_item chs -> Forall plain_item ths -> line_value st -> In tn allowed_tones ->
  parse_analyzer_response (analyzer_reply c chs ths st tn) =
  Ok (<["TONE" := tn]>
      (<["SETTING" := st]>
       (<["THEMES" := Py.join ", " ths]>
        (<["CHARACTERS" := Py.join ", " chs]>
         (<["CATEGORY" := category_value c]> ∅))))).
Proof.
  intros Fc Ft Ls Tn. unfold parse_analyzer_response. rewrite or_else_empty.
  rewrite (analyzer_reply_lines c chs ths st tn Fc Ft Ls Tn).
  destruct Ls as (Ns & Ss & Os).
  destruct (allowed_tone_plain tn Tn) as (_ & St & Nt & Ot & Lt).
  rewrite !parse_analyzer_line by reflexivity. cbn [parse_analyzer_lines].
  rewrite (strip_join_padded chs (plain_items_csv _ Fc)).
  rewrite (strip_join_padded ths (plain_items_csv _ Ft)).
  rewrite (strip_padded " " st eq_refl Ss), (strip_padded " " tn eq_refl St).
  assert (Hc : Py.strip (" " +:+ category_value c) = category_value c)
    by (destruct c; reflexivity).
  rewrite Hc. reflexivity.
Qed.

(** ** Further properties: the request analyzer *)

Lemma analyze_request_run user_input w r w' :
  analyze_request user_input w = (r, w') ->
  trace w' = trace w /\ stdin w' = stdin w /\
  ((exists q, r = Ok q /\ raw_input q = user_input /\ In (tone q) allowed_tones /\
              setting q <> "" /\ Py.strip (setting q) = setting q /\
              Forall csv_item (characters q) /\ Forall csv_item (themes q)) \/
   (exists e, r = Raise e /\ gateway_exhausted e)).
Proof.
  unfold analyze_request, bind. intros H.
  destruct (call_model _ _ _ _ w) as [r1 w1] eqn:E.
  apply call_model_run in E. destruct E as (T & I & [(text & ->)|(e & -> & G)]).
  - unfold lift in H.
    destruct (parse_analyzer_lines_total
                (Py.splitlines (Py.strip (Py.or_else text ""))) ∅) as (parsed & P).
    fold (parse_analyzer_response text) in P. rewrite P in H. cbn in H.
    inversion H; subst; clear H. split; [exact T|]. split; [exact I|]. left.
    eexists. split; [reflexivity|]. cbn.
    split; [reflexivity|]. split; [apply normalize_tone_allowed|].
    split; [|split; [|split; apply safe_split_csv_items]].
    + unfold Py.or_else. destruct (Py.truthy _) eqn:Tr; [|discriminate].
      apply truthy_nonempty. exact Tr.
    + unfold Py.or_else. destruct (Py.truthy _); [apply strip_idem|reflexivity].
  - inversion H; subst. split; [exact T|]. split; [exact I|]. right. eauto.
Qed.

(** X8: every item safe_split_csv returns is not empty, has no outer
    white space and holds no comma; an empty text gives no item. *)
Theorem safe_split_csv_returns_clean_items (text : string) :
  Forall csv_item (safe_split_csv text) /\ safe_split_csv "" = [].
Proof. split; [apply safe_split_csv_items|reflexivity]. Qed.

(** X9: splitting undoes joining: a list of items that are not empty,
    have no outer white space and hold no comma, written with [", "]
    between the items as the prompts write it, is read back unchanged. *)
Theorem safe_split_csv_reads_back_a_joined_list (items : list string) :
  Forall csv_item items -> safe_split_csv (Py.join ", " items) = items.
Proof. apply safe_split_csv_join. Qed.

Lemma safe_split_csv_witness :
  safe_split_csv (Py.join ", " ["Olive the owl"; "a fox"]) = ["Olive the owl"; "a fox"].
Proof.
  apply (safe_split_csv_reads_back_a_joined_list ["Olive the owl"; "a fox"]).
  repeat constructor; discriminate.
Defined.

(** X10: whatever the service answers, a request analyze_request returns
    keeps the user's text, has one of the six tones, a setting that is not
    empty and has no outer white space, and characters and themes that
    are clean items; analyze_request raises only when the gateway is
    exhausted. *)
Theorem analyzed_requests_are_well_formed (user_input : string) (w : world) :
  match fst (analyze_request user_input w) with
  | Ok q =>
      raw_input q = user_input /\
      In (tone q) allowed_tones /\
      setting q <> "" /\ Py.strip (setting q) = setting q /\
      Forall csv_item (characters q) /\ Forall csv_item (themes q)
  | Raise e => gateway_exhausted e
  end.
Proof.
  destruct (analyze_request user_input w) as [r w'] eqn:E.
  apply analyze_request_run in E. cbn [fst].
  destruct E as (_ & _ & [(q & -> & H)|(e & -> & G)]); [exact H|exact G].
Qed.

(** X11: a reply without any colon (an empty or absent reply among them)
    makes analyze_request return the default request: category bedtime,
    no characters, no themes, the setting "a magical land" and the tone
    whimsical. *)
Theorem analyzer_falls_back_on_defaults (user_input : string) (w : world)
    (c : option string) :
  service w (length (requests w)) = Replied c ->
  Py.contains_char ":" (reply_text c) = false ->
  fst (analyze_request user_input w) = Ok (default_request user_input).
Proof.
  intros S N. destruct (analyze_request_answered user_input w c S) as (w' & parsed & P & E).
  rewrite E. cbn [fst]. rewrite (parse_analyzer_response_no_colon _ N) in P.
  inversion P; subst parsed. rewrite !dict_get_empty. reflexivity.
Qed.

Lemma analyzer_defaults_witness :
  fst (analyze_request "a sleepy owl" (steady_world "I cannot help with that." []))
  = Ok (default_request "a sleepy owl").
Proof.
  apply (analyzer_falls_back_on_defaults "a sleepy owl"
           (steady_world "I cannot help with that." []) (Some "I cannot help with that."));
    reflexivity.
Defined.

(** X12: a reply in the layout the analyzer is asked for is decoded field
    by field: the category, the two lists, the setting and the tone of the
    request are the ones the reply names. *)
Theorem analyzer_reply_is_decoded (user_input : string) (w : world)
    (c : StoryCategory) (chs ths : list string) (st tn : string) :
  service w (length (requests w)) = Replied (Some (analyzer_reply c chs ths st tn)) ->
  Forall plain_item chs -> Forall plain_item ths ->
  line_value st -> In tn allowed_tones ->
  fst (analyze_request user_input w) =
    Ok {| raw_input := user_input; category := c; characters := chs; themes := ths;
          setting := st; tone := tn |}.
Proof.
  intros S Fc Ft Ls Tn.
  destruct (analyze_request_answered user_input w _ S) as (w' & parsed & P & E).
  rewrite E. cbn [fst]. cbn [reply_text] in P. rewrite or_else_empty in P.
  rewrite (parse_analyzer_reply c chs ths st tn Fc Ft Ls Tn) in P.
  inversion P; subst parsed; clear P.
  destruct Ls as (Ns & Ss & Os).
  destruct (allowed_tone_plain tn Tn) as (Nt & _).
  repeat first [rewrite dict_get_insert|rewrite dict_get_insert_ne by discriminate].
  rewrite category_value_found, Nt, Ss.
  rewrite !safe_split_csv_join by (apply plain_items_csv; assumption).
  f_equal. f_equal. unfold Py.or_else. destruct st; [congruence|reflexivity].
Qed.

Lemma analyzer_reply_witness :
  fst (analyze_request "a sleepy owl"
         (steady_world (analyzer_reply FUNNY ["Olive the owl"; "a fox"] ["rest"]
                          "a quiet forest" "calming") []))
  = Ok {| raw_input := "a sleepy owl"; category := FUNNY;
          characters := ["Olive the owl"; "a fox"]; themes := ["rest"];
          setting := "a quiet forest"; tone := "calming" |}.
Proof.
  apply analyzer_reply_is_decoded.
  - reflexivity.
  - repeat constructor; discriminate.
  - repeat constructor; discriminate.
  - repeat split; discriminate.
  - cbn. auto.
Defined.

(** ** The request built from the menus, and the file name *)

Lemma build_request_run user_input chosen_category chosen_tone chosen_setting w r w' :
  build_request_from_user_choices user_input chosen_category chosen_tone chosen_setting w
    = (r, w') ->
  trace w' = trace w /\ stdin w' = stdin w /\
  ((exists q, r = Ok q /\ raw_input q = user_input /\ category q = chosen_category /\
              tone q = normalize_tone chosen_tone /\
              setting q <> "" /\ Py.strip (setting q) = setting q /\
              (Py.strip chosen_setting <> "" -> setting q = Py.strip chosen_setting) /\
              Forall csv_item (characters q) /\ Forall csv_item (themes q)) \/
   (exists e, r = Raise e /\ gateway_exhausted e)).
Proof.
  unfold build_request_from_user_choices, bind. intros H.
  destruct (analyze_request user_input w) as [r1 w1] eqn:E.
  apply analyze_request_run in E.
  destruct E as (T & I & [(q & -> & Hr & _ & Hs & Hss & Hc & Ht)|(e & -> & G)]).
  - destruct q as [ri ca ch th se to].
    cbn [raw_input setting characters themes] in *. cbn in H. inversion H; subst; clear H.
    split; [exact T|]. split; [exact I|]. left. eexists. split; [reflexivity|].
    cbn [raw_input category tone setting characters themes].
    split; [reflexivity|]. split; [reflexivity|]. split; [reflexivity|].
    unfold Py.or_else. destruct (Py.strip chosen_setting) as [|a s] eqn:Es; cbn [Py.truthy].
    + repeat split; auto. congruence.
    + repeat split; auto; try discriminate. rewrite <- Es. apply strip_idem.
  - inversion H; subst. split; [exact T|]. split; [exact I|]. right. eauto.
Qed.

Lemma apply_user_modification_run story request modification w r w' :
  apply_user_modification story request modification w = (r, w') ->
  trace w' = trace w /\ stdin w' = stdin w /\
  ((exists s, r = Ok s /\ version s = (version story + 1)%Z /\
              (title s = title story \/ title s <> "")) \/
   (exists e, r = Raise e /\ gateway_exhausted e)).
Proof.
  unfold apply_user_modification, bind. intros H.
  destruct (call_model _ _ _ _ w) as [r1 w1] eqn:E.
  apply call_model_run in E. destruct E as (T & I & [(text & ->)|(e & -> & G)]).
  - unfold lift in H.
    destruct (parse_story_response_total text (title story)) as (t & c & m & P & Ht).
    rewrite P in H. cbn in H. inversion H; subst; clear H.
    split; [exact T|]. split; [exact I|]. left. eexists. split; [reflexivity|]. cbn.
    split; [reflexivity|]. destruct Ht as [->|Ht]; [left; reflexivity|].
    right. apply truthy_nonempty. exact Ht.
  - inversion H; subst. split; [exact T|]. split; [exact I|]. right. eauto.
Qed.

Lemma menu_lookup {A} (l : list (string * A)) (k : string) (d : A) :
  dict_get (list_to_map l) k d = d \/ In (dict_get (list_to_map l) k d) (map snd l).
Proof.
  unfold dict_get. destruct ((list_to_map l : gmap string A) !! k) as [v|] eqn:E; [|left; reflexivity].
  right. apply elem_of_list_to_map_2 in E. apply list_elem_of_In in E.
  apply (in_map snd) in E. exact E.
Qed.

Lemma tone_menu_allowed k :
  In (dict_get tone_menu k "whimsical") allowed_tones.
Proof.
  destruct (menu_lookup
              [("1", "whimsical"); ("2", "exciting"); ("3", "calming");
               ("4", "humorous"); ("5", "heartwarming"); ("6", "inspiring")] k "whimsical")
    as [E|E].
  - unfold tone_menu. rewrite E. cbn. auto.
  - exact E.
Qed.

Lemma setting_menu_plain k :
  Py.strip (dict_get setting_menu k "a magical land") = dict_get setting_menu k "a magical land"
  /\ dict_get setting_menu k "a magical land" <> "".
Proof.
  unfold setting_menu.
  match goal with
  | |- context [dict_get (list_to_map ?l) k ?d] => destruct (menu_lookup l k d) as [E|E]
  end.
  - rewrite E. split; [reflexivity|discriminate].
  - cbn [map snd] in E.
    repeat (destruct E as [E|E]; [rewrite <- E; split; [reflexivity|discriminate]|]).
    destruct E.
Qed.



Lemma all_chars_impl (p q : ascii -> bool) : forall s,
  (forall c, p c = true -> q c = true) -> all_chars p s = true -> all_chars q s = true.
Proof.
  induction s as [|c s IH]; intros H A; [reflexivity|].
  cbn in A |- *. apply andb_true_iff in A. destruct A as (A1 & A2).
  rewrite (H c A1), (IH H A2). reflexivity.
Qed.







(** ** Further properties: the calls around the loops *)

(** X13: in the request build_request_from_user_choices returns, the
    category is the one the user chose and the tone is the normalized tone
    the user chose, whatever the analyzer found; the setting is the user's,
    trimmed, unless that is blank, and is never empty.  The analyzer's
    part is the characters and the themes.  The only exception is the
    gateway's. *)
Theorem user_choices_override_the_analyzer (user_input : string)
    (chosen_category : StoryCategory) (chosen_tone chosen_setting : string) (w : world) :
  match fst (build_request_from_user_choices user_input chosen_category chosen_tone
               chosen_setting w) with
  | Ok q =>
      raw_input q = user_input /\
      category q = chosen_category /\
      tone q = normalize_tone chosen_tone /\
      setting q <> "" /\ Py.strip (setting q) = setting q /\
      (Py.strip chosen_setting <> "" -> setting q = Py.strip chosen_setting) /\
      Forall csv_item (characters q) /\ Forall csv_item (themes q)
  | Raise e => gateway_exhausted e
  end.
Proof.
  destruct (build_request_from_user_choices user_input chosen_category chosen_tone
              chosen_setting w) as [r w'] eqn:E.
  apply build_request_run in E. cbn [fst].
  destruct E as (_ & _ & [(q & -> & H)|(e & -> & G)]); [exact H|exact G].
Qed.

(** X14: apply_user_modification returns a Story whose version is the
    version it was given plus 1 and whose title is the old title or a
    title that is not empty, so a title is never lost; it makes one
    gateway call, reads no console input, and raises only when the
    gateway is exhausted. *)
Theorem user_modification_bumps_the_version (story : Story) (request : StoryRequest)
    (modification : string) (w : world) :
  let r := apply_user_modification story request modification w in
  stdin (snd r) = stdin w /\
  (exists reqs, requests (snd r) = requests w ++ reqs /\ 1 <= length reqs <= 3) /\
  match fst r with
  | Ok s =>
      version s = (version story + 1)%Z /\
      (title s = title story \/ title s <> "") /\
      (title story <> "" -> title s <> "")
  | Raise e => gateway_exhausted e
  end.
Proof.
  cbv zeta.
  destruct (apply_user_modification story request modification w) as [r w'] eqn:E.
  pose proof (calls_once_sends _ _ _ _ (calls_once_apply_user_modification _ _ _) E) as Hs.
  apply apply_user_modification_run in E. cbn [fst snd].
  destruct E as (_ & I & [(s & -> & V & Ti)|(e & -> & G)]).
  - split; [exact I|]. split; [exact Hs|]. split; [exact V|]. split; [exact Ti|].
    intros N. destruct Ti as [->|Ti]; assumption.
  - split; [exact I|]. split; [exact Hs|]. exact G.
Qed.

(** X15: the request main goes on with is always built: no failure of
    the analyzer stops it.  Its category, tone and setting are the ones
    of the three menus (bedtime, whimsical and "a magical land" for an
    answer that is not on the menu), the tone is one of the six tones, and
    the analyzer never changes any of them; the characters and the themes
    are clean items, and there are none when the gateway failed. *)
Theorem main_request_is_always_built (user_input category_line tone_line setting_line : string)
    (w : world) :
  exists q,
    fst (main_request user_input category_line tone_line setting_line w) = Ok q /\
    raw_input q = user_input /\
    category q = dict_get category_menu (Py.strip category_line) BEDTIME /\
    tone q = dict_get tone_menu (Py.strip tone_line) "whimsical" /\
    In (tone q) allowed_tones /\
    setting q = dict_get setting_menu (Py.strip setting_line) "a magical land" /\
    Forall csv_item (characters q) /\ Forall csv_item (themes q) /\
    ((exists e1 e2 e3,
         service w (length (requests w)) = Failed e1 /\
         service w (S (length (requests w))) = Failed e2 /\
         service w (S (S (length (requests w)))) = Failed e3) ->
     characters q = [] /\ themes q = []).
Proof.
  unfold main_request, try_except.
  pose proof (tone_menu_allowed (Py.strip tone_line)) as Ht.
  destruct (allowed_tone_plain _ Ht) as (Hn & _).
  destruct (setting_menu_plain (Py.strip setting_line)) as (Hs & Hne).
  destruct (build_request_from_user_choices user_input
              (dict_get category_menu (Py.strip category_line) BEDTIME)
              (dict_get tone_menu (Py.strip tone_line) "whimsical")
              (dict_get setting_menu (Py.strip setting_line) "a magical land") w)
    as [r w'] eqn:E.
  pose proof E as E'. apply build_request_run in E'.
  destruct E' as (_ & _ & [(q & -> & Hr & Hc & Hto & _ & _ & Hse & Hch & Hth)|(e & -> & G)]).
  - exists q. cbn [fst]. split; [reflexivity|]. split; [exact Hr|]. split; [exact Hc|].
    rewrite Hn in Hto. split; [exact Hto|]. split; [rewrite Hto; exact Ht|].
    split; [rewrite Hse; [exact Hs|rewrite Hs; exact Hne]|].
    split; [exact Hch|]. split; [exact Hth|].
    intros (e1 & e2 & e3 & F1 & F2 & F3). exfalso.
    unfold build_request_from_user_choices, analyze_request, bind in E.
    rewrite call_model_cases in E. cbv zeta in E. rewrite F1, F2, F3 in E. discriminate.
  - eexists. cbn [fst ret]. split; [reflexivity|].
    cbn [raw_input category tone setting characters themes].
    rewrite Hn. repeat split; auto.
Qed.


(** ** Replies in the layouts the prompts ask for *)

Section Absence.

Variable fl : Re.flags.

Lemma absent_before_occurs lit x :
  occurs fl lit x = false -> absent_before fl lit x "".
Proof.
  intros O a c b E. rewrite append_empty_r. eapply occurs_false_eat; eauto.
Qed.

Lemma occurs_nil lit : occurs fl lit "" = false -> Re.eat fl lit "" = None.
Proof.
  cbn [occurs]. rewrite orb_false_r. destruct (Re.eat fl lit ""); [discriminate|reflexivity].
Qed.

(** A pattern guarded by a keyword finds nothing in a text without the
    keyword. *)
Lemma search_absent r lit s :
  guarded_by fl r lit -> occurs fl lit s = false -> Re.search fl r s = None.
Proof.
  intros G O. unfold Re.search. rewrite <- (append_empty_r s).
  rewrite (search_from_skip fl r lit "" s 0 G (absent_before_occurs lit s O)).
  cbn [Re.search_from]. rewrite G; [reflexivity|].
  apply occurs_nil. clear G. induction s as [|c s IH]; [exact O|].
  apply IH. cbn [occurs] in O. apply orb_false_iff in O. tauto.
Qed.

Lemma occurs_suffix lit : forall a b, occurs fl lit (a +:+ b) = false -> occurs fl lit b = false.
Proof.
  induction a as [|c a IH]; intros b O; [rewrite append_nil in O; exact O|].
  rewrite append_cons in O. cbn [occurs] in O. apply orb_false_iff in O. apply IH. tauto.
Qed.

Lemma occurs_prefix lit : forall a b, occurs fl lit (a +:+ b) = false -> occurs fl lit a = false.
Proof.
  induction a as [|c a IH]; intros b O.
  - rewrite append_nil in O. cbn [occurs]. rewrite orb_false_r.
    destruct (Re.eat fl lit "") eqn:E; [|reflexivity].
    apply (eat_mono fl lit "" b) in E. rewrite append_nil in E.
    destruct b; cbn [occurs] in O; rewrite E in O; discriminate.
  - rewrite append_cons in O. cbn [occurs] in O |- *.
    apply orb_false_iff in O. destruct O as (O1 & O2).
    rewrite (IH b O2), orb_false_r.
    destruct (Re.eat fl lit (String c a)) eqn:E; [|reflexivity].
    apply (eat_mono fl lit _ b) in E. rewrite append_cons in E. rewrite E in O1. discriminate.
Qed.

End Absence.

Lemma lstrip_suffix : forall s, exists a, s = a +:+ Py.lstrip s.
Proof.
  induction s as [|c s IH]; [exists ""; reflexivity|].
  cbn [Py.lstrip]. destruct (Py.isspace c); [|exists ""; reflexivity].
  destruct IH as (a & E). exists (String c a). rewrite append_cons, <- E. reflexivity.
Qed.

Lemma rstrip_prefix : forall s, exists b, s = Py.rstrip s +:+ b.
Proof.
  induction s as [|c s IH]; [exists ""; reflexivity|].
  rewrite rstrip_cons. destruct IH as (b & E). destruct (Py.rstrip s) as [|d r] eqn:R.
  - rewrite append_nil in E. destruct (Py.isspace c).
    + exists (String c s). reflexivity.
    + exists s. reflexivity.
  - exists b. rewrite append_cons, <- E. reflexivity.
Qed.

Lemma occurs_strip fl lit s : occurs fl lit s = false -> occurs fl lit (Py.strip s) = false.
Proof.
  intros O. unfold Py.strip.
  destruct (lstrip_suffix s) as (a & Ea). rewrite Ea in O. apply occurs_suffix in O.
  destruct (rstrip_prefix (Py.lstrip s)) as (b & Eb). rewrite Eb in O.
  apply occurs_prefix in O. exact O.
Qed.

Lemma occurs_head fl lit s : occurs fl lit s = false -> Re.eat fl lit s = None.
Proof.
  destruct s; cbn [occurs]; intros O; apply orb_false_iff in O; destruct O as (O & _);
    destruct (Re.eat fl lit _); try discriminate; reflexivity.
Qed.

Lemma occurs_IS lit : forall s, occurs Re.IS lit s = occurs Re.I lit s.
Proof.
  induction s as [|c s IH]; cbn [occurs]; rewrite eat_dotall; [reflexivity|].
  rewrite IH. reflexivity.
Qed.

(** A text in the storyteller's layout, whatever follows the MORAL
    label. *)
Lemma story_text_parsed t c r fallback_title :
  Py.strip t = t -> t <> "" -> all_chars not_lf t = true ->
  occurs Re.I "STORY" t = false -> occurs Re.I "MORAL" t = false ->
  Py.strip c = c -> c <> "" ->
  occurs Re.I "MORAL" c = false -> Re.eat Re.I "STORY" c = None ->
  last_char visible r = true ->
  parse_story_response
    ("TITLE: " +:+ t +:+ Py.nl +:+ "STORY:" +:+ Py.nl +:+ c +:+ Py.nl +:+ "MORAL: " +:+ r)
    fallback_title
  = Ok (t, c, Py.strip r).
Proof.
  intros St Nt Lt OSt OMt Sc Nc OMc Ec Lr.
  destruct (stripped_starts_visible _ Sc Nc) as (Vc & _).
  set (text := "TITLE: " +:+ t +:+ Py.nl +:+ "STORY:" +:+ Py.nl +:+ c +:+ Py.nl
               +:+ "MORAL: " +:+ r).
  assert (Shape1 : text = "TITLE: " +:+ t +:+ String Py.LF
            ("STORY:" +:+ Py.nl +:+ (c +:+ Py.nl) +:+ "MORAL: " +:+ r)).
  { unfold text. rewrite !append_assoc. reflexivity. }
  assert (Shape2 : text = ("TITLE: " +:+ t +:+ Py.nl +:+ "STORY:" +:+ Py.nl +:+ c +:+ Py.nl)
                          +:+ "MORAL: " +:+ r).
  { unfold text. rewrite !append_assoc. reflexivity. }
  assert (Shape3 : text = ("TITLE: " +:+ t +:+ Py.nl) +:+ "STORY:" +:+ Py.nl +:+ (c +:+ Py.nl)
                          +:+ "MORAL: " +:+ r).
  { unfold text. rewrite !append_assoc. reflexivity. }
  destruct (title_match_found t
              ("STORY:" +:+ Py.nl +:+ (c +:+ Py.nl) +:+ "MORAL: " +:+ r) St Nt Lt)
    as (m1 & E1 & G1).
  rewrite <- Shape1 in E1.
  destruct (moral_match_found
              ("TITLE: " +:+ t +:+ Py.nl +:+ "STORY:" +:+ Py.nl +:+ c +:+ Py.nl) r)
    as (m2 & E2 & G2); [|exact Lr|].
  { apply (absent_before_app Re.I "MORAL" "TITLE: "); [apply absent_before_unrelated; reflexivity|].
    apply absent_before_app; [apply absent_before_foreign; [exact OMt|reflexivity]|].
    apply (absent_before_app Re.I "MORAL" (Py.nl +:+ "STORY:" +:+ Py.nl));
      [apply absent_before_unrelated; reflexivity|].
    apply absent_before_app; [apply absent_before_foreign; [exact OMc|reflexivity]|].
    apply absent_before_unrelated; reflexivity. }
  rewrite <- Shape2 in E2.
  destruct (story_match_found ("TITLE: " +:+ t +:+ Py.nl) (c +:+ Py.nl) r) as (m3 & E3 & G3).
  { apply (absent_before_app Re.I "STORY" "TITLE: "); [apply absent_before_unrelated; reflexivity|].
    apply absent_before_app; [apply absent_before_foreign; [exact OSt|reflexivity]|].
    apply absent_before_unrelated; reflexivity. }
  { apply absent_before_app; [apply absent_before_foreign; [exact OMc|reflexivity]|].
    apply absent_before_unrelated; reflexivity. }
  { apply starts_visible_app. exact Vc. }
  rewrite <- Shape3 in E3.
  unfold parse_story_response. rewrite or_else_empty, E1, E2, E3.
  unfold group1_stripped. rewrite G1, G2, G3. cbn [exc_bind].
  rewrite St. destruct t as [|t0 t']; [contradiction|]. cbn [Py.truthy].
  rewrite (strip_line _ Sc Nc).
  destruct c as [|c0 c']; [contradiction|]. cbn [Py.truthy exc_bind].
  rewrite (story_prefix_miss _ Ec), Sc.
  rewrite (last_visible_strip _ (last_visible_lstrip _ Lr)), lstrip_idem.
  rewrite <- (last_visible_strip _ Lr). reflexivity.
Qed.

(** A text that mentions none of the three labels. *)
Lemma unlabelled_story_parsed text fallback_title :
  occurs Re.I "TITLE" text = false -> occurs Re.I "STORY" text = false ->
  occurs Re.I "MORAL" text = false ->
  parse_story_response text fallback_title = Ok (fallback_title, Py.strip text, "").
Proof.
  intros OT OS OM. unfold parse_story_response. rewrite or_else_empty.
  rewrite (search_absent Re.I Pat.title "TITLE" text
             (guarded_label "TITLE" "Title" eq_refl _) OT).
  rewrite (search_absent Re.IS Pat.moral "MORAL" text
             (guarded_label_IS "MORAL" "Moral" eq_refl _)); [|rewrite occurs_IS; exact OM].
  rewrite (search_absent Re.I Pat.story "STORY" text
             (guarded_label "STORY" "Story" eq_refl _) OS).
  cbn [exc_bind Py.truthy].
  rewrite story_prefix_miss; [rewrite strip_idem; reflexivity|].
  apply occurs_head, occurs_strip. exact OS.
Qed.

Section Greedy.

Variable fl : Re.flags.

(** A greedy quantifier takes a whole run of its class when the rest of
    the pattern matches after the run. *)
Lemma rep_greedy_run cl cs k y res : forall x lo pos,
  all_chars (Re.in_class fl cl) x = true ->
  starts_with (Re.in_class fl cl) y = false ->
  lo <= String.length x ->
  k (pos + String.length x) y cs = Some res ->
  Re.rep fl true lo None cl pos (x +:+ y) cs k = Some res.
Proof.
  induction x as [|c x IH]; intros lo pos D Y L K.
  - cbn in L. assert (lo = 0) by lia. subst lo.
    rewrite append_nil. cbn [String.length] in K. rewrite Nat.add_0_r in K.
    destruct y as [|c y].
    + rewrite rep_stop_nil. exact K.
    + rewrite rep_stop; [exact K|]. exact Y.
  - cbn [all_chars] in D. apply andb_true_iff in D. destruct D as (Dc & D).
    rewrite append_cons.
    cbn [Re.rep Re.may_repeat andb Re.dec_hi].
    rewrite Dc.
    rewrite (IH (Nat.pred lo) (S pos) D Y); [reflexivity| |].
    + cbn in L. lia.
    + cbn [String.length] in K.
      replace (S pos + String.length x) with (pos + S (String.length x)) by lia.
      exact K.
Qed.

Lemma guarded_str lit r : guarded_by fl (Re.RCat (Re.RStr lit) r) lit.
Proof. intros pos s E. unfold Re.match_at. cbn [Re.run]. rewrite E. reflexivity. Qed.

Lemma occurs_cons_unrelated d lit c s :
  Re.atom_matches fl (Re.AChar d) c = false ->
  occurs fl (String d lit) s = false ->
  occurs fl (String d lit) (String c s) = false.
Proof.
  intros M O. cbn [occurs Re.eat]. rewrite M, O. reflexivity.
Qed.

End Greedy.

Lemma dot_class_not_lf c : Re.in_class Re.I Re.dot c = not_lf c.
Proof. cbn. rewrite orb_false_r. reflexivity. Qed.

Lemma all_chars_ext (p q : ascii -> bool) : forall s,
  (forall c, p c = q c) -> all_chars p s = all_chars q s.
Proof.
  induction s as [|c s IH]; intros H; [reflexivity|].
  cbn. rewrite (H c), (IH H). reflexivity.
Qed.

Lemma at_line_end_dot y : at_line_end y = true -> starts_with (Re.in_class Re.I Re.dot) y = false.
Proof.
  destruct y as [|c y]; [reflexivity|]. cbn [at_line_end starts_with]. intros H.
  rewrite dot_class_not_lf. unfold not_lf. rewrite H. reflexivity.
Qed.

(** The labelled line [LABEL: text] is matched by the pattern of its
    label, and the group is the text up to the end of the line. *)
Lemma choice_line_run lbl a y pos cs :
  starts_with visible a = true -> all_chars not_lf a = true -> at_line_end y = true ->
  Re.run Re.I (Pat.choice lbl) pos (lbl +:+ String ":" (String " " (a +:+ y))) cs Re.accept
  = Some (pos + String.length lbl + 2 + String.length a, y, (1, a) :: cs).
Proof.
  intros V NL Y.
  change (Pat.choice lbl) with
    (Re.RCat (Re.RStr lbl)
       (Re.RCat (Re.star Re.ws)
          (Re.RCat (Re.RCls Re.colon)
             (Re.RCat (Re.star Re.ws) (Re.RGroup 1 (Re.plus Re.dot)))))).
  unfold Re.star, Re.plus. cbn [Re.run]. rewrite eat_self.
  rewrite rep_stop by reflexivity.
  change (Re.in_class Re.I Re.colon ":") with true. cbv iota.
  apply rep_ws_all. change (Py.lstrip (String " " (a +:+ y))) with (Py.lstrip (a +:+ y)).
  rewrite (lstrip_visible _ (starts_visible_app _ _ V)).
  apply rep_greedy_run.
  - rewrite (all_chars_ext _ not_lf); [exact NL|apply dot_class_not_lf].
  - apply at_line_end_dot. exact Y.
  - destruct a; [discriminate|cbn; lia].
  - unfold Re.accept. rewrite consumed_app. cbn [String.length]. f_equal. f_equal. f_equal.
    rewrite length_append. lia.
Qed.

Lemma choice_search_found lbl pre a y :
  absent_before Re.I lbl pre (lbl +:+ String ":" (String " " (a +:+ y))) ->
  Py.strip a = a -> a <> "" -> all_chars not_lf a = true -> at_line_end y = true ->
  exists m,
    Re.search Re.I (Pat.choice lbl) (pre +:+ lbl +:+ String ":" (String " " (a +:+ y))) = Some m /\
    group1_stripped m = Ok a.
Proof.
  intros A S N NL Y. destruct (stripped_starts_visible _ S N) as (V & _).
  unfold Re.search.
  rewrite (search_from_skip Re.I (Pat.choice lbl) lbl); [|apply guarded_str|exact A].
  eexists. split.
  - apply search_from_here. unfold Re.match_at.
    rewrite (choice_line_run lbl a y _ [] V NL Y). reflexivity.
  - unfold group1_stripped. cbn. rewrite S. reflexivity.
Qed.

Lemma parse_choice_reply a b :
  Py.strip a = a -> a <> "" -> all_chars not_lf a = true ->
  occurs Re.I "CHOICE_2" a = false ->
  Py.strip b = b -> b <> "" -> all_chars not_lf b = true ->
  parse_choice_proposal (choice_reply a b) = Ok (a, b).
Proof.
  intros Sa Na La Oa Sb Nb Lb.
  destruct (choice_search_found "CHOICE_1" "" a (Py.nl +:+ "CHOICE_2: " +:+ b))
    as (m1 & E1 & G1); [apply absent_before_nil|exact Sa|exact Na|exact La|reflexivity|].
  destruct (choice_search_found "CHOICE_2" ("CHOICE_1: " +:+ a +:+ Py.nl) b "")
    as (m2 & E2 & G2); [|exact Sb|exact Nb|exact Lb|reflexivity|].
  { apply (absent_before_app Re.I "CHOICE_2" "CHOICE_1: ").
    - repeat (apply absent_before_cons; [reflexivity|]). apply absent_before_nil.
    - apply absent_before_app; [apply absent_before_foreign; [exact Oa|reflexivity]|].
      apply absent_before_unrelated. reflexivity. }
  assert (Sh1 : choice_reply a b =
                "" +:+ "CHOICE_1" +:+ String ":" (String " " (a +:+ Py.nl +:+ "CHOICE_2: " +:+ b))).
  { reflexivity. }
  assert (Sh2 : choice_reply a b =
                ("CHOICE_1: " +:+ a +:+ Py.nl) +:+ "CHOICE_2"
                  +:+ String ":" (String " " (b +:+ ""))).
  { unfold choice_reply. rewrite !append_assoc, append_empty_r. reflexivity. }
  rewrite <- Sh1 in E1. rewrite <- Sh2 in E2.
  unfold parse_choice_proposal. rewrite or_else_empty, E1, E2, G1, G2. cbn [exc_bind].
  destruct a; [congruence|]. destruct b; [congruence|]. reflexivity.
Qed.

Lemma occurs_app_foreign fl lit sep y : forall x,
  occurs fl lit x = false -> foreign fl lit sep = true ->
  occurs fl lit (String sep y) = false ->
  occurs fl lit (x +:+ String sep y) = false.
Proof.
  induction x as [|c x IH]; intros O F Oy; [rewrite append_nil; exact Oy|].
  cbn [occurs] in O. apply orb_false_iff in O. destruct O as (O1 & O2).
  rewrite append_cons. cbn [occurs]. rewrite (IH O2 F Oy), orb_false_r.
  destruct (Re.eat fl lit (String c (x +:+ String sep y))) eqn:E; [|reflexivity].
  rewrite <- append_cons in E. apply eat_before_foreign in E; [|exact F].
  destruct E as (s'' & E). rewrite E in O1. discriminate.
Qed.

Lemma item_number_visible n : is_item_number n = true -> Py.isspace n = false.
Proof.
  unfold is_item_number. intros H. apply orb_true_iff in H.
  destruct H as [H|H]; apply Ascii.eqb_eq in H; subst; reflexivity.
Qed.

Lemma item_number_one_line n : is_item_number n = true -> Py.islinebreak n = false.
Proof.
  unfold is_item_number. intros H. apply orb_true_iff in H.
  destruct H as [H|H]; apply Ascii.eqb_eq in H; subst; reflexivity.
Qed.

Lemma item_mark_one_line p : is_item_mark p = true -> Py.islinebreak p = false.
Proof.
  unfold is_item_mark. intros H. apply orb_true_iff in H.
  destruct H as [H|H]; apply Ascii.eqb_eq in H; subst; reflexivity.
Qed.

Lemma item_number_not_c n :
  is_item_number n = true -> Re.atom_matches Re.I (Re.AChar "C") n = false.
Proof.
  unfold is_item_number. intros H. apply orb_true_iff in H.
  destruct H as [H|H]; apply Ascii.eqb_eq in H; subst; reflexivity.
Qed.

Lemma item_mark_not_c p :
  is_item_mark p = true -> Re.atom_matches Re.I (Re.AChar "C") p = false.
Proof.
  unfold is_item_mark. intros H. apply orb_true_iff in H.
  destruct H as [H|H]; apply Ascii.eqb_eq in H; subst; reflexivity.
Qed.

Lemma numbered_line_run n p a :
  is_item_number n = true -> is_item_mark p = true -> starts_with visible a = true ->
  Re.run Re.no_flags Pat.numbered 0 (numbered_line n p a) [] Re.accept = Some (3, a, []).
Proof.
  intros Hn Hp V. unfold numbered_line.
  change Pat.numbered with
    (Re.RCat Re.RBos
       (Re.RCat (Re.star Re.ws)
          (Re.RCat (Re.RCls [Re.AChar "1"; Re.AChar "2"])
             (Re.RCat (Re.RCls [Re.AChar ")"; Re.AChar "."]) (Re.star Re.ws))))).
  unfold Re.star. cbn [Re.run Nat.eqb].
  rewrite rep_stop; [|cbn; rewrite (item_number_visible _ Hn); reflexivity].
  assert (C1 : Re.in_class Re.no_flags [Re.AChar "1"; Re.AChar "2"] n = true).
  { cbn. rewrite orb_false_r. exact Hn. }
  assert (C2 : Re.in_class Re.no_flags [Re.AChar ")"; Re.AChar "."] p = true).
  { cbn. rewrite orb_false_r. exact Hp. }
  rewrite C1, C2. apply rep_ws_all.
  change (Py.lstrip (String " " a)) with (Py.lstrip a). rewrite (lstrip_visible _ V).
  cbn [String.length]. unfold Re.accept. f_equal. f_equal. f_equal. lia.
Qed.

Lemma numbered_line_match n p a :
  is_item_number n = true -> is_item_mark p = true -> starts_with visible a = true ->
  is_some (Re.match_ Re.no_flags Pat.numbered (numbered_line n p a)) = true.
Proof.
  intros Hn Hp V. unfold Re.match_, Re.match_at.
  rewrite (numbered_line_run n p a Hn Hp V). reflexivity.
Qed.

Lemma numbered_line_sub n p a :
  is_item_number n = true -> is_item_mark p = true -> starts_with visible a = true ->
  Re.sub Re.no_flags Pat.numbered "" (numbered_line n p a) = a.
Proof.
  intros Hn Hp V. unfold Re.sub.
  change (numbered_line n p a) with (String n (String p (String " " a))).
  cbn [Re.sub_from]. unfold Re.match_at.
  change (String n (String p (String " " a))) with (numbered_line n p a).
  rewrite (numbered_line_run n p a Hn Hp V). cbn [Re.m_end Nat.sub].
  rewrite append_nil.
  change Pat.numbered with
    (Re.RCat Re.RBos
       (Re.RCat (Re.star Re.ws)
          (Re.RCat (Re.RCls [Re.AChar "1"; Re.AChar "2"])
             (Re.RCat (Re.RCls [Re.AChar ")"; Re.AChar "."]) (Re.star Re.ws))))).
  apply sub_from_anchored. lia.
Qed.

Lemma numbered_line_strip n p a :
  is_item_number n = true -> Py.strip a = a -> a <> "" ->
  Py.strip (numbered_line n p a) = numbered_line n p a.
Proof.
  intros Hn S N. destruct (stripped_starts_visible _ S N) as (_ & L).
  apply strip_visible_ends.
  - cbn. unfold visible. rewrite (item_number_visible _ Hn). reflexivity.
  - unfold numbered_line.
    change (String n (String p (String " " a))) with (String n (String p " ") +:+ a).
    rewrite last_char_app; [exact L|exact N].
Qed.

Lemma numbered_line_one n p a :
  is_item_number n = true -> is_item_mark p = true -> one_line a = true ->
  one_line (numbered_line n p a) = true.
Proof.
  intros Hn Hp O. unfold one_line, numbered_line. cbn [all_chars].
  rewrite (item_number_one_line _ Hn), (item_mark_one_line _ Hp). exact O.
Qed.

Lemma numbered_line_plain n p a :
  is_item_number n = true -> is_item_mark p = true ->
  occurs Re.I "CHOICE_1" a = false ->
  occurs Re.I "CHOICE_1" (numbered_line n p a) = false.
Proof.
  intros Hn Hp O. unfold numbered_line.
  apply occurs_cons_unrelated; [apply item_number_not_c; exact Hn|].
  apply occurs_cons_unrelated; [apply item_mark_not_c; exact Hp|].
  apply occurs_cons_unrelated; [reflexivity|exact O].
Qed.

Lemma numbered_lines_reply n1 p1 a n2 p2 b :
  is_item_number n1 = true -> is_item_mark p1 = true ->
  is_item_number n2 = true -> is_item_mark p2 = true ->
  line_value a -> line_value b ->
  numbered_lines (numbered_reply n1 p1 a n2 p2 b) = [a; b].
Proof.
  intros N1 P1 N2 P2 (Na & Sa & Oa) (Nb & Sb & Ob).
  destruct (stripped_starts_visible _ Sa Na) as (Va & _).
  destruct (stripped_starts_visible _ Sb Nb) as (Vb & _).
  unfold numbered_lines, numbered_reply, Py.splitlines.
  change (?x +:+ Py.nl +:+ ?y) with (x +:+ String Py.LF y).
  rewrite (splitlines_line _ _ (numbered_line_one _ _ _ N1 P1 Oa)).
  rewrite (splitlines_last _ (numbered_line_one _ _ _ N2 P2 Ob)); [|discriminate].
  cbv zeta.
  rewrite !(filter_cons_bool (fun ln => Py.truthy (Py.strip ln))), filter_nil.
  rewrite !(numbered_line_strip _ _ _ N1 Sa Na), !(numbered_line_strip _ _ _ N2 Sb Nb).
  cbn [Py.truthy numbered_line map].
  change (String n1 (String p1 (String " " a))) with (numbered_line n1 p1 a).
  change (String n2 (String p2 (String " " b))) with (numbered_line n2 p2 b).
  rewrite !(numbered_line_strip _ _ _ N1 Sa Na), !(numbered_line_strip _ _ _ N2 Sb Nb).
  rewrite !(filter_cons_bool (fun ln => is_some (Re.match_ Re.no_flags Pat.numbered ln))),
          filter_nil.
  rewrite (numbered_line_match _ _ _ N1 P1 Va), (numbered_line_match _ _ _ N2 P2 Vb).
  cbn [map].
  rewrite (numbered_line_sub _ _ _ N1 P1 Va), (numbered_line_sub _ _ _ N2 P2 Vb), Sa, Sb.
  reflexivity.
Qed.

Lemma parse_numbered_reply n1 p1 a n2 p2 b :
  is_item_number n1 = true -> is_item_mark p1 = true ->
  is_item_number n2 = true -> is_item_mark p2 = true ->
  line_value a -> line_value b ->
  occurs Re.I "CHOICE_1" a = false -> occurs Re.I "CHOICE_1" b = false ->
  parse_choice_proposal (numbered_reply n1 p1 a n2 p2 b) = Ok (a, b).
Proof.
  intros N1 P1 N2 P2 La Lb Oa Ob.
  pose proof (numbered_lines_reply n1 p1 a n2 p2 b N1 P1 N2 P2 La Lb) as NL.
  assert (O : occurs Re.I "CHOICE_1" (numbered_reply n1 p1 a n2 p2 b) = false).
  { unfold numbered_reply. change (?x +:+ Py.nl +:+ ?y) with (x +:+ String Py.LF y).
    apply occurs_app_foreign; [apply numbered_line_plain; assumption|reflexivity|].
    apply occurs_cons_unrelated; [reflexivity|]. apply numbered_line_plain; assumption. }
  unfold parse_choice_proposal. rewrite or_else_empty.
  rewrite (search_absent Re.I (Pat.choice "CHOICE_1") "CHOICE_1" _ (guarded_str _ _ _) O).
  cbn [exc_bind Py.truthy negb orb].
  destruct (Re.search Re.I (Pat.choice "CHOICE_2") (numbered_reply n1 p1 a n2 p2 b)) as [m|] eqn:E2.
  - destruct (group1_stripped_ok _ _ _ _ (eq_refl : defines 1 (Pat.choice "CHOICE_2") = true) E2)
      as (g & _ & Hg).
    rewrite Hg. cbn [exc_bind]. rewrite NL. cbn.
    destruct La as (Na & _), Lb as (Nb & _).
    destruct a; [congruence|]. destruct b; [congruence|]. reflexivity.
  - cbn [exc_bind]. rewrite NL. cbn.
    destruct La as (Na & _), Lb as (Nb & _).
    destruct a; [congruence|]. destruct b; [congruence|]. reflexivity.
Qed.

Lemma dotall_class c : Re.in_class Re.IS Re.dot c = true.
Proof. reflexivity. Qed.

Lemma all_dotall x : all_chars (Re.in_class Re.IS Re.dot) x = true.
Proof. induction x as [|c x IH]; [reflexivity|]. cbn [all_chars]. rewrite IH. reflexivity. Qed.

Lemma continuation_end_miss pos s cs k :
  Re.eat Re.IS "MORAL" s = None -> Re.at_eos s = false ->
  Re.run Re.IS continuation_end pos s cs k = None.
Proof.
  intros E A. unfold continuation_end. cbn [Re.run]. rewrite E, A. reflexivity.
Qed.

Lemma continuation_end_moral pos r cs k :
  Re.run Re.IS continuation_end pos ("MORAL: " +:+ r) cs k = k pos ("MORAL: " +:+ r) cs.
Proof. reflexivity. Qed.

Lemma continuation_end_eos pos cs k :
  Re.run Re.IS continuation_end pos "" cs k = k pos "" cs.
Proof. reflexivity. Qed.

(** The group of the continuation pattern runs up to the MORAL label. *)
Lemma continuation_body_moral x r pos cs :
  absent_before Re.IS "MORAL" x ("MORAL: " +:+ r) ->
  Re.run Re.IS (Re.RCat (Re.RGroup 1 (Re.lazy_star Re.dot)) continuation_end)
         pos (x +:+ "MORAL: " +:+ r) cs Re.accept
  = Some (pos + String.length x, "MORAL: " +:+ r, (1, x) :: cs).
Proof.
  intros A. unfold Re.lazy_star. cbn [Re.run].
  rewrite rep_lazy_over.
  - apply rep_lazy_stop. rewrite continuation_end_moral.
    unfold Re.accept. rewrite consumed_app. reflexivity.
  - intros a c b E. split; [reflexivity|].
    apply continuation_end_miss; [eapply A; exact E|].
    rewrite append_cons. apply at_eos_before. discriminate.
Qed.

(** Without a MORAL label the group runs to the end of the text. *)
Lemma continuation_body_end x pos cs :
  occurs Re.IS "MORAL" x = false -> last_char visible x = true ->
  Re.run Re.IS (Re.RCat (Re.RGroup 1 (Re.lazy_star Re.dot)) continuation_end)
         pos x cs Re.accept
  = Some (pos + String.length x, "", (1, x) :: cs).
Proof.
  intros O L. unfold Re.lazy_star. cbn [Re.run].
  rewrite <- (append_empty_r x) at 1.
  rewrite rep_lazy_over.
  - rewrite rep_stop_nil, continuation_end_eos.
    unfold Re.accept. rewrite consumed_all. reflexivity.
  - intros a c b E. split; [reflexivity|]. rewrite append_empty_r.
    apply continuation_end_miss.
    + eapply occurs_false_eat; eauto.
    + rewrite E in L. apply (at_eos_inside a c b L).
Qed.

Lemma continuation_found body res :
  (forall pos cs,
      Re.run Re.IS (Re.RCat (Re.RGroup 1 (Re.lazy_star Re.dot)) continuation_end)
             pos body cs Re.accept = Some (pos + String.length (fst res), snd res,
                                           (1, fst res) :: cs)) ->
  exists m,
    Re.search Re.IS Pat.continuation ("CONTINUATION:" +:+ body) = Some m /\
    group1_stripped m = Ok (Py.strip (fst res)).
Proof.
  intros H. eexists. split.
  - unfold Re.search. apply search_from_here. unfold Re.match_at.
    change Pat.continuation with
      (Re.RCat (Re.RStr "CONTINUATION")
         (Re.RCat (Re.star Re.ws)
            (Re.RCat (Re.opt Re.colon)
               (Re.RCat (Re.RGroup 1 (Re.lazy_star Re.dot)) continuation_end)))).
    change ("CONTINUATION:" +:+ body) with ("CONTINUATION" +:+ String ":" body).
    unfold Re.star, Re.opt.
    cbn [Re.run]. rewrite eat_self.
    rewrite rep_stop by reflexivity.
    rewrite (rep_opt_take Re.IS _ _ _ _ _ _
               (S (0 + String.length "CONTINUATION") + String.length (fst res), snd res,
                [(1, fst res)]));
      [reflexivity|reflexivity|apply H].
  - reflexivity.
Qed.

Lemma closing_moral_found pre m :
  absent_before Re.IS "MORAL" pre ("MORAL: " +:+ m) ->
  exists mm,
    Re.search Re.IS Pat.closing_moral (pre +:+ "MORAL: " +:+ m) = Some mm /\
    group1_stripped mm = Ok (Py.strip (" " +:+ m)).
Proof.
  intros A. unfold Re.search.
  rewrite (search_from_skip Re.IS Pat.closing_moral "MORAL"); [|apply guarded_str|exact A].
  eexists. split.
  - apply search_from_here. unfold Re.match_at.
    change Pat.closing_moral with
      (Re.RCat (Re.RStr "MORAL")
         (Re.RCat (Re.star Re.ws)
            (Re.RCat (Re.opt Re.colon)
               (Re.RCat (Re.RGroup 1 (Re.star Re.dot)) Re.REos)))).
    change ("MORAL: " +:+ m) with ("MORAL" +:+ String ":" (" " +:+ m)).
    unfold Re.star, Re.opt.
    cbn [Re.run]. rewrite eat_self.
    rewrite rep_stop by reflexivity.
    rewrite (rep_opt_take Re.IS _ _ _ _ _ _
               (S (0 + String.length pre + String.length "MORAL") + String.length (" " +:+ m),
                "", [(1, " " +:+ m)]));
      [reflexivity|reflexivity|].
    rewrite <- (append_empty_r (" " +:+ m)) at 1.
    apply rep_greedy_run; [apply all_dotall|reflexivity|lia|].
    cbn [Re.at_eos]. unfold Re.accept. rewrite consumed_all. reflexivity.
  - reflexivity.
Qed.

Lemma continuation_prefix_miss x :
  Re.eat Re.I "CONTINUATION" x = None -> Re.sub Re.I Pat.continuation_prefix "" x = x.
Proof.
  intros E.
  change Pat.continuation_prefix with
    (Re.RCat Re.RBos
       (Re.RCat (Re.RStr "CONTINUATION") (Re.RCat (Re.star Re.ws) (Re.opt Re.colon)))).
  apply sub_anchored_miss. unfold Re.match_at. cbn [Re.run Nat.eqb]. rewrite E. reflexivity.
Qed.

Lemma strip_between_lines c :
  Py.strip c = c -> c <> "" -> Py.strip (Py.nl +:+ c +:+ Py.nl) = c.
Proof.
  intros S N. unfold Py.strip.
  rewrite (lstrip_app_space Py.nl (c +:+ Py.nl) eq_refl).
  apply (strip_line c S N).
Qed.

Lemma parse_continuation_reply_final c m :
  Py.strip c = c -> c <> "" -> occurs Re.I "MORAL" c = false ->
  Re.eat Re.I "CONTINUATION" c = None -> Py.strip m = m ->
  parse_continuation_response (continuation_reply c (Some m)) = Ok (c, m).
Proof.
  intros Sc Nc Oc Ec Sm.
  assert (Ab : absent_before Re.IS "MORAL" (Py.nl +:+ c +:+ Py.nl) ("MORAL: " +:+ m)).
  { apply absent_before_IS.
    apply (absent_before_app Re.I "MORAL" Py.nl); [apply absent_before_unrelated; reflexivity|].
    apply absent_before_app; [apply absent_before_foreign; [exact Oc|reflexivity]|].
    apply absent_before_unrelated. reflexivity. }
  destruct (continuation_found ((Py.nl +:+ c +:+ Py.nl) +:+ "MORAL: " +:+ m)
              (Py.nl +:+ c +:+ Py.nl, "MORAL: " +:+ m)) as (m1 & E1 & G1).
  { intros pos cs. apply continuation_body_moral. exact Ab. }
  destruct (closing_moral_found ("CONTINUATION:" +:+ Py.nl +:+ c +:+ Py.nl) m)
    as (m2 & E2 & G2).
  { apply (absent_before_app Re.IS "MORAL" "CONTINUATION:");
      [apply absent_before_unrelated; reflexivity|exact Ab]. }
  assert (Sh1 : continuation_reply c (Some m) =
                "CONTINUATION:" +:+ (Py.nl +:+ c +:+ Py.nl) +:+ "MORAL: " +:+ m).
  { unfold continuation_reply. rewrite !append_assoc. reflexivity. }
  assert (Sh2 : continuation_reply c (Some m) =
                ("CONTINUATION:" +:+ Py.nl +:+ c +:+ Py.nl) +:+ "MORAL: " +:+ m).
  { unfold continuation_reply. rewrite !append_assoc. reflexivity. }
  rewrite <- Sh1 in E1. rewrite <- Sh2 in E2.
  unfold parse_continuation_response. rewrite or_else_empty, E1, E2, G1, G2.
  cbn [exc_bind fst]. rewrite (strip_between_lines c Sc Nc).
  destruct c as [|c0 c']; [congruence|]. cbn [Py.truthy].
  rewrite (continuation_prefix_miss _ Ec), Sc, (strip_padded " " m eq_refl Sm). reflexivity.
Qed.

Lemma parse_continuation_reply_open c :
  Py.strip c = c -> c <> "" -> occurs Re.I "MORAL" c = false ->
  Re.eat Re.I "CONTINUATION" c = None ->
  parse_continuation_response (continuation_reply c None) = Ok (c, "").
Proof.
  intros Sc Nc Oc Ec.
  destruct (stripped_starts_visible _ Sc Nc) as (_ & Lc).
  assert (Sh : continuation_reply c None = "CONTINUATION:" +:+ (Py.nl +:+ c)).
  { unfold continuation_reply. rewrite append_empty_r. reflexivity. }
  destruct (continuation_found (Py.nl +:+ c) (Py.nl +:+ c, "")) as (m1 & E1 & G1).
  { intros pos cs. apply continuation_body_end.
    - rewrite occurs_IS. apply occurs_cons_unrelated; [reflexivity|exact Oc].
    - destruct c; [congruence|exact Lc]. }
  rewrite <- Sh in E1.
  assert (O : occurs Re.IS "MORAL" (continuation_reply c None) = false).
  { rewrite Sh, occurs_IS.
    change ("CONTINUATION:" +:+ (Py.nl +:+ c))
      with (String "C" (String "O" (String "N" (String "T" (String "I" (String "N"
           (String "U" (String "A" (String "T" (String "I" (String "O" (String "N"
           (String ":" (String Py.LF c)))))))))))))).
    repeat (apply occurs_cons_unrelated; [reflexivity|]). exact Oc. }
  unfold parse_continuation_response. rewrite or_else_empty, E1, G1.
  rewrite (search_absent Re.IS Pat.closing_moral "MORAL" _ (guarded_str _ _ _) O).
  cbn [exc_bind fst].
  assert (St : Py.strip (Py.nl +:+ c) = c).
  { unfold Py.strip. rewrite (lstrip_app_space Py.nl c eq_refl). exact Sc. }
  rewrite St. destruct c as [|c0 c']; [congruence|]. cbn [Py.truthy].
  rewrite (continuation_prefix_miss _ Ec), Sc. reflexivity.
Qed.

Lemma parse_unlabelled_continuation text :
  occurs Re.I "CONTINUATION" text = false -> occurs Re.I "MORAL" text = false ->
  parse_continuation_response text = Ok (Py.strip text, "").
Proof.
  intros OC OM. unfold parse_continuation_response. rewrite or_else_empty.
  rewrite (search_absent Re.IS Pat.continuation "CONTINUATION" text (guarded_str _ _ _));
    [|rewrite occurs_IS; exact OC].
  rewrite (search_absent Re.IS Pat.closing_moral "MORAL" text (guarded_str _ _ _));
    [|rewrite occurs_IS; exact OM].
  cbn [exc_bind Py.truthy].
  rewrite continuation_prefix_miss; [rewrite strip_idem; reflexivity|].
  apply occurs_head, occurs_strip. exact OC.
Qed.

Lemma occurs_all_foreign fl lit : forall s,
  lit <> "" -> all_chars (foreign fl lit) s = true -> occurs fl lit s = false.
Proof.
  intros s N. destruct lit as [|d lit]; [congruence|].
  induction s as [|c s IH]; intros A; [reflexivity|].
  cbn [all_chars] in A. apply andb_true_iff in A. destruct A as (A1 & A2).
  cbn [occurs Re.eat]. rewrite (IH A2), orb_false_r.
  cbn [foreign all_chars] in A1. apply andb_true_iff in A1. destruct A1 as (A1 & _).
  apply negb_true_iff in A1. rewrite A1. reflexivity.
Qed.

Lemma occurs_cons_foreign fl lit c s :
  lit <> "" -> foreign fl lit c = true -> occurs fl lit s = false ->
  occurs fl lit (String c s) = false.
Proof.
  intros N F O. destruct lit as [|d lit]; [congruence|].
  apply occurs_cons_unrelated; [|exact O].
  cbn [foreign all_chars] in F. apply andb_true_iff in F. destruct F as (F & _).
  apply negb_true_iff in F. exact F.
Qed.

Lemma separators_complete c :
  Py.isdigit c || Py.isspace c = true -> In c separators.
Proof.
  intros H. destruct c as [[] [] [] [] [] [] [] []]; try discriminate H;
    vm_compute; repeat (first [left; reflexivity|right]).
Qed.

Lemma lettered_foreign kw c :
  lettered kw = true -> Py.isdigit c || Py.isspace c = true -> foreign Re.I kw c = true.
Proof.
  unfold lettered. intros L H. apply andb_true_iff in L. destruct L as (_ & L).
  rewrite forallb_forall in L. apply L. apply separators_complete. exact H.
Qed.

Lemma lettered_nonempty kw : lettered kw = true -> kw <> "".
Proof.
  unfold lettered. intros L. apply andb_true_iff in L. destruct L as (L & _).
  apply truthy_nonempty. exact L.
Qed.

Lemma score_digits v :
  (1 <= v <= 10)%Z ->
  all_chars Py.isdigit (Py.str_of_int v) = true /\ Py.str_of_int v <> "" /\
  clamp_int (Py.str_of_int v) 1 10 5 = v.
Proof.
  intros H.
  assert (C : (v = 1 \/ v = 2 \/ v = 3 \/ v = 4 \/ v = 5 \/ v = 6 \/ v = 7 \/ v = 8
               \/ v = 9 \/ v = 10)%Z) by lia.
  repeat (destruct C as [->|C]; [repeat split; discriminate|]).
  subst v. repeat split; discriminate.
Qed.

Lemma digits_foreign kw d :
  lettered kw = true -> all_chars Py.isdigit d = true -> all_chars (foreign Re.I kw) d = true.
Proof.
  intros L D. eapply all_chars_impl; [|exact D].
  intros c H. apply (lettered_foreign kw c L). rewrite H. reflexivity.
Qed.

(** A lettered keyword that is not in the label of a score line is not
    in the line. *)
Lemma occurs_score_line kw l v rest :
  lettered kw = true -> (1 <= v <= 10)%Z ->
  occurs Re.I kw (score_text l +:+ ":") = false ->
  occurs Re.I kw rest = false ->
  occurs Re.I kw (score_line l v rest) = false.
Proof.
  intros L V O R. pose proof (lettered_nonempty kw L) as N.
  destruct (score_digits v V) as (D & _ & _).
  assert (Sh : score_line l v rest =
               (score_text l +:+ ":") +:+ String " " (Py.str_of_int v +:+ String Py.LF rest)).
  { unfold score_line. rewrite !append_assoc. reflexivity. }
  rewrite Sh.
  apply occurs_app_foreign; [exact O|apply (lettered_foreign kw " " L); reflexivity|].
  apply occurs_cons_foreign; [exact N|apply (lettered_foreign kw " " L); reflexivity|].
  apply occurs_app_foreign.
  - apply occurs_all_foreign; [exact N|]. apply digits_foreign; assumption.
  - apply (lettered_foreign kw Py.LF L). reflexivity.
  - apply occurs_cons_foreign; [exact N|apply (lettered_foreign kw Py.LF L); reflexivity|exact R].
Qed.

(** The score of a line is found when its keyword is not in the text
    before the line. *)
Lemma find_score_line l pre v rest :
  (1 <= v <= 10)%Z -> occurs Re.I (score_keyword l) pre = false ->
  find_score (pre +:+ score_line l v rest) (score_pattern l) 5 = Ok v.
Proof.
  intros V O. destruct (score_digits v V) as (D & N & C).
  assert (Sh : pre +:+ score_line l v rest =
               pre +:+ score_text l +:+ ": " +:+ Py.str_of_int v +:+ (Py.nl +:+ rest)).
  { reflexivity. }
  rewrite Sh, (find_score_located l pre (score_text l) ": " (Py.str_of_int v) (Py.nl +:+ rest));
    [rewrite C; reflexivity|exact O|reflexivity|reflexivity|exact D|exact N|reflexivity].
Qed.

Lemma suggestions_marker_miss pos s cs k :
  Re.eat Re.IS "SUGGESTIONS" s = None -> Re.run Re.IS Pat.suggestions_marker pos s cs k = None.
Proof.
  intros E. unfold Pat.suggestions_marker, Pat.label. cbn [Re.cat Re.run].
  rewrite (eat_ci_IS "Suggestions" "SUGGESTIONS" s eq_refl), E. reflexivity.
Qed.

Lemma suggestions_marker_hit pos r cs :
  Re.run Re.IS Pat.suggestions_marker pos ("SUGGESTIONS:" +:+ r) cs Re.accept =
  Some (pos + 12, r, cs).
Proof.
  change ("SUGGESTIONS:" +:+ r) with ("SUGGESTIONS" +:+ String ":" r).
  unfold Pat.suggestions_marker. cbn [Re.cat Re.run Re.star].
  apply heads_label_IS. rewrite rep_stop; [|reflexivity]. cbn.
  replace (S (pos + 11)) with (pos + 12) by lia. reflexivity.
Qed.

Lemma feedback_body_run x r pos cs :
  absent_before Re.IS "SUGGESTIONS" x ("SUGGESTIONS:" +:+ r) ->
  Re.run Re.IS feedback_body pos (x +:+ "SUGGESTIONS:" +:+ r) cs Re.accept =
  Some (pos + String.length x, "SUGGESTIONS:" +:+ r, (1, x) :: cs).
Proof.
  intros A. unfold feedback_body, Re.lazy_star. cbn [Re.run].
  rewrite rep_lazy_over.
  - apply rep_lazy_stop. rewrite suggestions_marker_hit. cbn [Re.first_of].
    unfold Re.accept. rewrite consumed_app. reflexivity.
  - intros a c b E. split; [reflexivity|].
    rewrite suggestions_marker_miss; [|eapply A; exact E].
    rewrite append_cons. rewrite at_eos_before; [reflexivity|discriminate].
Qed.

Lemma feedback_match_found pre f r :
  absent_before Re.IS "FEEDBACK" pre ("FEEDBACK: " +:+ (f +:+ Py.nl) +:+ "SUGGESTIONS:" +:+ r) ->
  Py.strip f = f -> f <> "" -> occurs Re.I "SUGGESTIONS" f = false ->
  exists m,
    Re.search Re.IS Pat.feedback
      (pre +:+ "FEEDBACK: " +:+ (f +:+ Py.nl) +:+ "SUGGESTIONS:" +:+ r) = Some m /\
    group1_stripped m = Ok f.
Proof.
  intros A S N O. destruct (stripped_starts_visible _ S N) as (V & _).
  unfold Re.search.
  rewrite (search_from_skip Re.IS Pat.feedback "FEEDBACK");
    [|apply (guarded_label_IS "FEEDBACK" "Feedback" eq_refl)|exact A].
  eexists. split.
  - apply search_from_here. unfold Re.match_at.
    change Pat.feedback with
      (Re.RCat (Pat.label "FEEDBACK" "Feedback")
         (Re.RCat (Re.star Re.ws)
            (Re.RCat (Re.opt Re.colon) (Re.RCat (Re.star Re.ws) feedback_body)))).
    change ("FEEDBACK: " +:+ (f +:+ Py.nl) +:+ "SUGGESTIONS:" +:+ r)
      with ("FEEDBACK" +:+ (": " +:+ ((f +:+ Py.nl) +:+ "SUGGESTIONS:" +:+ r))).
    cbn [Re.run].
    rewrite (heads_label_IS "FEEDBACK" "Feedback" _ _ [] _
               (0 + String.length pre + 8 + 2 + String.length (f +:+ Py.nl),
                "SUGGESTIONS:" +:+ r, [(1, f +:+ Py.nl)])).
    + reflexivity.
    + apply (separator_run Re.IS feedback_body ": ");
        [reflexivity|apply starts_visible_app, starts_visible_app; exact V|discriminate|].
      apply feedback_body_run.
      apply absent_before_IS.
      apply absent_before_app; [apply absent_before_foreign; [exact O|reflexivity]|].
      apply absent_before_unrelated. reflexivity.
  - unfold group1_stripped. cbn [Re.group Re.m_caps Re.cap_lookup Nat.eqb exc_bind].
    rewrite (strip_line f S N). reflexivity.
Qed.

Lemma suggestions_match_found pre x :
  absent_before Re.IS "SUGGESTIONS" pre ("SUGGESTIONS:" +:+ Py.nl +:+ x) ->
  starts_with visible x = true -> last_char visible x = true ->
  exists m,
    Re.search Re.IS Pat.suggestions (pre +:+ "SUGGESTIONS:" +:+ Py.nl +:+ x) = Some m /\
    group1_stripped m = Ok x.
Proof.
  intros A V L. unfold Re.search.
  rewrite (search_from_skip Re.IS Pat.suggestions "SUGGESTIONS");
    [|apply (guarded_label_IS "SUGGESTIONS" "Suggestions" eq_refl)|exact A].
  eexists. split.
  - apply search_from_here. unfold Re.match_at.
    change Pat.suggestions with
      (Re.RCat (Pat.label "SUGGESTIONS" "Suggestions")
         (Re.RCat (Re.star Re.ws)
            (Re.RCat (Re.opt Re.colon) (Re.RCat (Re.star Re.ws) moral_body)))).
    change ("SUGGESTIONS:" +:+ Py.nl +:+ x)
      with ("SUGGESTIONS" +:+ (String ":" Py.nl +:+ x)).
    cbn [Re.run].
    rewrite (heads_label_IS "SUGGESTIONS" "Suggestions" _ _ [] _
               (0 + String.length pre + 11 + 2 + String.length x, "", [(1, x)])).
    + reflexivity.
    + apply (separator_run Re.IS moral_body (String ":" Py.nl));
        [reflexivity|exact V|discriminate|].
      apply moral_body_run. exact L.
  - unfold group1_stripped. cbn [Re.group Re.m_caps Re.cap_lookup Nat.eqb exc_bind].
    rewrite (strip_visible_ends x V L). reflexivity.
Qed.

Lemma judge_reply_split l fb :
  judge_reply fb = scores_before l fb +:+ score_line l (score_field l fb) (scores_after l fb).
Proof.
  destruct l; unfold judge_reply, scores_before, scores_after, score_field, judge_remarks,
    score_line; rewrite ?append_assoc; reflexivity.
Qed.

Lemma judge_reply_remarks fb : judge_reply fb = all_score_lines fb "" +:+ judge_remarks fb.
Proof.
  unfold judge_reply, all_score_lines, judge_remarks, score_line.
  rewrite ?append_assoc. reflexivity.
Qed.

Lemma scores_before_plain l fb :
  scores_in_range fb -> occurs Re.I (score_keyword l) (scores_before l fb) = false.
Proof.
  intros (V1 & V2 & V3 & V4 & V5 & V6).
  destruct l; unfold scores_before, score_keyword;
    repeat (apply occurs_score_line; [reflexivity|assumption|reflexivity|]); reflexivity.
Qed.

Lemma all_score_lines_plain kw fb tail :
  lettered kw = true ->
  (forall l, occurs Re.I kw (score_text l +:+ ":") = false) ->
  scores_in_range fb -> occurs Re.I kw tail = false ->
  occurs Re.I kw (all_score_lines fb tail) = false.
Proof.
  intros L O (V1 & V2 & V3 & V4 & V5 & V6) T. unfold all_score_lines.
  repeat (apply occurs_score_line; [exact L|assumption|apply O|]). exact T.
Qed.

Lemma judge_scores_found fb l :
  scores_in_range fb ->
  find_score (judge_reply fb) (score_pattern l) 5 = Ok (score_field l fb).
Proof.
  intros R. rewrite (judge_reply_split l fb).
  apply find_score_line; [|apply scores_before_plain; exact R].
  destruct R as (V1 & V2 & V3 & V4 & V5 & V6). destruct l; assumption.
Qed.

Lemma plain_dot_not_lf c : Re.in_class Re.no_flags Re.dot c = not_lf c.
Proof. cbn. rewrite orb_false_r. reflexivity. Qed.

Lemma at_line_end_plain_dot y :
  at_line_end y = true -> starts_with (Re.in_class Re.no_flags Re.dot) y = false.
Proof.
  destruct y as [|c y]; [reflexivity|]. cbn [at_line_end starts_with]. intros H.
  rewrite plain_dot_not_lf. unfold not_lf. rewrite H. reflexivity.
Qed.

Lemma bullet_line_run s y pos :
  starts_with visible s = true -> all_chars not_lf s = true -> at_line_end y = true ->
  Re.run Re.no_flags Pat.bullet pos (String "-" (String " " (s +:+ y))) [] Re.accept
  = Some (pos + 2 + String.length s, y, [(1, s)]).
Proof.
  intros V NL Y.
  change Pat.bullet with
    (Re.RCat (Re.RCls [Re.AChar "-"; Re.AChar (Py.chr 226); Re.AChar (Py.chr 162); Re.AChar "*"])
       (Re.RCat (Re.star Re.ws) (Re.RGroup 1 (Re.plus Re.dot)))).
  unfold Re.star, Re.plus. cbn [Re.run].
  change (Re.in_class Re.no_flags
            [Re.AChar "-"; Re.AChar (Py.chr 226); Re.AChar (Py.chr 162); Re.AChar "*"] "-")
    with true. cbv iota.
  apply rep_ws_all. change (Py.lstrip (String " " (s +:+ y))) with (Py.lstrip (s +:+ y)).
  rewrite (lstrip_visible _ (starts_visible_app _ _ V)).
  apply rep_greedy_run.
  - rewrite (all_chars_ext _ not_lf); [exact NL|apply plain_dot_not_lf].
  - apply at_line_end_plain_dot. exact Y.
  - destruct s; [discriminate|cbn; lia].
  - unfold Re.accept. rewrite consumed_app. cbn [String.length]. f_equal. f_equal. f_equal.
    rewrite length_append. lia.
Qed.

Lemma findall_skip fl r : forall x n pos y,
  String.length x = n ->
  Re.findall_from fl r n pos (x +:+ y) = Re.findall_from fl r 0 (pos + n) y.
Proof.
  induction x as [|c x IH]; intros n pos y L.
  - cbn in L. subst n. rewrite append_nil, Nat.add_0_r. reflexivity.
  - cbn in L. subst n. rewrite append_cons. cbn [Re.findall_from Nat.pred].
    rewrite (IH (String.length x) (S pos) y eq_refl). f_equal. lia.
Qed.

Lemma findall_from_hit fl r pos c s m :
  Re.match_at fl r pos (String c s) = Some m ->
  Re.findall_from fl r 0 pos (String c s) =
  match Re.cap_lookup 1 (Re.m_caps m) with
  | Some g => g
  | None => ""
  end :: Re.findall_from fl r (Nat.pred (Re.m_end m - pos)) (S pos) s.
Proof.
  intros H. destruct s; cbn [Re.findall_from]; rewrite H; reflexivity.
Qed.

Lemma findall_from_miss fl r pos c s :
  Re.match_at fl r pos (String c s) = None ->
  Re.findall_from fl r 0 pos (String c s) = Re.findall_from fl r 0 (S pos) s.
Proof.
  intros H. destruct s; cbn [Re.findall_from]; rewrite H; reflexivity.
Qed.

Lemma findall_bullet_line s y pos :
  starts_with visible s = true -> all_chars not_lf s = true -> at_line_end y = true ->
  Re.findall_from Re.no_flags Pat.bullet 0 pos (String "-" (String " " (s +:+ y)))
  = s :: Re.findall_from Re.no_flags Pat.bullet 0 (pos + 2 + String.length s) y.
Proof.
  intros V NL Y.
  erewrite findall_from_hit;
    [|unfold Re.match_at; rewrite (bullet_line_run s y pos V NL Y); reflexivity].
  cbn [Re.m_end Re.m_caps Re.cap_lookup Nat.eqb]. f_equal.
  replace (Nat.pred (pos + 2 + String.length s - pos)) with (String.length (String " " s))
    by (cbn [String.length]; lia).
  change (String " " (s +:+ y)) with (String " " s +:+ y).
  rewrite (findall_skip _ _ (String " " s) _ (S pos) y eq_refl). f_equal.
  cbn [String.length]. lia.
Qed.

Lemma bullet_lines_cons s t l :
  bullet_lines (s :: t :: l) = String "-" (String " " (s +:+ String Py.LF (bullet_lines (t :: l)))).
Proof. reflexivity. Qed.

Lemma findall_bullets : forall l pos,
  l <> [] -> Forall bullet_item l ->
  Re.findall_from Re.no_flags Pat.bullet 0 pos (bullet_lines l) = l.
Proof.
  induction l as [|s l IH]; intros pos N F; [congruence|].
  inversion F as [|? ? (Ns & Ss & Ls) Fl]; subst.
  destruct (stripped_starts_visible _ Ss Ns) as (V & _).
  destruct l as [|t l].
  - change (bullet_lines [s]) with (String "-" (String " " s)).
    rewrite <- (append_empty_r s) at 1.
    rewrite (findall_bullet_line s "" pos V Ls eq_refl). reflexivity.
  - rewrite bullet_lines_cons.
    rewrite (findall_bullet_line s (String Py.LF (bullet_lines (t :: l))) pos V Ls eq_refl).
    f_equal.
    rewrite findall_from_miss; [apply IH; [discriminate|exact Fl]|reflexivity].
Qed.

Lemma bullet_lines_ends l :
  l <> [] -> Forall bullet_item l ->
  starts_with visible (bullet_lines l) = true /\ last_char visible (bullet_lines l) = true.
Proof.
  intros N F. destruct l as [|s l]; [congruence|]. split.
  - destruct l; reflexivity.
  - clear N. revert s F. induction l as [|t l IH]; intros s F.
    + inversion F as [|? ? (Ns & Ss & _) _]; subst.
      destruct (stripped_starts_visible _ Ss Ns) as (_ & L).
      change (bullet_lines [s]) with ("- " +:+ s). rewrite last_char_app; assumption.
    + inversion F as [|? ? _ Fl]; subst. specialize (IH t Fl).
      rewrite bullet_lines_cons.
      assert (Hx : exists r, bullet_lines (t :: l) = String "-" r)
        by (destruct l; eexists; reflexivity).
      destruct Hx as (r & Hx). rewrite Hx in IH |- *.
      change (String "-" (String " " (s +:+ String Py.LF (String "-" r))))
        with ("- " +:+ (s +:+ String Py.LF (String "-" r))).
      rewrite last_char_app by (apply append_nonempty_r; discriminate).
      rewrite last_char_app by discriminate.
      rewrite last_char_cons. exact IH.
Qed.

Lemma clean_items_kept : forall l,
  Forall bullet_item l ->
  map Py.strip (filter (fun s => Py.truthy (Py.strip s)) l) = l.
Proof.
  induction l as [|s l IH]; intros F; [reflexivity|].
  inversion F as [|? ? (Ns & Ss & _) Fl]; subst.
  rewrite (filter_cons_bool (fun s => Py.truthy (Py.strip s))), Ss.
  destruct s as [|c s]; [congruence|]. cbn [Py.truthy map]. rewrite Ss, (IH Fl). reflexivity.
Qed.

Lemma parse_judge_reply fb :
  scores_in_range fb ->
  Py.strip (feedback fb) = feedback fb -> feedback fb <> "" ->
  occurs Re.I "SUGGESTIONS" (feedback fb) = false ->
  suggestions fb <> [] -> Forall bullet_item (suggestions fb) ->
  parse_judge_response (judge_reply fb) = Ok fb.
Proof.
  intros R Sf Nf Of Ns Fs.
  destruct (bullet_lines_ends _ Ns Fs) as (Vb & Lb).
  (* the feedback *)
  destruct (feedback_match_found (all_score_lines fb "") (feedback fb)
              (Py.nl +:+ bullet_lines (suggestions fb))) as (m1 & E1 & G1);
    [|exact Sf|exact Nf|exact Of|].
  { apply absent_before_borderless; [|reflexivity].
    rewrite occurs_IS.
    apply all_score_lines_plain; [reflexivity|intros l; destruct l; reflexivity|exact R|
                                  reflexivity]. }
  (* the suggestions *)
  destruct (suggestions_match_found
              (all_score_lines fb "" +:+ "FEEDBACK: " +:+ feedback fb +:+ Py.nl)
              (bullet_lines (suggestions fb))) as (m2 & E2 & G2); [|exact Vb|exact Lb|].
  { assert (Sh : all_score_lines fb "" +:+ "FEEDBACK: " +:+ feedback fb +:+ Py.nl
                 = all_score_lines fb ("FEEDBACK: " +:+ feedback fb) +:+ Py.nl).
    { unfold all_score_lines, score_line. rewrite ?append_assoc, ?append_empty_r. reflexivity. }
    rewrite Sh. apply absent_before_IS.
    apply absent_before_app; [|apply absent_before_unrelated; reflexivity].
    apply absent_before_foreign; [|reflexivity].
    apply all_score_lines_plain; [reflexivity|intros l; destruct l; reflexivity|exact R|].
    change ("FEEDBACK: " +:+ feedback fb)
      with (String "F" (String "E" (String "E" (String "D" (String "B" (String "A"
           (String "C" (String "K" (String ":" (String " " (feedback fb))))))))))).
    repeat (apply occurs_cons_unrelated; [reflexivity|]). exact Of. }
  assert (Sh1 : judge_reply fb =
                all_score_lines fb "" +:+ "FEEDBACK: " +:+ (feedback fb +:+ Py.nl)
                  +:+ "SUGGESTIONS:" +:+ Py.nl +:+ bullet_lines (suggestions fb)).
  { rewrite judge_reply_remarks. unfold judge_remarks. rewrite ?append_assoc. reflexivity. }
  assert (Sh2 : judge_reply fb =
                (all_score_lines fb "" +:+ "FEEDBACK: " +:+ feedback fb +:+ Py.nl)
                  +:+ "SUGGESTIONS:" +:+ Py.nl +:+ bullet_lines (suggestions fb)).
  { rewrite judge_reply_remarks. unfold judge_remarks. rewrite ?append_assoc. reflexivity. }
  rewrite <- Sh1 in E1. rewrite <- Sh2 in E2.
  unfold parse_judge_response. rewrite or_else_empty.
  change Pat.overall with (score_pattern Overall).
  change Pat.age with (score_pattern Age).
  change Pat.engagement with (score_pattern Engagement).
  change Pat.moral_clarity with (score_pattern MoralClarity).
  change Pat.story_structure with (score_pattern StoryStructure).
  change Pat.language_quality with (score_pattern LanguageQuality).
  rewrite (judge_scores_found fb Overall R), (judge_scores_found fb Age R),
          (judge_scores_found fb Engagement R), (judge_scores_found fb MoralClarity R),
          (judge_scores_found fb StoryStructure R), (judge_scores_found fb LanguageQuality R).
  cbn [exc_bind score_field]. rewrite E1, G1, E2, G2. cbn [exc_bind].
  unfold Re.findall. rewrite (findall_bullets _ 0 Ns Fs), (clean_items_kept _ Fs).
  destruct fb as [v1 v2 v3 v4 v5 v6 f l]. cbn [suggestions] in *.
  destruct l; [congruence|reflexivity].
Qed.

(** ** Further properties: the extractors on well-formed replies *)

(** X17: a reply in the layout the storyteller is asked for is decoded
    part by part: for a title, a content and a moral that are plain (the
    title on one line; title and content without the words STORY and
    MORAL as plain_story says; none of the three empty or with outer
    white space) parse_story_response returns exactly the three. *)
Theorem story_reply_is_decoded (t c m fallback_title : string) :
  plain_story {| title := t; content := c; moral := m; version := 1 |} = true ->
  Py.strip m = m -> m <> "" ->
  parse_story_response (story_reply t c m) fallback_title = Ok (t, c, m).
Proof.
  intros P Sm Nm.
  destruct (plain_story_inv _ P) as (St & Nt & Lt & OSt & OMt & Sc & Nc & OMc & Ec).
  cbn [title content] in *.
  destruct (stripped_starts_visible _ Sm Nm) as (_ & Lm).
  unfold story_reply.
  rewrite (story_text_parsed t c m fallback_title St Nt Lt OSt OMt Sc Nc OMc Ec Lm), Sm.
  reflexivity.
Qed.

Lemma story_reply_witness :
  parse_story_response
    (story_reply "The Sleepy Owl" "Once upon a time an owl yawned." "Rest is a gift.")
    "Untitled Story"
  = Ok ("The Sleepy Owl", "Once upon a time an owl yawned.", "Rest is a gift.").
Proof.
  apply (story_reply_is_decoded "The Sleepy Owl" "Once upon a time an owl yawned."
           "Rest is a gift." "Untitled Story"); [reflexivity|reflexivity|discriminate].
Defined.

(** X18: a reply that mentions none of the labels TITLE, STORY and MORAL
    (in any letter case) is taken whole: the content is the trimmed
    reply, the title is the fallback title and the moral is empty. *)
Theorem unlabelled_reply_is_the_story (text fallback_title : string) :
  occurs Re.I "TITLE" text = false ->
  occurs Re.I "STORY" text = false ->
  occurs Re.I "MORAL" text = false ->
  parse_story_response text fallback_title = Ok (fallback_title, Py.strip text, "").
Proof. apply unlabelled_story_parsed. Qed.

Lemma unlabelled_reply_witness :
  parse_story_response "  An owl yawned and fell asleep. " "Untitled Story"
  = Ok ("Untitled Story", "An owl yawned and fell asleep.", "").
Proof.
  apply (unlabelled_reply_is_the_story "  An owl yawned and fell asleep. " "Untitled Story");
    reflexivity.
Defined.

(** X19: two labelled options are decoded as written: for options that
    are not empty, have no outer white space and no line feed, the first
    of which does not mention CHOICE_2, parse_choice_proposal returns the
    two options in order. *)
Theorem choice_reply_is_decoded (a b : string) :
  Py.strip a = a -> a <> "" -> all_chars not_lf a = true ->
  occurs Re.I "CHOICE_2" a = false ->
  Py.strip b = b -> b <> "" -> all_chars not_lf b = true ->
  parse_choice_proposal (choice_reply a b) = Ok (a, b).
Proof. apply parse_choice_reply. Qed.

Lemma choice_reply_witness :
  parse_choice_proposal (choice_reply "Follow the fireflies." "Visit the pond.")
  = Ok ("Follow the fireflies.", "Visit the pond.").
Proof.
  apply (choice_reply_is_decoded "Follow the fireflies." "Visit the pond.");
    first [reflexivity|discriminate].
Defined.

(** X20: without the label CHOICE_1, two numbered lines are the two
    options: each line opens with 1 or 2, then a closing bracket or a
    full stop; the options come back in the order of the lines, whatever
    the numbers are. *)
Theorem numbered_reply_is_decoded (n1 p1 : ascii) (a : string) (n2 p2 : ascii) (b : string) :
  is_item_number n1 = true -> is_item_mark p1 = true ->
  is_item_number n2 = true -> is_item_mark p2 = true ->
  line_value a -> line_value b ->
  occurs Re.I "CHOICE_1" a = false -> occurs Re.I "CHOICE_1" b = false ->
  parse_choice_proposal (numbered_reply n1 p1 a n2 p2 b) = Ok (a, b).
Proof. apply parse_numbered_reply. Qed.

Lemma numbered_reply_witness :
  parse_choice_proposal (numbered_reply "2" ")" "Visit the pond." "1" "." "Go home.")
  = Ok ("Visit the pond.", "Go home.").
Proof.
  apply (numbered_reply_is_decoded "2" ")" "Visit the pond." "1" "." "Go home.");
    try reflexivity; repeat split; discriminate.
Defined.

(** X21: a continuation reply in the layout the prompt asks for is
    decoded as written, with its closing moral (a final step) or without
    one: the continuation is the text under the label and the moral is
    the text after MORAL, or empty. *)
Theorem continuation_reply_is_decoded (c m : string) :
  Py.strip c = c -> c <> "" ->
  occurs Re.I "MORAL" c = false -> Re.eat Re.I "CONTINUATION" c = None ->
  Py.strip m = m ->
  parse_continuation_response (continuation_reply c (Some m)) = Ok (c, m) /\
  parse_continuation_response (continuation_reply c None) = Ok (c, "").
Proof.
  intros Sc Nc Oc Ec Sm. split.
  - apply parse_continuation_reply_final; assumption.
  - apply parse_continuation_reply_open; assumption.
Qed.

Lemma continuation_reply_witness :
  parse_continuation_response
    (continuation_reply "Olive fell asleep." (Some "Rest is a gift."))
  = Ok ("Olive fell asleep.", "Rest is a gift.").
Proof.
  apply (continuation_reply_is_decoded "Olive fell asleep." "Rest is a gift.");
    first [reflexivity|discriminate].
Defined.

(** X22: a continuation reply that mentions neither CONTINUATION nor
    MORAL is taken whole: the continuation is the trimmed reply and there
    is no moral, so the step does not end the choice mode. *)
Theorem unlabelled_continuation_is_taken_whole (text : string) :
  occurs Re.I "CONTINUATION" text = false ->
  occurs Re.I "MORAL" text = false ->
  parse_continuation_response text = Ok (Py.strip text, "").
Proof. apply parse_unlabelled_continuation. Qed.

Lemma unlabelled_continuation_witness :
  parse_continuation_response " Olive flew on. " = Ok ("Olive flew on.", "").
Proof.
  apply (unlabelled_continuation_is_taken_whole " Olive flew on. "); reflexivity.
Defined.

(** X23: a judge reply in the layout the judge is asked for is decoded
    into the feedback it was written from: six scores between 1 and 10, a
    feedback text that is not empty, has no outer white space and does
    not mention SUGGESTIONS, and at least one suggestion, each not empty,
    without outer white space and without a line feed. *)
Theorem judge_reply_is_decoded (fb : JudgeFeedback) :
  scores_in_range fb ->
  Py.strip (feedback fb) = feedback fb -> feedback fb <> "" ->
  occurs Re.I "SUGGESTIONS" (feedback fb) = false ->
  suggestions fb <> [] -> Forall bullet_item (suggestions fb) ->
  parse_judge_response (judge_reply fb) = Ok fb.
Proof. apply parse_judge_reply. Qed.

Lemma judge_reply_witness :
  parse_judge_response
    (judge_reply {| overall_score := 8; age_appropriateness := 9; engagement := 7;
                    moral_clarity := 10; story_structure := 6; language_quality := 1;
                    feedback := "A gentle tale - but slow.";
                    suggestions := ["Add a lullaby."; "Shorten the middle - a lot."] |})
  = Ok {| overall_score := 8; age_appropriateness := 9; engagement := 7;
          moral_clarity := 10; story_structure := 6; language_quality := 1;
          feedback := "A gentle tale - but slow.";
          suggestions := ["Add a lullaby."; "Shorten the middle - a lot."] |}.
Proof.
  apply judge_reply_is_decoded.
  - unfold scores_in_range. cbn. lia.
  - reflexivity.
  - discriminate.
  - reflexivity.
  - discriminate.
  - repeat constructor; discriminate.
Defined.

(** ** Further properties: runs with a given service *)

Lemma call_model_answered prompt system_prompt max_tokens temperature w text :
  service w (length (requests w)) = Replied (Some text) ->
  call_model prompt system_prompt max_tokens temperature w =
  (Ok text, advance w [chat_request prompt system_prompt max_tokens temperature] []).
Proof.
  intros S. rewrite call_model_cases. cbv zeta. rewrite S. cbn [reply_text].
  rewrite or_else_empty. reflexivity.
Qed.

Lemma advance_next w req :
  length (requests (advance w [req] [])) = S (length (requests w)).
Proof. cbn. rewrite length_app. cbn. lia. Qed.

(** X24: when the service answers the first request with a story in the
    layout asked for and the second with a judge reply whose overall score
    is 7 or more, generate_and_refine_story returns that story as version
    1 with the judge's feedback as its whole history, after exactly two
    requests: one for the draft with the storyteller's instructions and
    one for the judging with the judge's. *)
Theorem accepted_draft_is_returned (request : StoryRequest) (w : world)
    (t c m : string) (fb : JudgeFeedback) :
  let s := {| title := t; content := c; moral := m; version := 1 |} in
  service w (length (requests w)) = Replied (Some (story_reply t c m)) ->
  service w (S (length (requests w))) = Replied (Some (judge_reply fb)) ->
  plain_story s = true -> Py.strip m = m -> m <> "" ->
  scores_in_range fb ->
  Py.strip (feedback fb) = feedback fb -> feedback fb <> "" ->
  occurs Re.I "SUGGESTIONS" (feedback fb) = false ->
  suggestions fb <> [] -> Forall bullet_item (suggestions fb) ->
  (JUDGE_THRESHOLD <= overall_score fb)%Z ->
  fst (generate_and_refine_story request w) = Ok (s, [fb]) /\
  requests (snd (generate_and_refine_story request w)) =
    requests w ++
    [chat_request (generate_story_prompt request None)
       (get_storyteller_system_prompt (category request)) STORY_MAX_TOKENS (4 # 5);
     chat_request (judge_prompt s request 1 []) JUDGE_SYSTEM_PROMPT JUDGE_MAX_TOKENS (2 # 5)] /\
  trace (snd (generate_and_refine_story request w)) =
    trace w ++ [EvDraft s; EvJudged 1 s fb] /\
  sleeps (snd (generate_and_refine_story request w)) = sleeps w.
Proof.
  intros s S1 S2 P Sm Nm R Sf Nf Of Ns Fs Th.
  pose proof (parse_judge_reply fb R Sf Nf Of Ns Fs) as PJ.
  assert (PS : parse_story_response (story_reply t c m) "Untitled Story" = Ok (t, c, m)).
  { destruct (plain_story_inv _ P) as (St & Nt & Lt & OSt & OMt & Sc & Nc & OMc & Ec).
    cbn [title content s] in *.
    destruct (stripped_starts_visible _ Sm Nm) as (_ & Lm).
    unfold story_reply.
    rewrite (story_text_parsed t c m _ St Nt Lt OSt OMt Sc Nc OMc Ec Lm), Sm. reflexivity. }
  destruct (generate_and_refine_story request w) as [r w'] eqn:E.
  unfold generate_and_refine_story, bind at 1 in E.
  unfold generate_story, bind at 1 in E.
  rewrite (call_model_answered _ _ _ _ w _ S1) in E.
  unfold bind at 1, lift in E. rewrite PS in E. unfold bind at 1 in E. cbn [emit ret] in E.
  fold s in E.
  change (seq 0 MAX_REFINEMENT_ITERATIONS) with (0 :: seq 1 4) in E.
  cbn [refine_loop] in E. unfold bind at 1 in E. unfold judge_story, bind at 1 in E.
  change (Z.of_nat 0 + 1)%Z with 1%Z in E.
  rewrite call_model_answered with (text := judge_reply fb) in E.
  2:{ cbn [requests service advance]. rewrite length_app. cbn [length].
      rewrite Nat.add_1_r. exact S2. }
  unfold bind at 1, lift in E. rewrite PJ in E. unfold bind at 1 in E. cbn [emit ret] in E.
  apply Z.leb_le in Th. rewrite Th in E. cbn [ret] in E. inversion E; subst; clear E.
  cbn [fst snd requests trace sleeps advance app].
  rewrite ?app_nil_r, <- ?app_assoc. cbn [app]. auto.
Qed.

Lemma accepted_draft_witness :
  fst (generate_and_refine_story sample_request
         (scripted
            [story_reply "The Sleepy Owl" "Once upon a time an owl yawned." "Rest is a gift.";
             judge_reply {| overall_score := 8; age_appropriateness := 9; engagement := 7;
                            moral_clarity := 10; story_structure := 6; language_quality := 7;
                            feedback := "A gentle tale.";
                            suggestions := ["Add a lullaby."] |}]
            []))
  = Ok ({| title := "The Sleepy Owl"; content := "Once upon a time an owl yawned.";
           moral := "Rest is a gift."; version := 1 |},
        [{| overall_score := 8; age_appropriateness := 9; engagement := 7;
            moral_clarity := 10; story_structure := 6; language_quality := 7;
            feedback := "A gentle tale.";
            suggestions := ["Add a lullaby."] |}]).
Proof.
  apply accepted_draft_is_returned.
  - reflexivity.
  - reflexivity.
  - reflexivity.
  - reflexivity.
  - discriminate.
  - unfold scores_in_range. cbn. lia.
  - reflexivity.
  - discriminate.
  - reflexivity.
  - discriminate.
  - repeat constructor; discriminate.
  - unfold JUDGE_THRESHOLD. cbn. lia.
Defined.

(** X25: a continuation that brings a moral ends the choice mode at once,
    whatever the number of steps asked for: when the service answers with
    two options and then with a continuation and its moral, and the user
    types 2, the second option is the one sent with the continuation
    request, the Story returned is the one committed from that
    continuation, and no further proposal is requested. *)
Theorem second_option_and_moral_end_the_mode (story : Story) (request : StoryRequest)
    (total_steps : nat) (w : world) (a b c m line : string) (rest : list string) :
  0 < total_steps ->
  service w (length (requests w)) = Replied (Some (choice_reply a b)) ->
  service w (S (length (requests w))) = Replied (Some (continuation_reply c (Some m))) ->
  stdin w = line :: rest -> Py.lower (Py.strip line) = "2" ->
  Py.strip a = a -> a <> "" -> all_chars not_lf a = true ->
  occurs Re.I "CHOICE_2" a = false ->
  Py.strip b = b -> b <> "" -> all_chars not_lf b = true ->
  Py.strip c = c -> c <> "" ->
  occurs Re.I "MORAL" c = false -> Re.eat Re.I "CONTINUATION" c = None ->
  Py.strip m = m -> m <> "" ->
  let r := run_interactive_choice_mode story request total_steps w in
  fst r = Ok (commit story c m) /\
  requests (snd r) =
    requests w ++
    [chat_request (propose_prompt story request 1 total_steps)
       CHOICE_PROPOSER_SYSTEM_PROMPT CHOICE_PROPOSAL_MAX_TOKENS (1 # 2);
     chat_request (continuation_prompt story b (Nat.leb total_steps 1))
       (get_storyteller_system_prompt (category request))
       CHOICE_CONTINUATION_MAX_TOKENS (4 # 5)] /\
  stdin (snd r) = rest /\
  trace (snd r) =
    trace w ++ [EvProposed 1 a b; EvContinuation 1 c m; EvCommitted 1 (commit story c m)] /\
  sleeps (snd r) = sleeps w.
Proof.
  intros P S1 S2 I L Sa Na La Oa Sb Nb Lb Sc Nc Oc Ec Sm Nm. cbv zeta.
  pose proof (parse_choice_reply a b Sa Na La Oa Sb Nb Lb) as PC.
  pose proof (parse_continuation_reply_final c m Sc Nc Oc Ec Sm) as PK.
  destruct (run_interactive_choice_mode story request total_steps w) as [res w'] eqn:E.
  destruct (first_step_run story request total_steps w P) as (steps & Es).
  rewrite Es in E. clear Es. cbn [choice_loop] in E. unfold bind at 1 in E.
  unfold propose_next_choices, bind at 1 in E.
  rewrite (call_model_answered _ _ _ _ w _ S1) in E.
  unfold bind at 1, lift in E. rewrite PC in E. unfold bind at 1 in E. cbn [emit ret fst snd] in E.
  unfold bind at 1, ask_pick in E. cbn [stdin advance] in E. rewrite I in E.
  cbn [read_pick] in E. rewrite L in E. cbn [mem existsb String.eqb Ascii.eqb Bool.eqb orb] in E.
  cbn [String.eqb Ascii.eqb Bool.eqb] in E.
  unfold bind at 1 in E. unfold generate_continuation, bind at 1 in E.
  rewrite call_model_answered with (text := continuation_reply c (Some m)) in E.
  2:{ cbn [requests service advance]. rewrite length_app. cbn [length].
      rewrite Nat.add_1_r. exact S2. }
  unfold bind at 1, lift in E. rewrite PK in E. unfold bind at 1 in E.
  cbn [emit ret fst snd] in E. unfold bind at 1 in E. cbn [emit] in E.
  rewrite Sm in E.
  replace (Py.truthy m) with true in E by (destruct m; [congruence|reflexivity]).
  cbn [ret] in E. inversion E; subst; clear E.
  cbn [fst snd requests trace sleeps stdin advance app].
  rewrite ?app_nil_r, <- ?app_assoc. cbn [app]. auto.
Qed.

Lemma second_option_witness :
  fst (run_interactive_choice_mode sample_story sample_request 3
         (scripted
            [choice_reply "Follow the fireflies." "Visit the pond.";
             continuation_reply "Olive fell asleep." (Some "Rest is a gift.")]
            [" 2 "; "1"]))
  = Ok (commit sample_story "Olive fell asleep." "Rest is a gift.").
Proof.
  apply (second_option_and_moral_end_the_mode sample_story sample_request 3
           (scripted
              [choice_reply "Follow the fireflies." "Visit the pond.";
               continuation_reply "Olive fell asleep." (Some "Rest is a gift.")]
              [" 2 "; "1"])
           "Follow the fireflies." "Visit the pond." "Olive fell asleep." "Rest is a gift."
           " 2 " ["1"]);
    first [lia|reflexivity|discriminate].
Defined.

Lemma build_improvement_context_latest history fb :
  build_improvement_context (history ++ [fb]) = build_improvement_context [fb].
Proof. unfold build_improvement_context. rewrite last_snoc. reflexivity. Qed.

(** X26: a revision is asked for with the latest feedback only: whatever
    the earlier rounds said, refine_story sends the same request and
    returns the same Story as with the last feedback alone. *)
Theorem refinement_uses_the_latest_feedback_only (story : Story) (request : StoryRequest)
    (history : list JudgeFeedback) (fb : JudgeFeedback) (w : world) :
  refine_story story request (history ++ [fb]) w = refine_story story request [fb] w.
Proof.
  unfold refine_story, refine_prompt. rewrite build_improvement_context_latest. reflexivity.
Qed.
